(** * The e-mail planning bot: protocol parser, time expressions, job store

    A shallow embedding of [telegram_bot.py] (class [EmailPlanningBot]) and
    [email_scheduler.py] (class [EmailScheduler]), with the parts of the
    Python runtime and of the [schedule] library these two files call. *)

From Stdlib Require Import ZArith NArith Lia List Bool String Ascii.
From stdpp Require Import base option list gmap.

Local Open Scope Z_scope.

(** ** Python text

    A [str] is a sequence of Unicode code points. Literals are written as
    UTF-8 text and decoded by [u]. *)

Abbreviation char := N (only parsing).
Abbreviation str := (list N) (only parsing).

(** A naive [datetime] and a [timedelta] are numbers of microseconds (see
    below). *)
Abbreviation datetime := Z (only parsing).
Abbreviation timedelta := Z (only parsing).

Fixpoint utf8_decode (bs : list N) : str :=
  match bs with
  | [] => []
  | b :: r =>
      if (b <? 128)%N then b :: utf8_decode r
      else if (b <? 224)%N then
        match r with
        | b1 :: r1 => ((b - 192) * 64 + (b1 - 128))%N :: utf8_decode r1
        | _ => [b]
        end
      else if (b <? 240)%N then
        match r with
        | b1 :: b2 :: r2 =>
            ((b - 224) * 4096 + (b1 - 128) * 64 + (b2 - 128))%N :: utf8_decode r2
        | _ => [b]
        end
      else
        match r with
        | b1 :: b2 :: b3 :: r3 =>
            ((b - 240) * 262144 + (b1 - 128) * 4096 + (b2 - 128) * 64 + (b3 - 128))%N
              :: utf8_decode r3
        | _ => [b]
        end
  end.

Definition u (s : string) : str :=
  utf8_decode (map N_of_ascii (list_ascii_of_string s)).

(** [Py_UNICODE_ISSPACE]: the characters [str.strip()] and [str.split()]
    treat as white space. *)
Definition isspace (c : char) : bool :=
  ((9 <=? c) && (c <=? 13) || (28 <=? c) && (c <=? 32) || (c =? 133) || (c =? 160)
   || (c =? 5760) || (8192 <=? c) && (c <=? 8202) || (c =? 8232) || (c =? 8233)
   || (c =? 8239) || (c =? 8287) || (c =? 12288))%N.

Fixpoint lstrip (s : str) : str :=
  match s with
  | c :: r => if isspace c then lstrip r else s
  | [] => []
  end.

Definition rstrip (s : str) : str := rev (lstrip (rev s)).

(** [s.strip()] *)
Definition strip (s : str) : str := rstrip (lstrip s).

(** [s.startswith(p)] *)
Fixpoint startswith (s p : str) : bool :=
  match p, s with
  | [], _ => true
  | a :: p', b :: s' => (a =? b)%N && startswith s' p'
  | _ :: _, [] => false
  end.

(** [sub in s] *)
Fixpoint contains (sub s : str) : bool :=
  startswith s sub || match s with [] => false | _ :: r => contains sub r end.

(** [s.replace(old, new)] for a non-empty [old]: occurrences are found left
    to right and do not overlap; [skip] counts the characters of an
    occurrence still to be passed over. *)
Fixpoint replace_from (old new : str) (skip : nat) (s : str) : str :=
  match s with
  | [] => []
  | c :: r =>
      match skip with
      | S k => replace_from old new k r
      | O =>
          if startswith s old then new ++ replace_from old new (length old - 1) r
          else c :: replace_from old new 0 r
      end
  end.

Definition replace (s old new : str) : str := replace_from old new 0 s.

(** [s.split(sep)] for a non-empty separator: every occurrence of [sep]
    ends a field, empty fields included. [cur] is the current field,
    reversed. *)
Fixpoint split_from (sep : str) (skip : nat) (cur : str) (s : str) : list str :=
  match s with
  | [] => [rev cur]
  | c :: r =>
      match skip with
      | S k => split_from sep k cur r
      | O =>
          if startswith s sep then rev cur :: split_from sep (length sep - 1) [] r
          else split_from sep 0 (c :: cur) r
      end
  end.

Definition split_sep (s sep : str) : list str := split_from sep 0 [] s.

(** [s.split()]: fields are the maximal runs of non-space characters. *)
Fixpoint split_ws_from (cur : str) (s : str) : list str :=
  match s with
  | [] => match cur with [] => [] | _ => [rev cur] end
  | c :: r =>
      if isspace c then
        match cur with
        | [] => split_ws_from [] r
        | _ => rev cur :: split_ws_from [] r
        end
      else split_ws_from (c :: cur) r
  end.

Definition split (s : str) : list str := split_ws_from [] s.

(** ** Exceptions *)

Inductive exn :=
| ValueError
| IndexError
| OverflowError
| TypeError
| KeyError
| SystemExit (msg : str).

Inductive result (A : Type) :=
| Ok (a : A)
| Raise (e : exn).
Arguments Ok {A} a.
Arguments Raise {A} e.

(** Sequencing: the first exception raised ends the computation. *)
Instance result_bind : MBind result := fun A B k r =>
  match r with
  | Ok a => k a
  | Raise e => Raise e
  end.

Instance result_ret : MRet result := fun A a => Ok a.

(** [l[i]] for [i >= 0] *)
Definition getitem {A} (l : list A) (i : nat) : result A :=
  match nth_error l i with
  | Some a => Ok a
  | None => Raise IndexError
  end.

(** ** The protocol parser ([EmailPlanningBot.parse_ai_response])

    The function returns a pair of an action name and a dict, or, where
    no [return] is reached, [None]. *)

Inductive action :=
| schedule_email (subject body send_time : str)
| request_attachment (info : str)
| text_response (message : str).

Definition GOTOWE : str := u "GOTOWE:".
Definition ZALACZNIK : str := u "ZAŁĄCZNIK:".

Definition parse_ai_response (response : str) : option action :=
  let response := strip response in
  if startswith response GOTOWE then
    let data_part := strip (replace response GOTOWE []) in
    let parts := split_sep data_part (u "|") in
    if (3 <=? length parts)%nat then
      Some (schedule_email (strip (nth 0 parts [])) (strip (nth 1 parts []))
              (strip (nth 2 parts [])))
    else None
  else if startswith response ZALACZNIK then
    Some (request_attachment (strip (replace response ZALACZNIK [])))
  else Some (text_response response).

(** ** Conversation turns and the completion service

    A turn of the history is a dict with a role and a content; the result
    of a tool call, passed to the service, carries a name as well. The
    service answers with a request to call a named function, with a
    message whose content may be missing, or the call fails. *)

Record message := {
  role : str;
  content : str;
  name : option str
}.

(** A message to send: the arguments of [send_email]. *)
Record email := {
  to_email : str;
  subject : str;
  body : str;
  html_body : option str;
  attachments : option (list str)
}.

Inductive completion :=
| api_error
| function_call (fname : str)
| reply (text : option str).

(** ** What the interpreter and the platform decide

    The tables of Unicode case mapping and decimal digits, the wording of
    formatted times, the time zone, the mail server and a rule of the
    [schedule] library lie outside the two files; the program reaches
    them through these functions. Every statement below holds for all of
    them. *)

Class PyRuntime := {
  (** [s.lower()] on a text with a character outside ASCII *)
  unicode_lower : str -> str;
  (** [Py_UNICODE_TODECIMAL] on a character outside ASCII *)
  unicode_decimal : char -> option N;
  (** [sys.get_int_max_str_digits()]; 0 switches the limit off *)
  int_max_str_digits : nat;
  (** [str(dt.timestamp())] *)
  timestamp_str : Z -> str;
  (** [dt.strftime('%d.%m.%Y %H:%M')] *)
  strftime : Z -> str;
  (** [str(e)] of a caught exception *)
  str_of_exn : exn -> str;
  (** the [schedule] library's next run of an [every().day.at(hh:mm)] job
      computed at a given instant (the rule differs between releases) *)
  daily_next_run : Z -> Z -> Z -> Z;
  (** the mail transport: whether [send_email], called at an instant with
      a message, reports success *)
  smtp_accepts : Z -> email -> bool;
  (** [openai_client.chat.completions.create] on a context, with or
      without the two functions on offer *)
  chat_completion : list message -> bool -> completion
}.

Section Runtime.
Context `{PyRuntime}.

Definition is_ascii (c : char) : bool := (c <? 128)%N.

Definition ascii_lower (c : char) : char :=
  if ((65 <=? c) && (c <=? 90))%N then (c + 32)%N else c.

(** [s.lower()]: an ASCII text takes the byte-wise path. *)
Definition lower (s : str) : str :=
  if forallb is_ascii s then map ascii_lower s else unicode_lower s.

(** *** [int(s)]

    The text is first brought to ASCII (white space to a blank, decimal
    digits to '0'..'9', anything else to '?'), then blanks of the C
    locale are dropped at both ends, then an optional sign and a run of
    digits, single underscores allowed between digits, are read. *)

Definition to_ascii (c : char) : char :=
  if is_ascii c then c
  else if isspace c then 32%N
  else match unicode_decimal c with
       | Some d => (48 + d)%N
       | None => 63%N
       end.

Definition c_isspace (c : char) : bool := ((9 <=? c) && (c <=? 13) || (c =? 32))%N.

Fixpoint c_lstrip (s : str) : str :=
  match s with
  | c :: r => if c_isspace c then c_lstrip r else s
  | [] => []
  end.

Definition is_digit (c : char) : bool := ((48 <=? c) && (c <=? 57))%N.

(** [acc] is the value read so far, [after_digit] whether the previous
    character was a digit, [n] the number of digits read. *)
Fixpoint digits_from (acc : Z) (after_digit : bool) (n : nat) (s : str)
  : option (Z * nat) :=
  match s with
  | [] => if after_digit then Some (acc, n) else None
  | c :: r =>
      if is_digit c then digits_from (10 * acc + (Z.of_N c - 48)) true (S n) r
      else if (c =? 95)%N && after_digit then digits_from acc false n r
      else None
  end.

Definition int (s : str) : result Z :=
  let a := rev (c_lstrip (rev (c_lstrip (map to_ascii s)))) in
  let '(negative, ds) :=
    match a with
    | 43%N :: r => (false, r)
    | 45%N :: r => (true, r)
    | _ => (false, a)
    end in
  match digits_from 0 false 0 ds with
  | Some (v, n) =>
      if ((640 <? n) && (0 <? int_max_str_digits) && (int_max_str_digits <? n))%nat
      then Raise ValueError
      else Ok (if negative then - v else v)
  | None => Raise ValueError
  end.

(** [a, b = xs], [a, b, c = xs]: a wrong number of values is a
    [ValueError]. [map(int, xs)] raises [ValueError] at the first field
    that is no integer; the unpacking reads one field more than it needs. *)
Fixpoint ints (xs : list str) : result (list Z) :=
  match xs with
  | [] => Ok []
  | x :: r => v ← int x; vs ← ints r; Ok (v :: vs)
  end.

Definition unpack_ints (k : nat) (xs : list str) : result (list Z) :=
  vs ← ints (take (S k) xs);
  if (length vs =? k)%nat then Ok vs else Raise ValueError.

(** ** [datetime] and [timedelta]

    A naive [datetime] is the number of microseconds since
    0001-01-01 00:00:00; [datetime.max] is 9999-12-31 23:59:59.999999. A
    [timedelta] is a number of microseconds whose whole days lie within
    999999999 of zero. *)

Definition US_PER_SECOND : Z := 1000000.
Definition US_PER_MINUTE : Z := 60 * US_PER_SECOND.
Definition US_PER_HOUR : Z := 60 * US_PER_MINUTE.
Definition US_PER_DAY : Z := 24 * US_PER_HOUR.
Definition MAXORDINAL : Z := 3652059.
Definition DATETIME_MAX : datetime := MAXORDINAL * US_PER_DAY - 1.

Definition valid_datetime (t : datetime) : Prop := 0 <= t <= DATETIME_MAX.

Definition is_leap (y : Z) : bool :=
  (y mod 4 =? 0) && (negb (y mod 100 =? 0) || (y mod 400 =? 0)).

Definition days_before_year (y : Z) : Z :=
  let y := y - 1 in y * 365 + y / 4 - y / 100 + y / 400.

Definition days_in_month (y m : Z) : Z :=
  if m =? 2 then (if is_leap y then 29 else 28)
  else if (m =? 4) || (m =? 6) || (m =? 9) || (m =? 11) then 30 else 31.

Definition days_before_month (y m : Z) : Z :=
  nth (Z.to_nat m) [0; 0; 31; 59; 90; 120; 151; 181; 212; 243; 273; 304; 334] 0
  + (if (2 <? m) && is_leap y then 1 else 0).

Definition ymd2ord (y m d : Z) : Z :=
  days_before_year y + days_before_month y m + d.

(** An argument of [datetime(...)] or [replace(...)] outside the C [int]
    is an [OverflowError], raised before any field is checked. *)
Definition c_int (v : Z) : bool := (-2147483648 <=? v) && (v <=? 2147483647).

(** [datetime(year, month, day, hour, minute)] *)
Definition datetime_new (year month day hour minute : Z) : result datetime :=
  if negb (forallb c_int [year; month; day; hour; minute]) then Raise OverflowError
  else if negb ((1 <=? year) && (year <=? 9999)) then Raise ValueError
  else if negb ((1 <=? month) && (month <=? 12)) then Raise ValueError
  else if negb ((1 <=? day) && (day <=? days_in_month year month)) then Raise ValueError
  else if negb ((0 <=? hour) && (hour <=? 23)) then Raise ValueError
  else if negb ((0 <=? minute) && (minute <=? 59)) then Raise ValueError
  else Ok ((ymd2ord year month day - 1) * US_PER_DAY
           + hour * US_PER_HOUR + minute * US_PER_MINUTE).

(** [t.replace(hour=hour, minute=minute, second=0, microsecond=0)] *)
Definition replace_hm (t : datetime) (hour minute : Z) : result datetime :=
  if negb (forallb c_int [hour; minute]) then Raise OverflowError
  else if negb ((0 <=? hour) && (hour <=? 23)) then Raise ValueError
  else if negb ((0 <=? minute) && (minute <=? 59)) then Raise ValueError
  else Ok (t / US_PER_DAY * US_PER_DAY + hour * US_PER_HOUR + minute * US_PER_MINUTE).

(** [timedelta(minutes=n)], [timedelta(hours=n)], [timedelta(days=n)] for
    an integer [n], given the length of the unit in microseconds. *)
Definition timedelta_of (unit_us n : Z) : result timedelta :=
  let d := n * unit_us in
  if (-999999999 <=? d / US_PER_DAY) && (d / US_PER_DAY <=? 999999999) then Ok d
  else Raise OverflowError.

(** [t + d] *)
Definition datetime_add (t : datetime) (d : timedelta) : result datetime :=
  if (0 <=? t + d) && (t + d <=? DATETIME_MAX) then Ok (t + d)
  else Raise OverflowError.

(** ** The time-expression parser ([EmailPlanningBot.parse_send_time])

    [parse_send_time_try] is the body of the [try]: [Ok None] when it is
    left without a [return]. [now] is the value of [datetime.now()]. *)

Definition parse_send_time_try (time_str : str) (now : datetime)
  : result (option datetime) :=
  if startswith time_str (u "za ") then
    let parts := split time_str in
    if (3 <=? length parts)%nat then
      p1 ← getitem parts 1;
      amount ← int p1;
      unit ← getitem parts 2;
      if contains (u "minut") unit then
        d ← timedelta_of US_PER_MINUTE amount; t ← datetime_add now d; Ok (Some t)
      else if contains (u "godzin") unit then
        d ← timedelta_of US_PER_HOUR amount; t ← datetime_add now d; Ok (Some t)
      else if contains (u "dni") unit then
        d ← timedelta_of US_PER_DAY amount; t ← datetime_add now d; Ok (Some t)
      else Ok None
    else Ok None
  else if contains (u ".") time_str && contains (u ":") time_str then
    match split time_str with
    | [date_part; time_part] =>
        dmy ← unpack_ints 3 (split_sep date_part (u "."));
        hm ← unpack_ints 2 (split_sep time_part (u ":"));
        match dmy, hm with
        | [day; month; year], [hour; minute] =>
            t ← datetime_new year month day hour minute; Ok (Some t)
        | _, _ => Raise ValueError
        end
    | _ => Raise ValueError
    end
  else if (length time_str =? 5)%nat && contains (u ":") time_str then
    hm ← unpack_ints 2 (split_sep time_str (u ":"));
    match hm with
    | [hour; minute] =>
        target_time ← replace_hm now hour minute;
        if target_time <=? now then
          d ← timedelta_of US_PER_DAY 1; t ← datetime_add target_time d; Ok (Some t)
        else Ok (Some target_time)
    | _ => Raise ValueError
    end
  else Ok None.

Definition parse_send_time (time_str : str) (now : datetime) : result datetime :=
  let time_str := lower (strip time_str) in
  let fallback := d ← timedelta_of US_PER_HOUR 1; datetime_add now d in
  match parse_send_time_try time_str now with
  | Ok (Some t) => Ok t
  | Ok None => fallback
  | Raise ValueError => fallback
  | Raise IndexError => fallback
  | Raise e => Raise e
  end.

(** ** The job store (the [schedule] library's default scheduler)

    [schedule.jobs] is a module-level list shared by every caller. A job
    holds the call it makes ([functools.partial] of a method of
    [EmailScheduler] with its arguments), its period, the instant of its
    next run and its set of tags. [job_id] stands for the identity of the
    Python object. *)

Inductive job_func :=
| call_send_scheduled_email (m : email)
| call_send_scheduled_email_once (m : email).

Inductive job_unit :=
| every_seconds (interval : timedelta)
| every_day_at (hour minute : Z).

Record job := {
  job_id : nat;
  period : job_unit;
  func : job_func;
  next_run : datetime;
  last_run : option datetime;
  tags : list str
}.

(** The store, with the record of every call of [send_email] (the
    message and what the transport answered). *)
Record scheduler := {
  jobs : list job;
  next_job_id : nat;
  deliveries : list (email * bool)
}.

(** [schedule.clear(tag)]: keeps the jobs that do not carry [tag]. *)
Definition clear (tag : str) (js : list job) : list job :=
  filter (fun j => ¬ tag ∈ tags j) js.

(** [job.should_run]: [datetime.now() >= self.next_run] *)
Definition should_run (now : datetime) (j : job) : bool := next_run j <=? now.

(** [sorted(runnable_jobs)]: by [next_run]; jobs with the same next run
    keep their order. *)
Fixpoint insert_job (j : job) (js : list job) : list job :=
  match js with
  | [] => [j]
  | k :: r => if next_run j <=? next_run k then j :: js else k :: insert_job j r
  end.

Definition sorted_jobs (js : list job) : list job := foldr insert_job [] js.

(** [job._schedule_next_run()] at the instant [now] *)
Definition schedule_next_run (now : datetime) (un : job_unit) : result datetime :=
  match un with
  | every_seconds interval => datetime_add now interval
  | every_day_at hh mm => Ok (daily_next_run hh mm now)
  end.

(** [schedule.every(interval).seconds.do(f, ...).tag(tag)]: the job is
    appended once its first run is computed. *)
Definition every_seconds_do_tag (now : datetime) (interval : timedelta)
    (f : job_func) (tag : str) (st : scheduler) : scheduler * result unit :=
  match schedule_next_run now (every_seconds interval) with
  | Ok t =>
      let j := {| job_id := next_job_id st; period := every_seconds interval;
                  func := f; next_run := t; last_run := None; tags := [tag] |} in
      ({| jobs := jobs st ++ [j]; next_job_id := S (next_job_id st);
          deliveries := deliveries st |}, Ok tt)
  | Raise e => (st, Raise e)
  end.

(** ** [EmailScheduler] *)

(** [send_email]: every exception is caught inside; the answer is a
    boolean. *)
Definition send_email (now : datetime) (m : email) (st : scheduler)
  : scheduler * bool :=
  let success := smtp_accepts now m in
  ({| jobs := jobs st; next_job_id := next_job_id st;
      deliveries := deliveries st ++ [(m, success)] |}, success).

Definition send_scheduled_email (now : datetime) (m : email) (st : scheduler)
  : scheduler * result unit :=
  let '(st, success) := send_email now m st in
  (st, Ok tt).

Definition STOPPED : str := u "Email wysłany - scheduler zatrzymany".

Definition send_scheduled_email_once (now : datetime) (m : email) (st : scheduler)
  : scheduler * result unit :=
  let '(st, success) := send_email now m st in
  let st := {| jobs := clear (u "once_" ++ to_email m) (jobs st);
               next_job_id := next_job_id st; deliveries := deliveries st |} in
  (st, Raise (SystemExit STOPPED)).

(** The tag of a one-shot job:
    [f"once_{to_email}_{send_datetime.timestamp()}"] *)
Definition once_tag (to : str) (send_datetime : datetime) : str :=
  u "once_" ++ to ++ u "_" ++ timestamp_str send_datetime.

(** [schedule_email_datetime]. [now] is its own reading of the clock and
    [now_do] the one the library takes when it computes the first run.
    The delay goes through [total_seconds()] and back through
    [timedelta(seconds=...)]; the model keeps its microseconds, which the
    floating-point round trip does for delays below [2^32] seconds, some
    136 years; beyond, the period of the source may be off by some
    microseconds. *)
Definition schedule_email_datetime (now now_do : datetime) (m : email)
    (send_datetime : datetime) (st : scheduler) : scheduler * result unit :=
  if send_datetime <=? now then (st, Ok tt)
  else
    let delay := send_datetime - now in
    every_seconds_do_tag now_do delay (call_send_scheduled_email_once m)
      (once_tag (to_email m) send_datetime) st.

(** The job object [j], changed in place, as the store then shows it. *)
Definition update_job (j : job) (js : list job) : list job :=
  map (fun k => if (job_id k =? job_id j)%nat then j else k) js.

(** [job.run()] followed by what [_run_job] does with the result: the
    call is made; when it returns, the job object gets its [last_run] and
    its next run. Neither method returns [CancelJob], and no job has a
    deadline ([until]). An exception of the call leaves [run] before the
    job is touched. *)
Definition run_job (now : datetime) (j : job) (st : scheduler)
  : scheduler * result unit :=
  let '(st, r) :=
    match func j with
    | call_send_scheduled_email m => send_scheduled_email now m st
    | call_send_scheduled_email_once m => send_scheduled_email_once now m st
    end in
  match r with
  | Raise e => (st, Raise e)
  | Ok _ =>
      match schedule_next_run now (period j) with
      | Raise e => (st, Raise e)
      | Ok t =>
          let j' := {| job_id := job_id j; period := period j; func := func j;
                       next_run := t; last_run := Some now; tags := tags j |} in
          ({| jobs := update_job j' (jobs st); next_job_id := next_job_id st;
              deliveries := deliveries st |}, Ok tt)
      end
  end.

Fixpoint run_jobs (now : datetime) (js : list job) (st : scheduler)
  : scheduler * result unit :=
  match js with
  | [] => (st, Ok tt)
  | j :: r =>
      match run_job now j st with
      | (st, Ok _) => run_jobs now r st
      | (st, Raise e) => (st, Raise e)
      end
  end.

(** [schedule.run_pending()] at the instant [now] *)
Definition run_pending (now : datetime) (st : scheduler) : scheduler * result unit :=
  run_jobs now (sorted_jobs (filter (fun j => should_run now j) (jobs st))) st.

(** [run_scheduler]: [ticks] are the instants at which the loop wakes up
    (one reading of the clock serves a whole tick).
    [Ok tt] means the loop is still running after the last of them; an
    exception that leaves [run_pending] leaves the loop ([SystemExit] is
    logged and raised again). *)
Fixpoint run_scheduler (ticks : list datetime) (st : scheduler)
  : scheduler * result unit :=
  match ticks with
  | [] => (st, Ok tt)
  | now :: later =>
      match run_pending now st with
      | (st, Ok _) => run_scheduler later st
      | (st, Raise e) => (st, Raise e)
      end
  end.

(** ** [EmailPlanningBot] *)

(** [str(n)] of an integer *)
Fixpoint decimal_fuel (fuel : nat) (n : Z) : str :=
  match fuel with
  | O => []
  | S f =>
      if n <? 10 then [Z.to_N (48 + n)]
      else decimal_fuel f (n / 10) ++ [Z.to_N (48 + n mod 10)]
  end.

Definition decimal (n : Z) : str := decimal_fuel (S (Z.to_nat (Z.log2 n))) n.

Definition str_of_int (n : Z) : str :=
  if n <? 0 then 45%N :: decimal (- n) else decimal n.

(** The per-user memory; of its three keys only ["messages"] is ever read
    or written again. *)
Record memory := {
  messages : list message
}.

Record bot := {
  (** [config["default_recipient"]] and [config["max_conversation_history"]],
      when the keys are present *)
  default_recipient : option str;
  max_conversation_history : option Z;
  conversation_memory : gmap Z memory;
  email_planning_state : gmap Z str;
  user_emails : gmap Z str;
  (** the job store behind [self.email_scheduler] *)
  email_scheduler : scheduler;
  (** threads started by [start_scheduler_background], each running
      [run_scheduler] *)
  scheduler_threads : nat;
  (** files written under [attachments/] *)
  saved_files : list str
}.

Definition with_memory (b : bot) (m : gmap Z memory) : bot :=
  {| default_recipient := default_recipient b;
     max_conversation_history := max_conversation_history b;
     conversation_memory := m;
     email_planning_state := email_planning_state b;
     user_emails := user_emails b;
     email_scheduler := email_scheduler b;
     scheduler_threads := scheduler_threads b;
     saved_files := saved_files b |}.

Definition with_planning_state (b : bot) (p : gmap Z str) : bot :=
  {| default_recipient := default_recipient b;
     max_conversation_history := max_conversation_history b;
     conversation_memory := conversation_memory b;
     email_planning_state := p;
     user_emails := user_emails b;
     email_scheduler := email_scheduler b;
     scheduler_threads := scheduler_threads b;
     saved_files := saved_files b |}.

Definition with_scheduler (b : bot) (st : scheduler) : bot :=
  {| default_recipient := default_recipient b;
     max_conversation_history := max_conversation_history b;
     conversation_memory := conversation_memory b;
     email_planning_state := email_planning_state b;
     user_emails := user_emails b;
     email_scheduler := st;
     scheduler_threads := scheduler_threads b;
     saved_files := saved_files b |}.

Definition with_thread (b : bot) : bot :=
  {| default_recipient := default_recipient b;
     max_conversation_history := max_conversation_history b;
     conversation_memory := conversation_memory b;
     email_planning_state := email_planning_state b;
     user_emails := user_emails b;
     email_scheduler := email_scheduler b;
     scheduler_threads := S (scheduler_threads b);
     saved_files := saved_files b |}.

Definition with_file (b : bot) (path : str) : bot :=
  {| default_recipient := default_recipient b;
     max_conversation_history := max_conversation_history b;
     conversation_memory := conversation_memory b;
     email_planning_state := email_planning_state b;
     user_emails := user_emails b;
     email_scheduler := email_scheduler b;
     scheduler_threads := scheduler_threads b;
     saved_files := saved_files b ++ [path] |}.

(** [get_user_memory]: an unknown user gets an empty memory, stored. *)
Definition get_user_memory (b : bot) (user_id : Z) : bot * memory :=
  match conversation_memory b !! user_id with
  | Some m => (b, m)
  | None =>
      let m := {| messages := [] |} in
      (with_memory b (<[user_id := m]> (conversation_memory b)), m)
  end.

Definition get_user_email (b : bot) (user_id : Z) : str :=
  default (default (u "borysm32@gmail.com") (default_recipient b))
    (user_emails b !! user_id).

(** [l[start:]] *)
Definition slice_from {A} (start : Z) (l : list A) : list A :=
  let n := Z.of_nat (length l) in
  let i := if start <? 0 then Z.max 0 (start + n) else Z.min start n in
  drop (Z.to_nat i) l.

Definition add_to_memory (b : bot) (user_id : Z) (role content : str) : bot :=
  let '(b, mem) := get_user_memory b user_id in
  let msgs := messages mem ++ [{| role := role; content := content; name := None |}] in
  let max_history := default 10 (max_conversation_history b) in
  let msgs :=
    if max_history <? Z.of_nat (length msgs) then slice_from (- max_history) msgs
    else msgs in
  with_memory b (<[user_id := {| messages := msgs |}]> (conversation_memory b)).

Definition QUOTE : str := [34%N].

Definition system_prompt (user_email : str) : str :=
  u "Jestes pomocnym botem do planowania wysylki emaili. 

INSTRUKCJE:
1. Analizuj wiadomosci uzytkownikow i wyciagaj informacje o planowanym emailu
2. Zawsze wysylaj emaile na adres: " ++ user_email ++ u "
3. Sam decyduj jaki ma byc temat i tresc emaila na podstawie widoamosci od uzytkownika.
4. Daty podawaj w formacie: DD.MM.RRRR HH:MM lub " ++ QUOTE ++ u "za X minut/godzin/dni"
  ++ QUOTE ++ u "
5. Przed ustaleniem daty wysylki emaila zawsze wywołaj funkcję get_actual_datetime() aby uzyskać aktualną datę i godzinę
6. Pamiętaj, ze Twoim glownym zadaniem jest planowanie wysylki emaili.

DOSTĘPNE FUNKCJE:
- get_actual_datetime(): Zwraca aktualną datę i godzinę w formacie DD.MM.RRRR HH:MM
- get_user_email(): Zwraca aktualny email użytkownika na który będą wysyłane emaile

Użyj tych funkcji gdy potrzebujesz aktualnych informacji!

FORMAT ODPOWIEDZI:
- Jesli masz wszystkie dane: " ++ QUOTE ++ u "GOTOWE: temat|tresc|data_wysylki" ++ QUOTE ++ u "

Przyklad kompletnych danych:
GOTOWE: Przypomnienie o spotkaniu|Spotkanie za 15 minut w sali konferencyjnej|za 2 godziny".

Definition get_conversation_context (b : bot) (user_id : Z) : bot * list message :=
  let '(b, mem) := get_user_memory b user_id in
  let user_email := get_user_email b user_id in
  (b, {| role := u "system"; content := system_prompt user_email; name := None |}
        :: messages mem).

Definition NO_MESSAGE : str :=
  u "Nie otrzymalem zadnej wiadomosci. Napisz cos lub nagraj wiadomosc glosowa.".
Definition NO_AI_RESPONSE : str :=
  u "Nie otrzymalem odpowiedzi od AI. Sprobuj ponownie.".
Definition AI_FAILED : str :=
  u "Przepraszam, wystapil blad podczas analizy wiadomosci. Sprobuj ponownie.".
Definition CANNOT_PROCESS : str :=
  u "Nie moge przetworzyc tej wiadomosci. Sprobuj ponownie.".

Definition nonempty (s : str) : bool := match s with [] => false | _ => true end.

(** The context sent to the service for a new message of the user: the
    message is stored first, then the context is read from the store and
    its empty turns are left out. *)
Definition request_context (b : bot) (user_id : Z) (message_text : str)
  : bot * list message :=
  let b := add_to_memory b user_id (u "user") message_text in
  let '(b, context) := get_conversation_context b user_id in
  (b, filter (fun m => nonempty (content m)) context).

(** [analyze_message_with_ai]; [now] is the clock as [get_actual_datetime]
    reads it. What the [try] has stored stays stored when the service
    fails. *)
Definition analyze_message_with_ai (now : datetime) (b : bot) (user_id : Z)
    (message_text : str) : bot * str :=
  if negb (nonempty (strip message_text)) then (b, NO_MESSAGE)
  else
    let '(b, clean_context) := request_context b user_id message_text in
    match clean_context with
    | [] => (b, CANNOT_PROCESS)
    | _ =>
        let answer :=
          match chat_completion clean_context true with
          | api_error => None
          | reply text => Some text
          | function_call fname =>
              let clean_context :=
                if bool_decide (fname = u "get_actual_datetime") then
                  clean_context ++
                    [{| role := u "function";
                        content := u "Aktualna data i godzina: " ++ strftime now;
                        name := Some (u "get_actual_datetime") |}]
                else if bool_decide (fname = u "get_user_email") then
                  clean_context ++
                    [{| role := u "function";
                        content := u "Aktualny email użytkownika: "
                                   ++ get_user_email b user_id;
                        name := Some (u "get_user_email") |}]
                else clean_context in
              match chat_completion clean_context false with
              | api_error => None
              | reply text => Some text
              | function_call _ => Some None
              end
          end in
        match answer with
        | None => (b, AI_FAILED)
        | Some (Some ai_response) =>
            if nonempty ai_response
            then (add_to_memory b user_id (u "assistant") ai_response, ai_response)
            else (b, NO_AI_RESPONSE)
        | Some None => (b, NO_AI_RESPONSE)
        end
    end.

(** The readings of [datetime.now()] during one handler, in the order
    they are taken: for the name of a saved file, by [parse_send_time],
    by [schedule_email_datetime], and by the library for the first run. *)
Record clock := {
  now_file : datetime;
  now_parse : datetime;
  now_schedule : datetime;
  now_do : datetime
}.

Definition NL : str := [10%N].

Definition scheduled_message (subject user_email : str) (send_datetime : datetime)
    (body : str) : str :=
  u "✅ Email zaplanowany pomyślnie!" ++ NL ++ NL
  ++ u "📧 Temat: " ++ subject ++ NL
  ++ u "📧 Odbiorca: " ++ user_email ++ NL
  ++ u "📅 Data wysyłki: " ++ strftime send_datetime ++ NL
  ++ u "📝 Treść: " ++ take 100 body
  ++ (if (100 <? length body)%nat then u "..." else []).

Definition schedule_failed_message (e : exn) : str :=
  u "❌ Błąd podczas planowania emaila: " ++ str_of_exn e.

(** [start_scheduler_background]: one more thread runs [run_scheduler]. *)
Definition start_scheduler_background (b : bot) : bot := with_thread b.

(** [schedule_email_from_ai]: every exception of the body is turned into
    the failure message. [email_data] is the dict made by
    [parse_ai_response]; one without the key ["send_time"] is a
    [KeyError]. An attachment path that is the empty text counts as
    none. *)
Definition schedule_email_from_ai (c : clock) (b : bot) (user_id : Z)
    (email_data : action) (attachment_path : option str) : bot * str :=
  match email_data with
  | schedule_email subject body send_time =>
      match parse_send_time send_time (now_parse c) with
      | Raise e => (b, schedule_failed_message e)
      | Ok send_datetime =>
          let user_email := get_user_email b user_id in
          let m := {| to_email := user_email; subject := subject; body := body;
                      html_body := None;
                      attachments :=
                        match attachment_path with
                        | Some (ch :: path) => Some [ch :: path]
                        | _ => None
                        end |} in
          match schedule_email_datetime (now_schedule c) (now_do c) m send_datetime
                  (email_scheduler b) with
          | (st, Raise e) => (with_scheduler b st, schedule_failed_message e)
          | (st, Ok _) =>
              let b := with_scheduler b st in
              let b := start_scheduler_background b in
              let b := with_planning_state b (delete user_id (email_planning_state b)) in
              (b, scheduled_message subject user_email send_datetime body)
          end
      end
  | _ => (b, schedule_failed_message KeyError)
  end.

Definition attachment_prompt (info : str) : str :=
  u "📎 " ++ info ++ NL ++ NL ++ u "Wyslij zalacznik jako plik.".

(** [handle_text_message]: the replies sent, or the exception that leaves
    the handler. Unpacking a missing result of [parse_ai_response] is a
    [TypeError]. *)
Definition handle_text_message (c : clock) (b : bot) (user_id : Z)
    (message_text : str) : bot * result (list str) :=
  if negb (nonempty (strip message_text)) then (b, Ok [NO_MESSAGE])
  else
    let '(b, ai_response) := analyze_message_with_ai (now_parse c) b user_id message_text in
    match parse_ai_response ai_response with
    | None => (b, Raise TypeError)
    | Some (schedule_email subject body send_time) =>
        let '(b, result_message) :=
          schedule_email_from_ai c b user_id
            (schedule_email subject body send_time) None in
        (b, Ok [result_message])
    | Some (request_attachment info) =>
        (with_planning_state b (<[user_id := info]> (email_planning_state b)),
         Ok [attachment_prompt info])
    | Some (text_response _) => (b, Ok [ai_response])
    end.

Definition NOT_EXPECTED : str :=
  u "❌ Nie oczekuję żadnego załącznika. Najpierw opisz email, który chcesz zaplanować.".
Definition ATTACHMENT_RECEIVED : str :=
  u "✅ Załącznik otrzymany. Teraz opisz szczegóły emaila.".
Definition ATTACHMENT_FAILED : str :=
  u "❌ Błąd podczas przetwarzania załącznika.".

(** [os.path.join("attachments",
    f"attachment_{user_id}_{datetime.now().timestamp()}_{file_name}")] *)
Definition attachment_path_of (user_id : Z) (now : datetime) (file_name : str) : str :=
  u "attachments/" ++ u "attachment_" ++ str_of_int user_id ++ u "_"
  ++ timestamp_str now ++ u "_" ++ file_name.

(** The loop over [reversed(memory["messages"])]: the content of the
    first turn found whose role is ["assistant"]. *)
Fixpoint first_assistant (msgs : list message) : option str :=
  match msgs with
  | [] => None
  | msg :: r =>
      if bool_decide (role msg = u "assistant") then Some (content msg)
      else first_assistant r
  end.

Definition last_assistant_message (msgs : list message) : option str :=
  first_assistant (rev msgs).

(** [handle_document]: [downloaded] tells whether fetching the file and
    writing it to disk went through. Every exception of the [try],
    the [TypeError] of unpacking a missing result of [parse_ai_response]
    among them, ends in the failure reply. *)
Definition handle_document (c : clock) (b : bot) (user_id : Z) (file_name : str)
    (downloaded : bool) : bot * list str :=
  match email_planning_state b !! user_id with
  | None => (b, [NOT_EXPECTED])
  | Some _ =>
      if negb downloaded then (b, [ATTACHMENT_FAILED])
      else
        let attachment_path := attachment_path_of user_id (now_file c) file_name in
        let b := with_file b attachment_path in
        let '(b, mem) := get_user_memory b user_id in
        match last_assistant_message (messages mem) with
        | Some last =>
            if nonempty last && startswith last GOTOWE then
              match parse_ai_response last with
              | Some email_data =>
                  let '(b, result_message) :=
                    schedule_email_from_ai c b user_id email_data
                      (Some attachment_path) in
                  (b, [result_message])
              | None => (b, [ATTACHMENT_FAILED])
              end
            else (b, [ATTACHMENT_RECEIVED])
        | None => (b, [ATTACHMENT_RECEIVED])
        end
  end.

(** ** More of [EmailPlanningBot]: the [/set] command and voice messages *)

Definition with_user_emails (b : bot) (e : gmap Z (list N)) : bot :=
  {| default_recipient := default_recipient b;
     max_conversation_history := max_conversation_history b;
     conversation_memory := conversation_memory b;
     email_planning_state := email_planning_state b;
     user_emails := e;
     email_scheduler := email_scheduler b;
     scheduler_threads := scheduler_threads b;
     saved_files := saved_files b |}.

Definition set_user_email (b : bot) (user_id : Z) (email : str) : bot :=
  with_user_emails b (<[user_id := email]> (user_emails b)).

Definition EMAIL_SET (email : str) : str :=
  u "✅ **Email ustawiony!**" ++ NL ++ NL
  ++ u "Twój domyślny adres email to: `" ++ email ++ u "`" ++ NL ++ NL
  ++ u "Teraz wszystkie zaplanowane emaile będą wysyłane na ten adres! 📧".

Definition EMAIL_INVALID : str :=
  u "❌ **Nieprawidłowy format emaila!**" ++ NL ++ NL
  ++ u "Użyj: `/set twoj@email.com`" ++ NL
  ++ u "Przykład: `/set jan.kowalski@gmail.com`".

Definition EMAIL_CURRENT (current_email : str) : str :=
  u "📧 **Twój aktualny email:** `" ++ current_email ++ u "`" ++ NL ++ NL
  ++ u "**Aby zmienić email, użyj:**" ++ NL
  ++ u "`/set nowy@email.com`" ++ NL ++ NL
  ++ u "**Przykład:**" ++ NL
  ++ u "`/set jan.kowalski@gmail.com`".

(** The check of [set_command]: an [@] in the address, and a dot in what
    stands between the first [@] and the second. *)
Definition looks_like_email (email : str) : bool :=
  contains (u "@") email && contains (u ".") (nth 1 (split_sep email (u "@")) []).

(** [set_command]; [args] are the words after [/set]. *)
Definition set_command (b : bot) (user_id : Z) (args : list str) : bot * list str :=
  match args with
  | arg :: _ =>
      let email := strip arg in
      if looks_like_email email
      then (set_user_email b user_id email, [EMAIL_SET email])
      else (b, [EMAIL_INVALID])
  | [] => (b, [EMAIL_CURRENT (get_user_email b user_id)])
  end.

Definition TRANSCRIPT (transcribed_text : str) : str :=
  u "🎤 Transkrypcja: " ++ transcribed_text.
Definition VOICE_EMPTY : str := u "❌ Nie udalo sie przetworzyc wiadomosci glosowej.".
Definition VOICE_FAILED : str := u "❌ Błąd podczas przetwarzania wiadomości głosowej.".
Definition TRANSCRIPT_FAILED : str := u "❌ Błąd podczas przetwarzania transkrypcji.".

(** [process_transcribed_message]: the body of [handle_text_message]
    without its test for an empty text, inside a [try] that answers every
    exception with a fixed reply. *)
Definition process_transcribed_message (c : clock) (b : bot) (user_id : Z)
    (transcribed_text : str) : bot * list str :=
  let '(b, ai_response) :=
    analyze_message_with_ai (now_parse c) b user_id transcribed_text in
  match parse_ai_response ai_response with
  | None => (b, [TRANSCRIPT_FAILED])
  | Some (schedule_email subject body send_time) =>
      let '(b, result_message) :=
        schedule_email_from_ai c b user_id
          (schedule_email subject body send_time) None in
      (b, [result_message])
  | Some (request_attachment info) =>
      (with_planning_state b (<[user_id := info]> (email_planning_state b)),
       [attachment_prompt info])
  | Some (text_response _) => (b, [ai_response])
  end.

(** [handle_voice_message]: [downloaded] tells whether the recording was
    fetched and stored; [transcribed_text] is what [transcribe_voice]
    returned, the empty text when the transcription failed. *)
Definition handle_voice_message (c : clock) (b : bot) (user_id : Z)
    (downloaded : bool) (transcribed_text : str) : bot * list str :=
  if negb downloaded then (b, [VOICE_FAILED])
  else if nonempty transcribed_text && nonempty (strip transcribed_text) then
    let '(b, replies) := process_transcribed_message c b user_id transcribed_text in
    (b, TRANSCRIPT transcribed_text :: replies)
  else (b, [VOICE_EMPTY]).

(** ** Vocabulary of the statements *)

(** Which grammar the normalised text selects. *)
Definition selects_relative (t : str) : Prop := startswith t (u "za ") = true.

Definition selects_absolute (t : str) : Prop :=
  startswith t (u "za ") = false
  /\ contains (u ".") t && contains (u ":") t = true.

Definition selects_clock_time (t : str) : Prop :=
  startswith t (u "za ") = false
  /\ contains (u ".") t && contains (u ":") t = false
  /\ (length t =? 5)%nat && contains (u ":") t = true.

Definition selects_none (t : str) : Prop :=
  startswith t (u "za ") = false
  /\ contains (u ".") t && contains (u ":") t = false
  /\ (length t =? 5)%nat && contains (u ":") t = false.

(** The amount of a relative expression: the second word, read by [int]. *)
Definition amount_of (t : str) : result Z :=
  p1 ← getitem (split t) 1; int p1.

(** The parse errors inside a grammar: the text selects the grammar and
    its fields are not what the grammar reads. *)
Inductive malformed (t : str) : Prop :=
| relative_too_short :
    selects_relative t -> (length (split t) < 3)%nat -> malformed t
| relative_bad_amount :
    selects_relative t -> (3 <= length (split t))%nat ->
    amount_of t = Raise ValueError -> malformed t
| relative_unknown_unit (unit : str) :
    selects_relative t -> getitem (split t) 2 = Ok unit ->
    contains (u "minut") unit = false -> contains (u "godzin") unit = false ->
    contains (u "dni") unit = false -> malformed t
| absolute_bad_shape :
    selects_absolute t -> length (split t) <> 2%nat -> malformed t
| absolute_bad_date (date_part time_part : str) :
    selects_absolute t -> split t = [date_part; time_part] ->
    unpack_ints 3 (split_sep date_part (u ".")) = Raise ValueError -> malformed t
| absolute_bad_time (date_part time_part : str) :
    selects_absolute t -> split t = [date_part; time_part] ->
    unpack_ints 2 (split_sep time_part (u ":")) = Raise ValueError -> malformed t
| absolute_no_such_instant (date_part time_part : str) (day month year hour minute : Z) :
    selects_absolute t -> split t = [date_part; time_part] ->
    unpack_ints 3 (split_sep date_part (u ".")) = Ok [day; month; year] ->
    unpack_ints 2 (split_sep time_part (u ":")) = Ok [hour; minute] ->
    datetime_new year month day hour minute = Raise ValueError -> malformed t
| clock_time_bad_fields :
    selects_clock_time t ->
    unpack_ints 2 (split_sep t (u ":")) = Raise ValueError -> malformed t
| clock_time_no_such_time (hour minute : Z) :
    selects_clock_time t ->
    unpack_ints 2 (split_sep t (u ":")) = Ok [hour; minute] ->
    replace_hm 0 hour minute = Raise ValueError -> malformed t.

Definition falls_back (r : result (option datetime)) : Prop :=
  r = Ok None \/ r = Raise ValueError.

Definition digits_value (acc : Z) (ds : str) : Z :=
  fold_left (fun a c => 10 * a + (Z.of_N c - 48)) ds acc.

(** A word of lower-case ASCII text without blanks. *)
Definition plain (c : char) : bool :=
  is_ascii c && negb (isspace c) && (ascii_lower c =? c)%N.

(** The unit a word of a relative expression stands for. *)
Definition unit_of (w : str) : option Z :=
  if contains (u "minut") w then Some US_PER_MINUTE
  else if contains (u "godzin") w then Some US_PER_HOUR
  else if contains (u "dni") w then Some US_PER_DAY
  else None.

Definition relative_expression (n : Z) (w : str) : str :=
  u "za " ++ decimal n ++ u " " ++ w.

(** The instant an absolute expression writes: its two words, read as
    day.month.year and hour:minute, given to [datetime]. *)
Definition written_instant (t : str) (r : datetime) : Prop :=
  exists date_part time_part day month year hour minute,
    split t = [date_part; time_part]
    /\ unpack_ints 3 (split_sep date_part (u ".")) = Ok [day; month; year]
    /\ unpack_ints 2 (split_sep time_part (u ":")) = Ok [hour; minute]
    /\ datetime_new year month day hour minute = Ok r.

(** The offset a relative expression writes: the amount, and the length
    of the unit its third word stands for. *)
Definition written_offset (t : str) (amount unit_us : Z) : Prop :=
  amount_of t = Ok amount
  /\ exists w, getitem (split t) 2 = Ok w /\ unit_of w = Some unit_us.

Definition history (b : bot) (user_id : Z) : list message :=
  messages (snd (get_user_memory b user_id)).

Definition cap (b : bot) : Z := default 10 (max_conversation_history b).

End Runtime.

(** Surroundings for closed examples over ASCII text, which do not reach
    the fields that stand for tables: the time zone is UTC, instants are
    whole seconds, the mail server answers [accepts] and the completion
    service answers by [script]. *)
Definition example_runtime (accepts : bool) (script : list message -> completion)
  : PyRuntime := {|
  unicode_lower := fun s => s;
  unicode_decimal := fun _ => None;
  int_max_str_digits := 4300;
  timestamp_str := fun t => str_of_int ((t - 62135596800000000) / 1000000) ++ u ".0";
  strftime := fun _ => [];
  str_of_exn := fun _ => [];
  daily_next_run := fun hh mm now => now + 86400000000;
  smtp_accepts := fun _ _ => accepts;
  chat_completion := fun context _ => script context
|}.

Definition ascii_runtime : PyRuntime := example_runtime true (fun _ => reply None).

Definition refusing_runtime : PyRuntime := example_runtime false (fun _ => reply None).

(** [EmailPlanningBot(...)] with a configuration holding the two keys. *)
Definition new_bot (recipient : str) (max_history : Z) : bot := {|
  default_recipient := Some recipient;
  max_conversation_history := Some max_history;
  conversation_memory := ∅;
  email_planning_state := ∅;
  user_emails := ∅;
  email_scheduler := {| jobs := []; next_job_id := 0; deliveries := [] |};
  scheduler_threads := 0;
  saved_files := []
|}.

(** * The launcher and the configuration

    ** The process environment ([os.environ], [os.getenv])

    CPython on a POSIX system with UTF-8 as file system encoding. An
    assignment encodes the name and the value ([surrogateescape]: a lone
    surrogate outside U+DC80..U+DCFF is a [UnicodeEncodeError], which is a
    [ValueError]), refuses a null character ([ValueError]) and calls
    [setenv], which fails for an empty name ([OSError]). *)

Abbreviation environ := (gmap (list N) (list N)) (only parsing).

Inductive outcome (A : Type) :=
| Done (a : A)
| Raised (e : exn)
| RaisedOSError.
Arguments Done {A} a.
Arguments Raised {A} e.
Arguments RaisedOSError {A}.

Definition surrogate (c : N) : bool := ((55296 <=? c) && (c <=? 57343))%N.

Definition fsencodable (s : str) : bool :=
  forallb (fun c => negb (surrogate c) || ((56448 <=? c) && (c <=? 56575))%N) s.

Definition has_null (s : str) : bool := existsb (fun c => (c =? 0)%N) s.

(** [os.environ[key] = value] *)
Definition setenv (env : environ) (key value : str) : outcome environ :=
  if negb (fsencodable key && fsencodable value) then Raised ValueError
  else if has_null key || has_null value then Raised ValueError
  else if contains (u "=") key then Raised ValueError
  else if negb (nonempty key) then RaisedOSError
  else Done (<[key := value]> env).

(** [os.getenv(name)] in a condition: set and not empty. *)
Definition getenv_true (env : environ) (name : str) : option str :=
  match env !! name with
  | Some (c :: v) => Some (c :: v)
  | _ => None
  end.

(** [s.split(sep, maxsplit)] for a non-empty separator and
    [maxsplit >= 0]: after [maxsplit] cuts the rest is one field. *)
Fixpoint split_max_from (sep : str) (maxsplit skip : nat) (cur : str) (s : str)
  : list str :=
  match s with
  | [] => [rev cur]
  | c :: r =>
      match skip with
      | S k => split_max_from sep maxsplit k cur r
      | O =>
          match maxsplit with
          | O => [rev cur ++ s]
          | S n =>
              if startswith s sep
              then rev cur :: split_max_from sep n (length sep - 1) [] r
              else split_max_from sep maxsplit 0 (c :: cur) r
          end
      end
  end.

Definition split_max (s sep : str) (maxsplit : nat) : list str :=
  split_max_from sep maxsplit 0 [] s.

(** ** [run_bot_env.py] *)

(** The body of the loop of [load_env_file] for one line of the file. *)
Definition load_env_line (env : environ) (line : str) : outcome environ :=
  let line := strip line in
  if nonempty line && negb (startswith line (u "#")) && contains (u "=") line then
    match split_max line (u "=") 1 with
    | [key; value] => setenv env key value
    | _ => Raised ValueError
    end
  else Done env.

Fixpoint load_env_lines (env : environ) (lines : list str) : outcome environ :=
  match lines with
  | [] => Done env
  | line :: r =>
      match load_env_line env line with
      | Done env => load_env_lines env r
      | Raised e => Raised e
      | RaisedOSError => RaisedOSError
      end
  end.

Definition ENV_LOADED : str := u "✅ Załadowano zmienne środowiskowe z .env".
Definition ENV_MISSING : str :=
  u "⚠️ Plik .env nie istnieje. Używam zmiennych systemowych.".

(** [load_env_file]; [env_file] holds the lines of [.env] as the file
    object yields them, when the file exists. The result is the
    environment and what was printed. *)
Definition load_env_file (env : environ) (env_file : option (list str))
  : outcome (environ * list str) :=
  match env_file with
  | Some lines =>
      match load_env_lines env lines with
      | Done env => Done (env, [ENV_LOADED])
      | Raised e => Raised e
      | RaisedOSError => RaisedOSError
      end
  | None => Done (env, [ENV_MISSING])
  end.

Definition required_vars : list str :=
  [u "TELEGRAM_TOKEN"; u "OPENAI_API_KEY"; u "DEFAULT_RECIPIENT"].

Definition missing_vars (env : environ) : list str :=
  filter (fun var => getenv_true env var = None) required_vars.

(** [", ".join(xs)] *)
Fixpoint join (sep : str) (xs : list str) : str :=
  match xs with
  | [] => []
  | [x] => x
  | x :: r => x ++ sep ++ join sep r
  end.

Definition STARTING : str := u "🚀 Uruchamianie Telegram Bota...".
Definition MISSING_VARS (missing : list str) : str :=
  u "❌ Brakuje wymaganych zmiennych środowiskowych: " ++ join (u ", ") missing.
Definition CREATE_ENV : str :=
  u "📝 Utwórz plik .env z wymaganymi zmiennymi lub ustaw je w systemie.".

(** How [main] of [run_bot_env.py] goes on after its checks. *)
Inductive launch :=
| exits (status : Z) (printed : list str)
| constructs_bot (env : environ) (printed : list str).

(** [main] of [run_bot_env.py], up to the construction of the bot. *)
Definition run_bot_env_main (env : environ) (env_file : option (list str))
  : outcome launch :=
  match load_env_file env env_file with
  | Done (env, printed) =>
      let printed := STARTING :: printed in
      match missing_vars env with
      | [] => Done (constructs_bot env printed)
      | missing => Done (exits 1 (printed ++ [MISSING_VARS missing; CREATE_ENV]))
      end
  | Raised e => Raised e
  | RaisedOSError => RaisedOSError
  end.

(** ** The configuration of the bot

    A configuration is what [json.load] returns, changed by item
    assignment. A float is a value of the platform; [float] is the
    constructor on texts, [None] for its [ValueError]. *)

Class PyFloat := {
  float_value : Type;
  float : list N -> option float_value;
  float_nonzero : float_value -> bool
}.

#[warnings="-register-all"]
Inductive json `{PyFloat} :=
| JNull
| JBool (b : bool)
| JInt (n : Z)
| JFloat (x : float_value)
| JStr (s : list N)
| JList (items : list json)
| JDict (items : list (list N * json)).

Section Configuration.
Context `{PyRuntime} `{PyFloat}.

(** [d.get(key)] on the items of a dict, in insertion order. *)
Fixpoint dict_get (d : list (str * json)) (key : str) : option json :=
  match d with
  | [] => None
  | (k, v) :: r => if bool_decide (k = key) then Some v else dict_get r key
  end.

(** [d[key] = value]: a key that is there keeps its place. *)
Fixpoint dict_set (d : list (str * json)) (key : str) (value : json)
  : list (str * json) :=
  match d with
  | [] => [(key, value)]
  | (k, v) :: r =>
      if bool_decide (k = key) then (k, value) :: r
      else (k, v) :: dict_set r key value
  end.

(** [config[key] = value]; on anything but a dict with a text as key it
    is a [TypeError]. *)
Definition setitem (config : json) (key : str) (value : json) : result json :=
  match config with
  | JDict d => Ok (JDict (dict_set d key value))
  | _ => Raise TypeError
  end.

(** [if os.getenv(NAME): config[key] = os.getenv(NAME)] *)
Definition env_text (env : environ) (name key : str) (config : json) : result json :=
  match getenv_true env name with
  | Some value => setitem config key (JStr value)
  | None => Ok config
  end.

(** [if os.getenv(NAME): try: config[key] = int(os.getenv(NAME))
    except ValueError: pass] *)
Definition env_int (env : environ) (name key : str) (config : json) : result json :=
  match getenv_true env name with
  | Some value =>
      match int value with
      | Ok n => setitem config key (JInt n)
      | Raise ValueError => Ok config
      | Raise e => Raise e
      end
  | None => Ok config
  end.

Definition env_float (env : environ) (name key : str) (config : json) : result json :=
  match getenv_true env name with
  | Some value =>
      match float value with
      | Some x => setitem config key (JFloat x)
      | None => Ok config
      end
  | None => Ok config
  end.

(** [EmailPlanningBot.load_from_env] *)
Definition load_from_env (env : environ) (config : json) : result json :=
  config ← env_text env (u "TELEGRAM_TOKEN") (u "telegram_token") config;
  config ← env_text env (u "OPENAI_API_KEY") (u "openai_api_key") config;
  config ← env_text env (u "DEFAULT_RECIPIENT") (u "default_recipient") config;
  config ← env_text env (u "OPENAI_MODEL") (u "openai_model") config;
  config ← env_int env (u "MAX_TOKENS") (u "max_tokens") config;
  config ← env_float env (u "TEMPERATURE") (u "temperature") config;
  config ← env_int env (u "MAX_CONVERSATION_HISTORY") (u "max_conversation_history")
             config;
  Ok config.

(** [obj.encode('utf-8').decode('utf-8')]: the text itself, or a
    [UnicodeEncodeError] for a text with a surrogate. *)
Definition utf8_round_trip (s : str) : result str :=
  if existsb surrogate s then Raise ValueError else Ok s.

(** [convert_to_utf8] of [ensure_utf8_config]: texts, the values of
    dicts and the items of lists, recursively; keys are not looked at. *)
Fixpoint convert_to_utf8 (obj : json) : result json :=
  match obj with
  | JStr s => s ← utf8_round_trip s; Ok (JStr s)
  | JDict d =>
      d ← (fix values (d : list (str * json)) : result (list (str * json)) :=
             match d with
             | [] => Ok []
             | (k, v) :: r =>
                 v ← convert_to_utf8 v; r ← values r; Ok ((k, v) :: r)
             end) d;
      Ok (JDict d)
  | JList l =>
      l ← (fix items (l : list json) : result (list json) :=
             match l with
             | [] => Ok []
             | v :: r => v ← convert_to_utf8 v; r ← items r; Ok (v :: r)
             end) l;
      Ok (JList l)
  | _ => Ok obj
  end.

Definition ensure_utf8_config (config : json) : result json := convert_to_utf8 config.

Definition get_default_config : json :=
  JDict [(u "telegram_token", JStr []);
         (u "openai_api_key", JStr []);
         (u "default_recipient", JStr (u "borysm32@gmail.com"));
         (u "bot_instructions",
          JStr (u "Jestes pomocnym botem do planowania wysylki emaili. Analizuj wiadomosci uzytkownikow i pomagaj im zaplanowac emaile."));
         (u "max_conversation_history", JInt 10)].

(** The configuration file: absent, not loadable (unreadable, or not
    JSON in UTF-8), or loaded. *)
Inductive config_file :=
| no_file
| not_loadable
| loaded (config : json).

(** [EmailPlanningBot.load_config]: every exception of the [try] ends
    in the default configuration. *)
Definition load_config (env : environ) (file : config_file) : json :=
  let attempt :=
    config ← match file with
             | no_file => Ok (JDict [])
             | not_loadable => Raise ValueError
             | loaded config => Ok config
             end;
    config ← load_from_env env config;
    ensure_utf8_config config in
  match attempt with
  | Ok config => config
  | Raise _ => get_default_config
  end.

(** The truth value of a configuration value. *)
Definition truth (v : json) : bool :=
  match v with
  | JNull => false
  | JBool b => b
  | JInt n => negb (n =? 0)
  | JFloat x => float_nonzero x
  | JStr s => nonempty s
  | JList l => match l with [] => false | _ => true end
  | JDict d => match d with [] => false | _ => true end
  end.

(** [run_bot], up to the construction of the application: whether the
    token is there; on a configuration that is no dict, [get] is an
    [AttributeError]. *)
Definition has_token (config : json) : option bool :=
  match config with
  | JDict d =>
      Some match dict_get d (u "telegram_token") with
           | Some v => truth v
           | None => false
           end
  | _ => None
  end.

(** The settings the handlers read from [self.config], where the
    configuration is a dict and holds for them a text and an integer. *)
Definition bot_settings (config : json) : option (option str * option Z) :=
  match config with
  | JDict d =>
      match dict_get d (u "default_recipient"),
            dict_get d (u "max_conversation_history") with
      | Some (JStr s), Some (JInt n) => Some (Some s, Some n)
      | Some (JStr s), None => Some (Some s, None)
      | None, Some (JInt n) => Some (None, Some n)
      | None, None => Some (None, None)
      | _, _ => None
      end
  | _ => None
  end.

(** [EmailPlanningBot(...)]: the bot right after its construction. *)
Definition init_bot (config : json) : option bot :=
  match bot_settings config with
  | Some (recipient, max_history) =>
      Some {| default_recipient := recipient;
              max_conversation_history := max_history;
              conversation_memory := ∅;
              email_planning_state := ∅;
              user_emails := ∅;
              email_scheduler := {| jobs := []; next_job_id := 0; deliveries := [] |};
              scheduler_threads := 0;
              saved_files := [] |}
  | None => None
  end.

End Configuration.

(** ** Vocabulary of further statements *)

(** The pipes of a text. *)
Definition pipes (s : str) : nat :=
  length (filter (fun c => (c =? 124)%N = true) s).

(** White space only. *)
Definition blank (s : str) : Prop := forallb isspace s = true.

(** No white space at either end. *)
Definition trimmed (s : str) : Prop := strip s = s.

(** Two decimal digits, as [%d] and [%H] write a number below 100. *)
Definition pad2 (n : Z) : str := if n <? 10 then 48%N :: decimal n else decimal n.

(** ["HH:MM"] *)
Definition written_clock (hour minute : Z) : str :=
  pad2 hour ++ u ":" ++ pad2 minute.

(** ["DD.MM.YYYY HH:MM"], the format the bot asks the service to use *)
Definition written_absolute (day month year hour minute : Z) : str :=
  pad2 day ++ u "." ++ pad2 month ++ u "." ++ decimal year ++ u " "
  ++ written_clock hour minute.

(** Today at [hour:minute], or tomorrow when that is not after [now]. *)
Definition next_occurrence (now hour minute : Z) : Z :=
  let target := now / US_PER_DAY * US_PER_DAY + hour * US_PER_HOUR
                + minute * US_PER_MINUTE in
  if target <=? now then target + US_PER_DAY else target.

(** A store that holds recurring daily jobs only. *)
Definition recurring_daily (j : job) : Prop :=
  (exists m, func j = call_send_scheduled_email m)
  /\ (exists hh mm, period j = every_day_at hh mm).

(** No job of the store is due at any of the ticks. *)
Definition idle_at (ticks : list Z) (st : scheduler) : Prop :=
  forall j t, j ∈ jobs st -> t ∈ ticks -> t < next_run j.

(** What the bot holds about one user, with the two settings every user
    shares. *)
Definition user_view (b : bot) (user_id : Z)
  : option memory * option (list N) * option (list N) * option (list N) * option Z :=
  (conversation_memory b !! user_id, email_planning_state b !! user_id,
   user_emails b !! user_id, default_recipient b, max_conversation_history b).

(** The mail a job sends. *)
Definition mail_of (j : job) : email :=
  match func j with
  | call_send_scheduled_email m => m
  | call_send_scheduled_email_once m => m
  end.

(** A completion service that is down. *)
Definition failing_runtime : PyRuntime := example_runtime true (fun _ => api_error).

Section ConfigurationVocabulary.
Context `{PyRuntime} `{PyFloat}.

(** Some text of the configuration, keys apart, holds a surrogate. *)
Fixpoint has_surrogate (obj : json) : bool :=
  match obj with
  | JStr s => existsb surrogate s
  | JDict d =>
      (fix values (d : list (list N * json)) : bool :=
         match d with
         | [] => false
         | (_, v) :: r => has_surrogate v || values r
         end) d
  | JList l =>
      (fix items (l : list json) : bool :=
         match l with
         | [] => false
         | v :: r => has_surrogate v || items r
         end) l
  | _ => false
  end.

(** What the environment says about a key of the configuration. *)
Definition env_setting (env : gmap (list N) (list N)) (key : list N) : option json :=
  if bool_decide (key = u "max_conversation_history") then
    v ← getenv_true env (u "MAX_CONVERSATION_HISTORY");
    match int v with Ok n => Some (JInt n) | Raise _ => None end
  else if bool_decide (key = u "temperature") then
    v ← getenv_true env (u "TEMPERATURE"); JFloat <$> float v
  else if bool_decide (key = u "max_tokens") then
    v ← getenv_true env (u "MAX_TOKENS");
    match int v with Ok n => Some (JInt n) | Raise _ => None end
  else if bool_decide (key = u "openai_model") then
    JStr <$> getenv_true env (u "OPENAI_MODEL")
  else if bool_decide (key = u "default_recipient") then
    JStr <$> getenv_true env (u "DEFAULT_RECIPIENT")
  else if bool_decide (key = u "openai_api_key") then
    JStr <$> getenv_true env (u "OPENAI_API_KEY")
  else if bool_decide (key = u "telegram_token") then
    JStr <$> getenv_true env (u "TELEGRAM_TOKEN")
  else None.

End ConfigurationVocabulary.

(** No value of the environment holds a surrogate. *)
Definition clean_env (env : gmap (list N) (list N)) : Prop :=
  forall name value, env !! name = Some value -> existsb surrogate value = false.

(** A line of [.env] that assigns: margins of white space around
    [key=value]. *)
Definition assignment_line (a key value b : list N) : list N :=
  a ++ key ++ u "=" ++ value ++ b.

(** A text [os.environ] takes as a name or as a value. *)
Definition storable (s : list N) : Prop := fsencodable s = true /\ has_null s = false.

(** ** Data of the examples *)

Definition at_2024_01_01_10_00 : Z := 63839700000000000.

Definition example_mail : email := {|
  to_email := u "a@b.c";
  subject := u "Hello";
  body := u "Body text";
  html_body := None;
  attachments := None
|}.

Definition empty_store : scheduler :=
  {| jobs := []; next_job_id := 0; deliveries := [] |}.

Definition example_store : scheduler :=
  fst (@schedule_email_datetime ascii_runtime
         at_2024_01_01_10_00 at_2024_01_01_10_00 example_mail
         (at_2024_01_01_10_00 + 5 * US_PER_MINUTE) empty_store).

Definition example_job : job := {|
  job_id := 0;
  period := every_seconds (5 * US_PER_MINUTE);
  func := call_send_scheduled_email_once example_mail;
  next_run := at_2024_01_01_10_00 + 5 * US_PER_MINUTE;
  last_run := None;
  tags := [u "once_a@b.c_1704103500.0"]
|}.

(** A recurring job, due since 09:00. *)
Definition daily_job : job := {|
  job_id := 0;
  period := every_day_at 9 0;
  func := call_send_scheduled_email example_mail;
  next_run := at_2024_01_01_10_00 - US_PER_HOUR;
  last_run := None;
  tags := []
|}.

Definition example_clock : clock := {|
  now_file := at_2024_01_01_10_00;
  now_parse := at_2024_01_01_10_00;
  now_schedule := at_2024_01_01_10_00;
  now_do := at_2024_01_01_10_00
|}.

Definition turn (role content : str) : message :=
  {| role := role; content := content; name := None |}.

Definition READY_TURN : str := u "GOTOWE: Raport|W zalaczeniu raport|za 5 minut".

(** A completion service that answers the first request with the plan
    and any other with a request for the file. *)
Definition example_script (context : list message) : completion :=
  match last context with
  | Some m =>
      if bool_decide (content m = u "wyslij raport za 5 minut")
      then reply (Some READY_TURN)
      else reply (Some (u "ZAŁĄCZNIK: Wyslij plik raportu"))
  | None => reply None
  end.

Definition scripted_runtime : PyRuntime := example_runtime true example_script.


(** The plan is the most recent assistant turn. *)
Definition plan_is_last : list message :=
  [turn (u "user") (u "wyslij raport z plikiem");
   turn (u "assistant") (u "ZAŁĄCZNIK: Wyslij plik raportu");
   turn (u "user") (u "za 5 minut");
   turn (u "assistant") READY_TURN].

Definition waiting_bot (msgs : list message) : bot := {|
  default_recipient := Some (u "a@b.c");
  max_conversation_history := Some 10;
  conversation_memory := {[ 7 := {| messages := msgs |} ]};
  email_planning_state := {[ 7 := u "Wyslij plik raportu" ]};
  user_emails := ∅;
  email_scheduler := empty_store;
  scheduler_threads := 0;
  saved_files := []
|}.

Definition example_path : str :=
  u "attachments/attachment_7_1704103200.0_raport.pdf".

(** A platform without float literals, for examples that read none. *)
Definition example_floats : PyFloat :=
  {| float_value := unit; float := fun _ => None; float_nonzero := fun _ => false |}.

Definition example_env_lines : list (list N) :=
  [u "# ustawienia bota" ++ NL;
   u "TELEGRAM_TOKEN=123:abc" ++ NL;
   u "OPENAI_API_KEY=sk-1" ++ NL;
   NL;
   u "DEFAULT_RECIPIENT=jan@x.pl" ++ NL;
   u "MAX_CONVERSATION_HISTORY=0" ++ NL].

Definition example_env : gmap (list N) (list N) :=
  <[u "MAX_CONVERSATION_HISTORY" := u "0"]>
    (<[u "DEFAULT_RECIPIENT" := u "jan@x.pl"]>
       (<[u "OPENAI_API_KEY" := u "sk-1"]>
          (<[u "TELEGRAM_TOKEN" := u "123:abc"]> ∅))).







(** * Properties *)

(** ** The protocol parser *)

Example parse_ready_three_fields :
  parse_ai_response (u "GOTOWE: Hello|Body text|za 30 minut")
  = Some (schedule_email (u "Hello") (u "Body text") (u "za 30 minut")).
Proof. vm_compute. reflexivity. Qed.

Example parse_ready_two_fields :
  parse_ai_response (u "GOTOWE: only|two") = None.
Proof. vm_compute. reflexivity. Qed.

Example parse_attachment_request :
  parse_ai_response (u "ZAŁĄCZNIK: wyslij plik")
  = Some (request_attachment (u "wyslij plik")).
Proof. vm_compute. reflexivity. Qed.

Example parse_plain_text :
  parse_ai_response (u "  Czesc!  ") = Some (text_response (u "Czesc!")).
Proof. vm_compute. reflexivity. Qed.

(** With fewer than three fields behind the marker no [return] is
    reached; the handler that unpacks the result fails. *)
Example two_fields_break_the_handler :
  snd (@handle_text_message
         (example_runtime true (fun _ => reply (Some (u "GOTOWE: only|two"))))
         example_clock (new_bot (u "a@b.c") 10) 7 (u "wyslij raport"))
  = Raise TypeError.
Proof. vm_compute. reflexivity. Qed.

(** C1, as the code has it: a response that begins with the ready marker
    and whose remainder splits into at least three pipe-delimited fields
    yields [schedule_email] with the first three fields, trimmed, further
    fields being ignored; [schedule_email] is the result only for such a
    response; a response that begins with neither marker yields
    [text_response] with the trimmed response. *)
Theorem parse_ai_response_ready_at_least_three (response : str) :
  let r := strip response in
  let parts := split_sep (strip (replace r GOTOWE [])) (u "|") in
  (startswith r GOTOWE = true -> (3 <= length parts)%nat ->
   parse_ai_response response
   = Some (schedule_email (strip (nth 0 parts [])) (strip (nth 1 parts []))
             (strip (nth 2 parts []))))
  /\ (forall s b t, parse_ai_response response = Some (schedule_email s b t) ->
      startswith r GOTOWE = true /\ (3 <= length parts)%nat)
  /\ (startswith r GOTOWE = false -> startswith r ZALACZNIK = false ->
      parse_ai_response response = Some (text_response r)).
Proof.
  intros r parts. unfold parse_ai_response. fold r. fold parts.
  repeat split.
  - intros Hm Hn. rewrite Hm.
    destruct (3 <=? length parts)%nat eqn:E; [reflexivity|].
    apply Nat.leb_gt in E. lia.
  - destruct (startswith r GOTOWE); [reflexivity|].
    destruct (startswith r ZALACZNIK); discriminate.
  - destruct (startswith r GOTOWE) eqn:Hm.
    + destruct (3 <=? length parts)%nat eqn:E; [|discriminate].
      apply Nat.leb_le in E. exact E.
    + destruct (startswith r ZALACZNIK); discriminate.
  - intros Hm Ha. rewrite Hm, Ha. reflexivity.
Qed.

Lemma parse_ai_response_four_fields_witness :
  parse_ai_response (u "GOTOWE: a|b|c|d")
  = Some (schedule_email (u "a") (u "b") (u "c")).
Proof.
  refine (proj1 (parse_ai_response_ready_at_least_three (u "GOTOWE: a|b|c|d")) _ _).
  - vm_compute. reflexivity.
  - vm_compute. lia.
Defined.

(** C1, as stated, fails: a ready-marker response with four fields is
    not passed through as text but scheduled from its first three
    fields. *)
Lemma parse_ai_response_four_fields_scheduled :
  startswith (strip (u "GOTOWE: a|b|c|d")) GOTOWE = true
  /\ length (split_sep (strip (replace (strip (u "GOTOWE: a|b|c|d")) GOTOWE []))
               (u "|")) = 4%nat
  /\ parse_ai_response (u "GOTOWE: a|b|c|d")
     = Some (schedule_email (u "a") (u "b") (u "c"))
  /\ parse_ai_response (u "GOTOWE: a|b|c|d")
     <> Some (text_response (u "GOTOWE: a|b|c|d")).
Proof. vm_compute. repeat split; discriminate. Qed.

(** ** The time-expression parser *)

Section TimeExpressions.
Context `{PyRuntime}.

(** Takes the next call whose exception would end the computation and
    splits on its outcome. *)
Ltac step_bind :=
  match goal with
  | |- context [mbind _ ?r] =>
      let E := fresh "E" in
      destruct r eqn:E; unfold mbind at 1, result_bind at 1; cbv beta iota
  end.

Lemma int_raises (s : str) (e : exn) : int s = Raise e -> e = ValueError.
Proof.
  unfold int.
  destruct (rev (c_lstrip (rev (c_lstrip (map to_ascii s))))) as [|c r];
    [|destruct c as [|p]]; cbv zeta beta iota.
  all: repeat match goal with
         | |- context [match ?x with _ => _ end] => destruct x
         end; congruence.
Qed.

Lemma ints_raises (xs : list str) (e : exn) : ints xs = Raise e -> e = ValueError.
Proof.
  induction xs as [|x r IH]; simpl; [discriminate|].
  step_bind; [|intros [= <-]; eapply int_raises; eassumption].
  step_bind; [discriminate|]. intros [= <-]. apply IH. reflexivity.
Qed.

Lemma unpack_ints_raises (k : nat) (xs : list str) (e : exn) :
  unpack_ints k xs = Raise e -> e = ValueError.
Proof.
  unfold unpack_ints. step_bind.
  - destruct (length a =? k)%nat; congruence.
  - intros [= <-]. eapply ints_raises; eassumption.
Qed.

Lemma unpack_ints_length (k : nat) (xs : list str) (vs : list Z) :
  unpack_ints k xs = Ok vs -> length vs = k.
Proof.
  unfold unpack_ints. step_bind; [|discriminate].
  destruct (length a =? k)%nat eqn:L; [|discriminate].
  intros [= <-]. apply Nat.eqb_eq. exact L.
Qed.

Lemma timedelta_of_inv (unit_us n : Z) :
  match timedelta_of unit_us n with
  | Ok d => d = n * unit_us
  | Raise e => e = OverflowError
  end.
Proof. unfold timedelta_of. destruct (_ && _); reflexivity. Qed.

Lemma datetime_add_inv (t d : Z) :
  match datetime_add t d with
  | Ok r => r = t + d /\ valid_datetime r
  | Raise e => e = OverflowError
  end.
Proof.
  unfold datetime_add, valid_datetime.
  destruct (_ && _) eqn:E; [|reflexivity].
  apply andb_true_iff in E. lia.
Qed.

Lemma datetime_new_raises (y m d hh mm : Z) (e : exn) :
  datetime_new y m d hh mm = Raise e -> e = OverflowError \/ e = ValueError.
Proof.
  unfold datetime_new.
  repeat match goal with
         | |- context [if ?x then _ else _] => destruct x
         end; intros [= <-]; auto.
Qed.

Lemma replace_hm_inv (t hh mm : Z) :
  match replace_hm t hh mm with
  | Ok r => r = t / US_PER_DAY * US_PER_DAY + hh * US_PER_HOUR + mm * US_PER_MINUTE
            /\ 0 <= hh <= 23 /\ 0 <= mm <= 59
  | Raise e => e = OverflowError \/ e = ValueError
  end.
Proof.
  unfold replace_hm.
  destruct (negb (forallb c_int [hh; mm])); [auto|].
  destruct ((0 <=? hh) && (hh <=? 23)) eqn:E1; simpl; [|auto].
  destruct ((0 <=? mm) && (mm <=? 59)) eqn:E2; simpl; [|auto].
  apply andb_true_iff in E1, E2. lia.
Qed.

Lemma relative_step (unit_us amount now : Z) :
  0 < unit_us ->
  match (d ← timedelta_of unit_us amount; t ← datetime_add now d; Ok (Some t)) with
  | Ok (Some r) => r = now + amount * unit_us /\ valid_datetime r
  | Ok None => False
  | Raise e => e = OverflowError
  end.
Proof.
  intros Hu. pose proof (timedelta_of_inv unit_us amount) as Hd.
  step_bind; [|exact Hd]. subst a.
  pose proof (datetime_add_inv now (amount * unit_us)) as Ha.
  step_bind; [exact Ha | exact Ha].
Qed.

Lemma relative_branch (t : str) (now : datetime) :
  startswith t (u "za ") = true ->
  match parse_send_time_try t now with
  | Ok (Some r) =>
      exists a, amount_of t = Ok a /\ valid_datetime r
        /\ (r = now + a * US_PER_MINUTE \/ r = now + a * US_PER_HOUR
            \/ r = now + a * US_PER_DAY)
  | Ok None => True
  | Raise e => e = ValueError \/ e = IndexError \/ e = OverflowError
  end.
Proof.
  intros Hs. unfold parse_send_time_try, amount_of. rewrite Hs.
  destruct (3 <=? length (split t))%nat; [|exact I].
  step_bind.
  2:{ unfold getitem in E. destruct (nth_error (split t) 1); inversion E. auto. }
  step_bind; [|left; eapply int_raises; eassumption].
  step_bind.
  2:{ unfold getitem in E1. destruct (nth_error (split t) 2); inversion E1. auto. }
  assert (Hm : 0 < US_PER_MINUTE) by reflexivity.
  assert (Hh : 0 < US_PER_HOUR) by reflexivity.
  assert (Hd : 0 < US_PER_DAY) by reflexivity.
  destruct (contains (u "minut") a1).
  { pose proof (relative_step _ a0 now Hm) as P.
    destruct (_ ← timedelta_of US_PER_MINUTE a0; _) as [[r|]|e]; [|tauto|auto].
    exists a0. unfold mbind, result_bind. rewrite E0. tauto. }
  destruct (contains (u "godzin") a1).
  { pose proof (relative_step _ a0 now Hh) as P.
    destruct (_ ← timedelta_of US_PER_HOUR a0; _) as [[r|]|e]; [|tauto|auto].
    exists a0. unfold mbind, result_bind. rewrite E0. tauto. }
  destruct (contains (u "dni") a1); [|exact I].
  pose proof (relative_step _ a0 now Hd) as P.
  destruct (_ ← timedelta_of US_PER_DAY a0; _) as [[r|]|e]; [|tauto|auto].
  exists a0. unfold mbind, result_bind. rewrite E0. tauto.
Qed.

Lemma absolute_branch (t : str) (now : datetime) :
  selects_absolute t ->
  match parse_send_time_try t now with
  | Ok (Some r) => True
  | Ok None => False
  | Raise e => e = ValueError \/ e = OverflowError
  end.
Proof.
  intros [Hs Hc]. unfold parse_send_time_try. rewrite Hs, Hc.
  destruct (split t) as [|date_part [|time_part [|x l]]]; auto.
  step_bind; [|left; eapply unpack_ints_raises; eassumption].
  step_bind; [|left; eapply unpack_ints_raises; eassumption].
  destruct a as [|day [|month [|year [|]]]]; auto.
  destruct a0 as [|hour [|minute [|]]]; auto.
  step_bind; [exact I|].
  apply datetime_new_raises in E1. tauto.
Qed.

Lemma clock_time_branch (t : str) (now : datetime) :
  selects_clock_time t ->
  match parse_send_time_try t now with
  | Ok (Some r) => now < r
  | Ok None => False
  | Raise e => e = ValueError \/ e = OverflowError
  end.
Proof.
  intros (Hs & Hc & Hl). unfold parse_send_time_try. rewrite Hs, Hc, Hl.
  step_bind; [|left; eapply unpack_ints_raises; eassumption].
  destruct a as [|hour [|minute [|]]]; auto.
  pose proof (replace_hm_inv now hour minute) as R.
  step_bind; [|tauto].
  destruct R as (-> & Hh & Hm).
  assert (D : US_PER_DAY = 86400000000) by reflexivity.
  assert (Hr : US_PER_HOUR = 3600000000) by reflexivity.
  assert (Mi : US_PER_MINUTE = 60000000) by reflexivity.
  pose proof (Z.mod_pos_bound now US_PER_DAY ltac:(lia)) as B.
  pose proof (Z.div_mod now US_PER_DAY ltac:(lia)) as Q.
  destruct (_ <=? now) eqn:L.
  - pose proof (timedelta_of_inv US_PER_DAY 1) as T.
    step_bind; [|right; exact T]. subst a.
    match goal with |- context [datetime_add ?x ?y] =>
      pose proof (datetime_add_inv x y) as A end.
    step_bind; [|right; exact A].
    destruct A as [-> _]. lia.
  - apply Z.leb_gt in L. exact L.
Qed.

Lemma no_grammar_branch (t : str) (now : datetime) :
  selects_none t -> parse_send_time_try t now = Ok None.
Proof.
  intros (Hs & Hc & Hl). unfold parse_send_time_try. rewrite Hs, Hc, Hl. reflexivity.
Qed.

Lemma unit_of_positive (w : str) (unit_us : Z) :
  unit_of w = Some unit_us -> w <> [] /\ US_PER_MINUTE <= unit_us <= US_PER_DAY.
Proof.
  unfold unit_of. intros Hu. split.
  - intros ->. discriminate Hu.
  - destruct (contains (u "minut") w); [|destruct (contains (u "godzin") w);
      [|destruct (contains (u "dni") w); [|discriminate Hu]]];
      injection Hu as <-; split; discriminate.
Qed.

Lemma relative_branch_written (t : str) (now : datetime) :
  startswith t (u "za ") = true ->
  match parse_send_time_try t now with
  | Ok (Some r) =>
      exists a unit_us, written_offset t a unit_us /\ r = now + a * unit_us
  | _ => True
  end.
Proof.
  intros Hs. unfold parse_send_time_try, written_offset, amount_of.
  rewrite Hs.
  destruct (3 <=? length (split t))%nat; [|exact I].
  step_bind; [|exact I].
  step_bind; [|exact I].
  step_bind; [|exact I].
  destruct (contains (u "minut") a1) eqn:Cm.
  { pose proof (relative_step _ a0 now (eq_refl : 0 < US_PER_MINUTE)) as P.
    destruct (_ ← timedelta_of US_PER_MINUTE a0; _) as [[r|]|e]; [|exact I|exact I].
    exists a0, US_PER_MINUTE. unfold mbind at 1, result_bind at 1. rewrite E0.
    split; [split; [reflexivity|exists a1; split; [reflexivity|]]|tauto].
    unfold unit_of. rewrite Cm. reflexivity. }
  destruct (contains (u "godzin") a1) eqn:Cg.
  { pose proof (relative_step _ a0 now (eq_refl : 0 < US_PER_HOUR)) as P.
    destruct (_ ← timedelta_of US_PER_HOUR a0; _) as [[r|]|e]; [|exact I|exact I].
    exists a0, US_PER_HOUR. unfold mbind at 1, result_bind at 1. rewrite E0.
    split; [split; [reflexivity|exists a1; split; [reflexivity|]]|tauto].
    unfold unit_of. rewrite Cm, Cg. reflexivity. }
  destruct (contains (u "dni") a1) eqn:Cd; [|exact I].
  pose proof (relative_step _ a0 now (eq_refl : 0 < US_PER_DAY)) as P.
  destruct (_ ← timedelta_of US_PER_DAY a0; _) as [[r|]|e]; [|exact I|exact I].
  exists a0, US_PER_DAY. unfold mbind at 1, result_bind at 1. rewrite E0.
  split; [split; [reflexivity|exists a1; split; [reflexivity|]]|tauto].
  unfold unit_of. rewrite Cm, Cg, Cd. reflexivity.
Qed.

Lemma absolute_branch_written (t : str) (now : datetime) :
  selects_absolute t ->
  match parse_send_time_try t now with
  | Ok (Some r) => written_instant t r
  | _ => True
  end.
Proof.
  intros [Hs Hc]. unfold parse_send_time_try, written_instant. rewrite Hs, Hc.
  destruct (split t) as [|date_part [|time_part [|x l]]]; try exact I.
  step_bind; [|exact I].
  step_bind; [|exact I].
  destruct a as [|day [|month [|year [|]]]]; try exact I.
  destruct a0 as [|hour [|minute [|]]]; try exact I.
  step_bind; [|exact I].
  exists date_part, time_part, day, month, year, hour, minute.
  repeat split; assumption.
Qed.

Lemma grammar_cases (t : str) :
  selects_relative t \/ selects_absolute t \/ selects_clock_time t \/ selects_none t.
Proof.
  unfold selects_relative, selects_absolute, selects_clock_time, selects_none.
  destruct (startswith t (u "za ")); [auto|].
  destruct (contains (u ".") t && contains (u ":") t); [auto|].
  destruct ((length t =? 5)%nat && contains (u ":") t); auto 6.
Qed.

Lemma fallback_inv (now : datetime) :
  match (d ← timedelta_of US_PER_HOUR 1; datetime_add now d) with
  | Ok r => r = now + US_PER_HOUR /\ valid_datetime r
  | Raise e => e = OverflowError
  end.
Proof.
  change (timedelta_of US_PER_HOUR 1) with (@Ok timedelta US_PER_HOUR).
  unfold mbind, result_bind. apply datetime_add_inv.
Qed.

(** A result is in the future, or it is what the text writes. *)
Lemma parse_send_time_future_or_written (s : str) (now : datetime) :
  let t := lower (strip s) in
  match parse_send_time s now with
  | Ok r =>
      now < r
      \/ (selects_absolute t /\ written_instant t r)
      \/ (selects_relative t
          /\ exists a unit_us,
               written_offset t a unit_us /\ a <= 0 /\ r = now + a * unit_us)
  | Raise e => e = OverflowError
  end.
Proof.
  intros t. unfold parse_send_time. fold t.
  pose proof (fallback_inv now) as F.
  assert (HF : match (d ← timedelta_of US_PER_HOUR 1; datetime_add now d) with
               | Ok r => now < r
               | Raise e => e = OverflowError
               end).
  { destruct (_ ← timedelta_of US_PER_HOUR 1; _); [|exact F].
    destruct F as [-> _]. reflexivity || (unfold US_PER_HOUR, US_PER_MINUTE, US_PER_SECOND; lia). }
  assert (HF' : match (d ← timedelta_of US_PER_HOUR 1; datetime_add now d) with
                | Ok r =>
                    now < r
                    \/ (selects_absolute t /\ written_instant t r)
                    \/ (selects_relative t
                        /\ exists a unit_us,
                             written_offset t a unit_us /\ a <= 0
                             /\ r = now + a * unit_us)
                | Raise e => e = OverflowError
                end).
  { destruct (_ ← timedelta_of US_PER_HOUR 1; _); auto. }
  clear F HF.
  destruct (grammar_cases t) as [G|[G|[G|G]]].
  - pose proof (relative_branch t now G) as B.
    pose proof (relative_branch_written t now G) as W.
    destruct (parse_send_time_try t now) as [[r|]|e]; [|exact HF'|].
    + destruct W as (a & unit_us & Hw & Hr).
      destruct (Z_le_gt_dec a 0) as [L|L].
      * right. right. split; [exact G|]. exists a, unit_us. auto.
      * left. destruct Hw as (_ & w & _ & Hu).
        apply unit_of_positive in Hu as [_ Hu].
        unfold US_PER_MINUTE, US_PER_SECOND in Hu. nia.
    + destruct B as [->|[->| ->]]; [exact HF'|exact HF'|reflexivity].
  - pose proof (absolute_branch t now G) as B.
    pose proof (absolute_branch_written t now G) as W.
    destruct (parse_send_time_try t now) as [[r|]|e]; [auto|tauto|].
    destruct B as [->| ->]; [exact HF'|reflexivity].
  - pose proof (clock_time_branch t now G) as B.
    destruct (parse_send_time_try t now) as [[r|]|e]; [auto|tauto|].
    destruct B as [->| ->]; [exact HF'|reflexivity].
  - rewrite (no_grammar_branch t now G). exact HF'.
Qed.

(** Inside the absolute grammar a result is the instant written, or the
    fall-back after an error that was caught. *)
Lemma parse_send_time_absolute_written (s : str) (now : datetime) :
  let t := lower (strip s) in
  selects_absolute t ->
  match parse_send_time s now with
  | Ok r => written_instant t r \/ r = now + US_PER_HOUR
  | Raise _ => True
  end.
Proof.
  intros t G. unfold parse_send_time. fold t.
  pose proof (fallback_inv now) as F.
  assert (HF : match (d ← timedelta_of US_PER_HOUR 1; datetime_add now d) with
               | Ok r => written_instant t r \/ r = now + US_PER_HOUR
               | Raise _ => True
               end).
  { destruct (_ ← timedelta_of US_PER_HOUR 1; _); [|exact I].
    right. apply F. }
  pose proof (absolute_branch_written t now G) as W.
  destruct (parse_send_time_try t now) as [[r|]|e]; [left; exact W|exact HF|].
  destruct e; try exact I; exact HF.
Qed.

(** C5, as the code has it: [parse_send_time] raises nothing but
    [OverflowError] (date arithmetic that leaves the range of
    [datetime]); a result it returns is strictly after [now], except that
    the absolute grammar returns the instant written, wherever it lies
    (or, after an error that was caught, the fall-back), and a relative
    expression with an amount [N <= 0] returns [now + N·unit]. *)
Theorem parse_send_time_future_unless (s : str) (now : datetime) :
  let t := lower (strip s) in
  match parse_send_time s now with
  | Ok r =>
      (now < r
       \/ (selects_absolute t /\ written_instant t r)
       \/ (selects_relative t
           /\ exists a unit_us,
                written_offset t a unit_us /\ a <= 0 /\ r = now + a * unit_us))
      /\ (selects_absolute t -> written_instant t r \/ r = now + US_PER_HOUR)
  | Raise e => e = OverflowError
  end.
Proof.
  intros t.
  pose proof (parse_send_time_future_or_written s now) as P1.
  pose proof (parse_send_time_absolute_written s now) as P2.
  cbv zeta in P1, P2. fold t in P1, P2.
  destruct (parse_send_time s now) as [r|e]; [|exact P1].
  split; [exact P1|exact P2].
Qed.

Lemma replace_hm_error (t t' hh mm : Z) (e : exn) :
  replace_hm t hh mm = Raise e -> replace_hm t' hh mm = Raise e.
Proof.
  unfold replace_hm.
  repeat match goal with
         | |- context [if ?x then _ else _] => destruct x
         end; congruence.
Qed.


(** Conversely, the [try] is left without a result, or by a caught
    exception, only for the inputs named above. *)
Lemma falls_back_only_if (t : str) (now : datetime) :
  falls_back (parse_send_time_try t now) -> selects_none t \/ malformed t.
Proof.
  destruct (grammar_cases t) as [G|[G|[G|G]]]; [| | |auto].
  - intros F. right. pose proof G as G'. unfold selects_relative in G'.
    unfold parse_send_time_try in F. rewrite G' in F.
    destruct (3 <=? length (split t))%nat eqn:L.
    2:{ apply Nat.leb_gt in L. apply relative_too_short; assumption. }
    apply Nat.leb_le in L.
    destruct (split t) as [|w0 [|w1 [|w2 l]]] eqn:S; simpl in L; try lia.
    change (getitem (w0 :: w1 :: w2 :: l) 1) with (@Ok (list N) w1) in F.
    change (getitem (w0 :: w1 :: w2 :: l) 2) with (@Ok (list N) w2) in F.
    unfold mbind at 1, result_bind at 1 in F. cbv beta iota in F.
    destruct (int w1) as [a|e] eqn:I.
    + unfold mbind at 1 2, result_bind at 1 2 in F. cbv beta iota in F.
      assert (P : forall un, 0 < un ->
                  ~ falls_back (d ← timedelta_of un a; r ← datetime_add now d;
                                Ok (Some r))).
      { intros un Hun [Q|Q]; pose proof (relative_step un a now Hun) as R;
          rewrite Q in R; [exact R|discriminate]. }
      destruct (contains (u "minut") w2) eqn:U1;
        [exfalso; exact (P US_PER_MINUTE eq_refl F)|].
      destruct (contains (u "godzin") w2) eqn:U2;
        [exfalso; exact (P US_PER_HOUR eq_refl F)|].
      destruct (contains (u "dni") w2) eqn:U3;
        [exfalso; exact (P US_PER_DAY eq_refl F)|].
      apply (relative_unknown_unit t w2); try assumption. rewrite S. reflexivity.
    + apply relative_bad_amount; [assumption|rewrite S; simpl; lia|].
      unfold amount_of. rewrite S.
      change (getitem (w0 :: w1 :: w2 :: l) 1) with (@Ok (list N) w1).
      unfold mbind, result_bind. rewrite I.
      rewrite (int_raises w1 e I). reflexivity.
  - intros F. right. pose proof G as [G1 G2].
    unfold parse_send_time_try in F. rewrite G1, G2 in F.
    destruct (split t) as [|d [|tm [|x l]]] eqn:S;
      try (apply absolute_bad_shape; [assumption|rewrite S; simpl; lia]).
    destruct (unpack_ints 3 (split_sep d (u "."))) as [dmy|e] eqn:D.
    2:{ apply (absolute_bad_date t d tm); try assumption.
        rewrite <- (unpack_ints_raises _ _ _ D). exact D. }
    destruct (unpack_ints 2 (split_sep tm (u ":"))) as [hm|e] eqn:T.
    2:{ apply (absolute_bad_time t d tm); try assumption.
        rewrite <- (unpack_ints_raises _ _ _ T). exact T. }
    unfold mbind at 1 2, result_bind at 1 2 in F. cbv beta iota in F.
    pose proof (unpack_ints_length _ _ _ D) as LD.
    pose proof (unpack_ints_length _ _ _ T) as LT.
    destruct dmy as [|day [|month [|year [|]]]]; try discriminate LD.
    destruct hm as [|hour [|minute [|]]]; try discriminate LT.
    destruct (datetime_new year month day hour minute) as [r|e] eqn:HN.
    { destruct F as [F|F]; discriminate F. }
    apply (absolute_no_such_instant t d tm day month year hour minute);
      try assumption.
    destruct F as [F|F]; inversion F. subst e. exact HN.
  - intros F. right. pose proof G as (G1 & G2 & G3).
    unfold parse_send_time_try in F. rewrite G1, G2, G3 in F.
    destruct (unpack_ints 2 (split_sep t (u ":"))) as [hm|e] eqn:T.
    2:{ apply clock_time_bad_fields; try assumption.
        rewrite <- (unpack_ints_raises _ _ _ T). exact T. }
    unfold mbind at 1, result_bind at 1 in F. cbv beta iota in F.
    pose proof (unpack_ints_length _ _ _ T) as LT.
    destruct hm as [|hour [|minute [|]]]; try discriminate LT.
    destruct (replace_hm now hour minute) as [r|e] eqn:R.
    + exfalso. unfold mbind at 1, result_bind at 1 in F. cbv beta iota in F.
      change (timedelta_of US_PER_DAY 1) with (@Ok Z US_PER_DAY) in F.
      unfold mbind, result_bind, datetime_add in F.
      destruct (r <=? now); [destruct (_ && _)|];
        destruct F as [F|F]; discriminate F.
    + apply (clock_time_no_such_time t hour minute); try assumption.
      apply (replace_hm_error now 0).
      unfold mbind at 1, result_bind at 1 in F. cbv beta iota in F.
      destruct F as [F|F]; inversion F. subst e. exact R.
Qed.


(** *** Relative expressions written out: ["za N unit"] *)

Lemma decimal_fuel_digits (f : nat) (n : Z) :
  0 <= n -> forallb is_digit (decimal_fuel f n) = true.
Proof.
  revert n. induction f as [|f IH]; intros n Hn; simpl; [reflexivity|].
  destruct (n <? 10) eqn:E.
  - apply Z.ltb_lt in E. simpl. rewrite andb_true_r. unfold is_digit.
    apply andb_true_iff. split; apply N.leb_le; lia.
  - apply Z.ltb_ge in E. rewrite forallb_app, IH by (apply Z.div_pos; lia).
    simpl. rewrite andb_true_r. unfold is_digit.
    pose proof (Z.mod_pos_bound n 10 ltac:(lia)).
    apply andb_true_iff. split; apply N.leb_le; lia.
Qed.

Lemma decimal_fuel_length (f : nat) (n : Z) :
  (length (decimal_fuel f n) <= f)%nat.
Proof.
  revert n. induction f as [|f IH]; intros n; simpl; [lia|].
  destruct (n <? 10); simpl; [lia|].
  rewrite length_app. simpl. specialize (IH (n / 10)). lia.
Qed.

Lemma decimal_fuel_nonempty (f : nat) (n : Z) : decimal_fuel (S f) n <> [].
Proof.
  simpl. destruct (n <? 10); [discriminate|].
  destruct (decimal_fuel f (n / 10)); discriminate.
Qed.

Lemma decimal_fuel_value (f : nat) (n : Z) :
  0 <= n -> Z.log2 n < Z.of_nat f ->
  digits_value 0 (decimal_fuel f n) = n.
Proof.
  revert n. induction f as [|f IH]; intros n Hn Hf.
  - pose proof (Z.log2_nonneg n). lia.
  - simpl. destruct (n <? 10) eqn:E.
    + apply Z.ltb_lt in E. unfold digits_value. simpl. lia.
    + apply Z.ltb_ge in E. unfold digits_value. rewrite fold_left_app. simpl.
      assert (IH' : digits_value 0 (decimal_fuel f (n / 10)) = n / 10);
        [apply IH|].
      3:{ transitivity (10 * digits_value 0 (decimal_fuel f (n / 10))
                        + (Z.of_N (Z.to_N (48 + n mod 10)) - 48));
            [reflexivity|]. rewrite IH'.
          pose proof (Z.mod_pos_bound n 10 ltac:(lia)).
          pose proof (Z.div_mod n 10 ltac:(lia)). lia. }
      * apply Z.div_pos; lia.
      * assert (Z.log2 (n / 10) <= Z.log2 (n / 2)).
        { apply Z.log2_le_mono. apply Z.div_le_compat_l; lia. }
        assert (Z.log2 (n / 2) = Z.log2 n - 1).
        { rewrite <- Z.div2_div, Z.div2_spec, Z.log2_shiftr by lia.
          pose proof (Z.log2_le_mono 10 n ltac:(lia)) as L.
          change (Z.log2 10) with 3 in L. lia. }
        lia.
Qed.

Lemma digits_from_digits (ds : str) (acc : Z) (b : bool) (k : nat) :
  forallb is_digit ds = true -> ds <> [] \/ b = true ->
  digits_from acc b k ds = Some (digits_value acc ds, (k + length ds)%nat).
Proof.
  revert acc b k. induction ds as [|c r IH]; intros acc b k Hd Hn.
  - destruct Hn as [Hn| ->]; [congruence|]. simpl. f_equal. f_equal. lia.
  - simpl in Hd. apply andb_true_iff in Hd as [Hc Hr].
    simpl. rewrite Hc. rewrite IH by auto. unfold digits_value. simpl.
    f_equal. f_equal. lia.
Qed.

Lemma is_digit_bounds (c : char) : is_digit c = true -> (48 <= c <= 57)%N.
Proof.
  unfold is_digit. intros E. apply andb_true_iff in E as [A B].
  apply N.leb_le in A, B. lia.
Qed.

Lemma decimal_log2_fuel (n : Z) : Z.log2 n < Z.of_nat (S (Z.to_nat (Z.log2 n))).
Proof. pose proof (Z.log2_nonneg n). lia. Qed.

Lemma forallb_rev_true {A} (f : A -> bool) (l : list A) :
  forallb f l = true -> forallb f (rev l) = true.
Proof.
  rewrite !forallb_forall. intros Hl x Hx. apply Hl. apply in_rev. exact Hx.
Qed.

(** [int] reads back the decimal writing of a natural number below
    [2^600]. *)
Lemma int_decimal (n : Z) : 0 <= n -> n < 2 ^ 600 -> int (decimal n) = Ok n.
Proof.
  intros Hn Hb. unfold int, decimal.
  set (f := S (Z.to_nat (Z.log2 n))).
  pose proof (decimal_fuel_digits f n Hn) as Hd.
  pose proof (decimal_fuel_nonempty (Z.to_nat (Z.log2 n)) n) as Hne. fold f in Hne.
  pose proof (decimal_fuel_length f n) as Hl.
  pose proof (decimal_fuel_value f n Hn (decimal_log2_fuel n)) as Hv.
  set (ds := decimal_fuel f n) in *.
  assert (Hmap : map to_ascii ds = ds).
  { clear -Hd. induction ds as [|c r IH]; [reflexivity|].
    simpl in Hd. apply andb_true_iff in Hd as [Hc Hr]. simpl. rewrite IH by exact Hr.
    apply is_digit_bounds in Hc. unfold to_ascii, is_ascii.
    destruct (c <? 128)%N eqn:E; [reflexivity|]. apply N.ltb_ge in E. lia. }
  assert (Hstrip : forall s, forallb is_digit s = true -> c_lstrip s = s).
  { intros [|c r] Hs; [reflexivity|]. simpl in Hs.
    apply andb_true_iff in Hs as [Hc _]. apply is_digit_bounds in Hc. simpl.
    unfold c_isspace.
    destruct (9 <=? c)%N eqn:E1, (c <=? 13)%N eqn:E2, (c =? 32)%N eqn:E3;
      try reflexivity; exfalso;
      try apply N.leb_le in E2; try apply N.eqb_eq in E3; lia. }
  rewrite Hmap, (Hstrip ds Hd).
  rewrite (Hstrip (rev ds)) by (apply forallb_rev_true; exact Hd).
  rewrite rev_involutive.
  destruct ds as [|c r] eqn:Eds; [congruence|].
  assert (Hc : (48 <= c <= 57)%N).
  { simpl in Hd. apply andb_true_iff in Hd as [Hc _]. apply is_digit_bounds. exact Hc. }
  assert (Hsign : (let '(negative, ds0) :=
                     match c :: r with
                     | 43%N :: r0 => (false, r0)
                     | 45%N :: r0 => (true, r0)
                     | _ => (false, c :: r)
                     end in
                   match digits_from 0 false 0 ds0 with
                   | Some (v, n0) =>
                       if ((640 <? n0) && (0 <? int_max_str_digits)
                           && (int_max_str_digits <? n0))%nat
                       then Raise ValueError
                       else Ok (if negative then - v else v)
                   | None => Raise ValueError
                   end)
                  = match digits_from 0 false 0 (c :: r) with
                    | Some (v, n0) =>
                        if ((640 <? n0) && (0 <? int_max_str_digits)
                            && (int_max_str_digits <? n0))%nat
                        then Raise ValueError
                        else Ok v
                    | None => Raise ValueError
                    end).
  { destruct c as [|p]; [lia|].
    do 6 (destruct p as [p|p|]; try reflexivity; try lia). }
  rewrite Hsign. rewrite digits_from_digits by (auto; left; discriminate).
  rewrite Hv.
  assert (Hf : (f <= 640)%nat).
  { unfold f. pose proof (Z.log2_lt_pow2 n 600) as L.
    destruct (Z.eq_dec n 0) as [->|Hz]; [simpl; lia|].
    assert (Z.log2 n < 600) by (apply L; lia). lia. }
  replace (640 <? 0 + length (c :: r))%nat with false; [reflexivity|].
  symmetry. apply Nat.ltb_ge. lia.
Qed.

Lemma plain_digit (c : char) : is_digit c = true -> plain c = true.
Proof.
  intros Hc. apply is_digit_bounds in Hc.
  assert (D : (c = 48 \/ c = 49 \/ c = 50 \/ c = 51 \/ c = 52 \/ c = 53 \/ c = 54
               \/ c = 55 \/ c = 56 \/ c = 57)%N) by lia.
  repeat (destruct D as [-> | D]; [reflexivity|]). subst c. reflexivity.
Qed.

Lemma plain_forall (P : char -> bool) (w : str) :
  (forall c, plain c = true -> P c = true) ->
  forallb plain w = true -> forallb P w = true.
Proof.
  intros HP. rewrite !forallb_forall. auto.
Qed.

Lemma split_ws_word (w cur rest : str) :
  forallb plain w = true ->
  split_ws_from cur (w ++ rest) = split_ws_from (rev w ++ cur) rest.
Proof.
  revert cur. induction w as [|c r IH]; intros cur Hw; [reflexivity|].
  simpl in Hw. apply andb_true_iff in Hw as [Hc Hr].
  simpl. unfold plain in Hc.
  destruct (isspace c); [rewrite andb_false_r in Hc; discriminate|].
  rewrite IH by exact Hr. rewrite <- app_assoc. reflexivity.
Qed.

Lemma map_lower_plain (w : str) :
  forallb plain w = true -> map ascii_lower w = w.
Proof.
  induction w as [|c r IH]; intros Hw; [reflexivity|].
  simpl in Hw. apply andb_true_iff in Hw as [Hc Hr]. simpl. rewrite IH by exact Hr.
  unfold plain in Hc. apply andb_true_iff in Hc as [_ Hc].
  apply N.eqb_eq in Hc. rewrite Hc. reflexivity.
Qed.

Lemma rstrip_plain_end (s w : str) :
  forallb plain w = true -> w <> [] -> rstrip (s ++ w) = s ++ w.
Proof.
  intros Hw Hne. unfold rstrip. rewrite rev_app_distr.
  destruct (rev w) as [|c r] eqn:Er.
  { apply (f_equal (@rev char)) in Er. rewrite rev_involutive in Er.
    simpl in Er. congruence. }
  assert (Hc : plain c = true).
  { assert (Hrw : forallb plain (rev w) = true) by (apply forallb_rev_true; exact Hw).
    rewrite Er in Hrw. simpl in Hrw. apply andb_true_iff in Hrw. tauto. }
  simpl. unfold plain in Hc.
  destruct (isspace c); [rewrite andb_false_r in Hc; discriminate|].
  change (c :: r ++ rev s) with ((c :: r) ++ rev s).
  rewrite <- Er, <- rev_app_distr, rev_involutive. reflexivity.
Qed.

Lemma relative_expression_normal (n : Z) (w : str) :
  0 <= n -> forallb plain w = true -> w <> [] ->
  lower (strip (relative_expression n w)) = relative_expression n w.
Proof.
  intros Hn Hw Hne. unfold relative_expression.
  pose proof (decimal_fuel_digits (S (Z.to_nat (Z.log2 n))) n Hn) as Hd.
  fold (decimal n) in Hd.
  assert (Hp : forallb plain (decimal n) = true).
  { rewrite forallb_forall in Hd. rewrite forallb_forall.
    intros c Hc. apply plain_digit. auto. }
  change (u "za ") with [122%N; 97%N; 32%N]. change (u " ") with [32%N].
  assert (Hs : strip ([122%N; 97%N; 32%N] ++ decimal n ++ [32%N] ++ w)
               = [122%N; 97%N; 32%N] ++ decimal n ++ [32%N] ++ w).
  { unfold strip.
    change (lstrip ([122%N; 97%N; 32%N] ++ decimal n ++ [32%N] ++ w))
      with ([122%N; 97%N; 32%N] ++ decimal n ++ [32%N] ++ w).
    rewrite !app_assoc. rewrite rstrip_plain_end by assumption. reflexivity. }
  rewrite Hs. unfold lower.
  assert (Ha : forallb plain ([122%N; 97%N] ++ decimal n) = true).
  { rewrite forallb_app, Hp. reflexivity. }
  assert (Hascii : forallb is_ascii ([122%N; 97%N; 32%N] ++ decimal n ++ [32%N] ++ w)
                   = true).
  { rewrite !forallb_app.
    rewrite (plain_forall is_ascii (decimal n)), (plain_forall is_ascii w); auto.
    all: intros c Hc; unfold plain in Hc; destruct (is_ascii c); auto. }
  rewrite Hascii. rewrite !map_app.
  rewrite (map_lower_plain (decimal n) Hp), (map_lower_plain w Hw). reflexivity.
Qed.

Lemma relative_expression_split (n : Z) (w : str) :
  0 <= n -> forallb plain w = true -> w <> [] ->
  split (relative_expression n w) = [u "za"; decimal n; w].
Proof.
  intros Hn Hw Hne. unfold relative_expression, split.
  pose proof (decimal_fuel_digits (S (Z.to_nat (Z.log2 n))) n Hn) as Hd.
  pose proof (decimal_fuel_nonempty (Z.to_nat (Z.log2 n)) n) as Hdn.
  fold (decimal n) in Hd, Hdn.
  assert (Hp : forallb plain (decimal n) = true).
  { rewrite forallb_forall in Hd. rewrite forallb_forall.
    intros c Hc. apply plain_digit. auto. }
  change (u "za ") with [122%N; 97%N; 32%N]. change (u " ") with [32%N].
  change (u "za") with [122%N; 97%N].
  change (split_ws_from [] ([122%N; 97%N; 32%N] ++ decimal n ++ [32%N] ++ w))
    with ([122%N; 97%N] :: split_ws_from [] (decimal n ++ [32%N] ++ w)).
  rewrite (split_ws_word (decimal n)) by exact Hp.
  rewrite app_nil_r. simpl.
  destruct (rev (decimal n)) as [|c r] eqn:Er.
  { apply (f_equal (@rev char)) in Er. rewrite rev_involutive in Er. simpl in Er. congruence. }
  rewrite <- Er, rev_involutive.
  replace w with (w ++ []) at 1 by apply app_nil_r.
  rewrite (split_ws_word w) by exact Hw.
  rewrite app_nil_r. simpl.
  destruct (rev w) as [|c' r'] eqn:Er'.
  { apply (f_equal (@rev char)) in Er'. rewrite rev_involutive in Er'. simpl in Er'. congruence. }
  rewrite <- Er', rev_involutive. reflexivity.
Qed.

Lemma startswith_app (p s : str) : startswith (p ++ s) p = true.
Proof.
  induction p as [|c r IH]; [destruct s; reflexivity|].
  simpl. rewrite N.eqb_refl, IH. reflexivity.
Qed.

(** C7, as the code has it: for a natural number [N], written in
    decimal, and a unit word of lower-case ASCII letters,
    ["za N unit"] yields exactly [now + N·unit], the unit being minutes
    when the word contains [minut], else hours when it contains
    [godzin], else days when it contains [dni], provided that instant is
    not after [datetime.max]. *)
Theorem parse_send_time_relative (n now : Z) (w : str) (unit_us : Z) :
  0 <= n -> 0 <= now ->
  forallb plain w = true -> unit_of w = Some unit_us ->
  now + n * unit_us <= DATETIME_MAX ->
  parse_send_time (relative_expression n w) now = Ok (now + n * unit_us).
Proof.
  intros Hn Hnow Hw Hu Hmax.
  destruct (unit_of_positive w unit_us Hu) as [Hne Hub].
  assert (HM : US_PER_MINUTE = 60000000) by reflexivity.
  assert (HD : US_PER_DAY = 86400000000) by reflexivity.
  assert (HX : DATETIME_MAX = 315537897599999999) by reflexivity.
  assert (Hprod : 0 <= n * unit_us) by nia.
  assert (Hnb : n < 2 ^ 600).
  { assert (n <= n * unit_us) by nia.
    assert (315537897599999999 < 2 ^ 600) by (apply Z.ltb_lt; reflexivity). lia. }
  unfold parse_send_time.
  rewrite (relative_expression_normal n w Hn Hw Hne).
  assert (T : parse_send_time_try (relative_expression n w) now
              = Ok (Some (now + n * unit_us))).
  { unfold parse_send_time_try.
    rewrite (relative_expression_split n w Hn Hw Hne).
    unfold relative_expression at 1. rewrite startswith_app.
    cbv iota. change (3 <=? length [u "za"; decimal n; w])%nat with true. cbv iota.
    change (getitem [u "za"; decimal n; w] 1) with (@Ok (list N) (decimal n)).
    change (getitem [u "za"; decimal n; w] 2) with (@Ok (list N) w).
    unfold mbind at 1, result_bind at 1. cbv beta iota.
    rewrite (int_decimal n Hn Hnb).
    unfold mbind at 1 2, result_bind at 1 2. cbv beta iota.
    assert (S : (d ← timedelta_of unit_us n; t ← datetime_add now d; Ok (Some t))
                = Ok (Some (now + n * unit_us))).
    { unfold timedelta_of, datetime_add.
      assert (Q : 0 <= n * unit_us / US_PER_DAY <= 999999999).
      { split; [apply Z.div_pos; lia|].
        apply Z.lt_succ_r. apply Z.div_lt_upper_bound; lia. }
      destruct Q as [Q1 Q2].
      replace (-999999999 <=? n * unit_us / US_PER_DAY) with true
        by (symmetry; apply Z.leb_le; lia).
      replace (n * unit_us / US_PER_DAY <=? 999999999) with true
        by (symmetry; apply Z.leb_le; lia).
      unfold mbind, result_bind. cbv beta iota. simpl andb. cbv iota.
      replace (0 <=? now + n * unit_us) with true by (symmetry; apply Z.leb_le; lia).
      replace (now + n * unit_us <=? DATETIME_MAX) with true
        by (symmetry; apply Z.leb_le; lia).
      reflexivity. }
    unfold unit_of in Hu.
    destruct (contains (u "minut") w); [inversion Hu; subst; exact S|].
    destruct (contains (u "godzin") w); [inversion Hu; subst; exact S|].
    destruct (contains (u "dni") w); [inversion Hu; subst; exact S|discriminate]. }
  rewrite T. reflexivity.
Qed.

End TimeExpressions.

(** *** Examples and counterexamples, at 2024-01-01 10:00 *)

Example at_2024_01_01_10_00_is :
  datetime_new 2024 1 1 10 0 = Ok at_2024_01_01_10_00.
Proof. vm_compute. reflexivity. Qed.

Example parse_za_2_godziny :
  @parse_send_time ascii_runtime (u "za 2 godziny") at_2024_01_01_10_00
  = datetime_new 2024 1 1 12 0.
Proof. vm_compute. reflexivity. Qed.

Example parse_clock_time_rolls_over :
  (at_15 ← datetime_new 2024 1 1 15 0;
   @parse_send_time ascii_runtime (u "14:30") at_15)
  = datetime_new 2024 1 2 14 30.
Proof. vm_compute. reflexivity. Qed.

Example parse_no_such_date_falls_back :
  @parse_send_time ascii_runtime (u "31.02.2024 10:00") at_2024_01_01_10_00
  = datetime_new 2024 1 1 11 0.
Proof. vm_compute. reflexivity. Qed.

Example parse_zero_minutes_is_now :
  @parse_send_time ascii_runtime (u "za 0 minut") at_2024_01_01_10_00
  = Ok at_2024_01_01_10_00.
Proof. vm_compute. reflexivity. Qed.

Example parse_year_beyond_c_int :
  @parse_send_time ascii_runtime (u "1.1.99999999999 10:00") at_2024_01_01_10_00
  = Raise OverflowError.
Proof. vm_compute. reflexivity. Qed.

(** C5, as stated, fails: the absolute grammar returns an instant of the
    past as it is written. *)
Lemma parse_send_time_absolute_past :
  datetime_new 2024 1 1 10 0 = Ok at_2024_01_01_10_00
  /\ @parse_send_time ascii_runtime (u "01.01.2020 10:00") at_2024_01_01_10_00
     = datetime_new 2020 1 1 10 0
  /\ datetime_new 2020 1 1 10 0 = Ok 63713469600000000
  /\ 63713469600000000 < at_2024_01_01_10_00.
Proof. vm_compute. repeat split; reflexivity. Qed.



Lemma parse_send_time_relative_witness :
  relative_expression 2 (u "godziny") = u "za 2 godziny"
  /\ @parse_send_time ascii_runtime (u "za 2 godziny") at_2024_01_01_10_00
     = Ok (at_2024_01_01_10_00 + 2 * US_PER_HOUR).
Proof.
  split; [vm_compute; reflexivity|].
  apply (@parse_send_time_relative ascii_runtime 2 at_2024_01_01_10_00 (u "godziny")
           US_PER_HOUR).
  - lia.
  - vm_compute. discriminate.
  - vm_compute. reflexivity.
  - vm_compute. reflexivity.
  - vm_compute. discriminate.
Defined.

(** C7, as stated, fails: a hundred million hours from 2024 lie beyond
    [datetime.max], and the call raises [OverflowError]. *)
Lemma parse_send_time_relative_overflow :
  relative_expression 100000000 (u "godzin") = u "za 100000000 godzin"
  /\ 0 <= at_2024_01_01_10_00 <= DATETIME_MAX
  /\ @parse_send_time ascii_runtime (u "za 100000000 godzin") at_2024_01_01_10_00
     = Raise OverflowError.
Proof. vm_compute. repeat split; try reflexivity; discriminate. Qed.

(** ** The job store and the scheduler loop *)

Section JobStore.
Context `{PyRuntime}.

Lemma once_tag_differs (to : str) (send_datetime : Z) :
  u "once_" ++ to <> once_tag to send_datetime.
Proof.
  unfold once_tag. intros E. apply (f_equal (@length N)) in E.
  rewrite !length_app in E. simpl in E. lia.
Qed.

(** The tag cleared by the action of a one-shot job is not the tag the
    job was given: the job stays in the store. *)
Lemma clear_keeps_one_shot (to : str) (send_datetime : Z) (j : job) (js : list job) :
  tags j = [once_tag to send_datetime] -> j ∈ js ->
  j ∈ clear (u "once_" ++ to) js.
Proof.
  intros Ht Hj. unfold clear. apply list_elem_of_filter. split; [|exact Hj].
  rewrite Ht. intros Hin. apply list_elem_of_singleton in Hin.
  exact (once_tag_differs to send_datetime Hin).
Qed.

Lemma schedule_email_datetime_registers (now now_do : Z) (m : email)
    (send_datetime : Z) (st : scheduler) :
  now < send_datetime -> valid_datetime (now_do + (send_datetime - now)) ->
  schedule_email_datetime now now_do m send_datetime st
  = ({| jobs := jobs st ++
                [{| job_id := next_job_id st;
                    period := every_seconds (send_datetime - now);
                    func := call_send_scheduled_email_once m;
                    next_run := now_do + (send_datetime - now);
                    last_run := None;
                    tags := [once_tag (to_email m) send_datetime] |}];
        next_job_id := S (next_job_id st);
        deliveries := deliveries st |}, Ok tt).
Proof.
  intros Hf [V1 V2]. unfold schedule_email_datetime.
  replace (send_datetime <=? now) with false by (symmetry; apply Z.leb_gt; lia).
  unfold every_seconds_do_tag, schedule_next_run, datetime_add.
  apply Z.leb_le in V1, V2. rewrite V1, V2. reflexivity.
Qed.

(** The action of a one-shot job, run on a store that holds the job as
    [schedule_email_datetime] made it: [SystemExit] is raised, one call
    of [send_email] is recorded, and the job is still in the store, its
    next run unchanged. *)
Lemma one_shot_job_survives (tick : Z) (m : email) (send_datetime : Z) (j : job)
    (st : scheduler) :
  func j = call_send_scheduled_email_once m ->
  tags j = [once_tag (to_email m) send_datetime] ->
  j ∈ jobs st ->
  exists st',
    run_job tick j st = (st', Raise (SystemExit STOPPED))
    /\ j ∈ jobs st'
    /\ deliveries st'
       = deliveries st ++ [(m, smtp_accepts tick m)].
Proof.
  intros Hf Ht Hj. unfold run_job. rewrite Hf.
  unfold send_scheduled_email_once, send_email. simpl.
  eexists. split; [reflexivity|]. simpl. split; [|reflexivity].
  eapply clear_keeps_one_shot; eassumption.
Qed.

(** A recurring job stays in the store when it has run. *)
Lemma recurring_job_stays (now : Z) (j : job) (m : email) (st st' : scheduler)
    (r : result unit) :
  func j = call_send_scheduled_email m ->
  run_job now j st = (st', r) ->
  map job_id (jobs st') = map job_id (jobs st).
Proof.
  intros Hf. unfold run_job. rewrite Hf. simpl.
  destruct (schedule_next_run now (period j)); intros [= <- <-]; [|reflexivity].
  simpl. unfold update_job. rewrite map_map. apply map_ext. intros k. simpl.
  destruct (job_id k =? job_id j)%nat eqn:E; [|reflexivity].
  apply Nat.eqb_eq in E. simpl. congruence.
Qed.

Lemma run_jobs_reaches_one_shot (now : Z) (pre post : list job) (j : job) (m : email)
    (st st1 : scheduler) :
  run_jobs now pre st = (st1, Ok tt) ->
  func j = call_send_scheduled_email_once m ->
  run_jobs now (pre ++ j :: post) st
  = (fst (send_scheduled_email_once now m st1), Raise (SystemExit STOPPED)).
Proof.
  revert st. induction pre as [|k r IH]; intros st Hpre Hf.
  - simpl in Hpre. inversion Hpre; subst. simpl. unfold run_job. rewrite Hf.
    reflexivity.
  - simpl in Hpre. simpl. destruct (run_job now k st) as [st2 [[]|e]].
    + apply IH; assumption.
    + discriminate.
Qed.

(** C4, as the code has it: once the action of a one-shot job is reached
    in a tick, [send_email] is called once and, whatever the transport
    answers, [SystemExit] leaves [run_scheduler]: no later tick is
    served. *)
Theorem one_shot_action_stops_scheduler (now : Z) (later : list Z)
    (pre post : list job) (j : job) (m : email) (st st1 : scheduler) :
  sorted_jobs (filter (fun k => should_run now k) (jobs st)) = pre ++ j :: post ->
  run_jobs now pre st = (st1, Ok tt) ->
  func j = call_send_scheduled_email_once m ->
  exists st',
    run_scheduler (now :: later) st = (st', Raise (SystemExit STOPPED))
    /\ deliveries st'
       = deliveries st1 ++ [(m, smtp_accepts now m)].
Proof.
  intros Hs Hpre Hf. simpl. unfold run_pending. rewrite Hs.
  rewrite (run_jobs_reaches_one_shot now pre post j m st st1 Hpre Hf).
  eexists. split; reflexivity.
Qed.

(** C10: a send instant that is not after [now] registers nothing and
    raises nothing, and [schedule_email_from_ai] goes on as after a
    registration: it starts a scheduler thread, clears the planning state
    of the user and answers with the text of success (subject,
    recipient, formatted instant and the first hundred characters of the
    body), which is no failure text, the job store being as before. *)
Theorem not_future_is_reported_scheduled (c : clock) (b : bot) (user_id : Z)
    (subject body send_time : str) (attachment_path : option str) (m : email)
    (send_datetime : Z) :
  send_datetime <= now_schedule c ->
  parse_send_time send_time (now_parse c) = Ok send_datetime ->
  schedule_email_datetime (now_schedule c) (now_do c) m send_datetime
    (email_scheduler b) = (email_scheduler b, Ok tt)
  /\ exists b' reply,
      schedule_email_from_ai c b user_id (schedule_email subject body send_time)
        attachment_path
      = (b', reply)
      /\ reply
         = u "✅ Email zaplanowany pomyślnie!" ++ [10%N; 10%N]
           ++ u "📧 Temat: " ++ subject ++ [10%N]
           ++ u "📧 Odbiorca: " ++ get_user_email b user_id ++ [10%N]
           ++ u "📅 Data wysyłki: " ++ strftime send_datetime ++ [10%N]
           ++ u "📝 Treść: " ++ take 100 body
           ++ (if (100 <? length body)%nat then u "..." else [])
      /\ (forall e, reply <> u "❌ Błąd podczas planowania emaila: " ++ str_of_exn e)
      /\ email_scheduler b' = email_scheduler b
      /\ scheduler_threads b' = S (scheduler_threads b)
      /\ email_planning_state b' = delete user_id (email_planning_state b).
Proof.
  intros Hle Hp.
  assert (E : forall m', schedule_email_datetime (now_schedule c) (now_do c) m'
                           send_datetime (email_scheduler b)
                         = (email_scheduler b, Ok tt)).
  { intros m'. unfold schedule_email_datetime.
    apply Z.leb_le in Hle. rewrite Hle. reflexivity. }
  split; [apply E|].
  unfold schedule_email_from_ai. rewrite Hp, E.
  eexists _, _. split; [reflexivity|].
  split; [unfold scheduled_message, NL; reflexivity|].
  split.
  { intros e D. apply (f_equal (fun l => nth 0 l 0%N)) in D.
    vm_compute in D. discriminate D. }
  cbn [email_scheduler scheduler_threads email_planning_state with_planning_state
         start_scheduler_background with_thread with_scheduler].
  destruct (email_scheduler b). auto.
Qed.

End JobStore.

(** *** A one-shot job, scheduled at 10:00 for 10:05 *)

Example example_store_is :
  example_store = {| jobs := [example_job]; next_job_id := 1; deliveries := [] |}.
Proof. vm_compute. reflexivity. Qed.

(** C2 on the code: the job scheduled for 10:05 fires in the tick of
    10:06, is still in the store afterwards, and fires again when the
    loop is started anew and ticks at 10:07. Its action clears the tag
    [once_a@b.c]; the job carries [once_a@b.c_1704103500.0]. *)
Theorem one_shot_job_fires_again :
  let R := ascii_runtime in
  let st1 := example_store in
  let run2 := @run_scheduler R [at_2024_01_01_10_00 + 6 * US_PER_MINUTE] st1 in
  let run3 := @run_scheduler R [at_2024_01_01_10_00 + 7 * US_PER_MINUTE] (fst run2) in
  jobs st1 = [example_job]
  /\ snd run2 = Raise (SystemExit STOPPED)
  /\ jobs (fst run2) = [example_job]
  /\ deliveries (fst run2) = [(example_mail, true)]
  /\ snd run3 = Raise (SystemExit STOPPED)
  /\ jobs (fst run3) = [example_job]
  /\ deliveries (fst run3) = [(example_mail, true); (example_mail, true)].
Proof. vm_compute. repeat split; reflexivity. Qed.

Lemma one_shot_action_stops_scheduler_witness :
  exists st',
    @run_scheduler refusing_runtime
      [at_2024_01_01_10_00 + 6 * US_PER_MINUTE; at_2024_01_01_10_00 + 7 * US_PER_MINUTE]
      example_store
    = (st', Raise (SystemExit STOPPED))
    /\ deliveries st' = [] ++ [(example_mail, false)].
Proof.
  apply (@one_shot_action_stops_scheduler refusing_runtime
           (at_2024_01_01_10_00 + 6 * US_PER_MINUTE)
           [at_2024_01_01_10_00 + 7 * US_PER_MINUTE]
           [] [] example_job example_mail example_store example_store).
  - vm_compute. reflexivity.
  - reflexivity.
  - reflexivity.
Defined.

(** C4, as stated, fails: the stop is not tied to a successful send. With
    a transport that refuses the message the action raises [SystemExit]
    all the same, and the loop stops. *)
Lemma failed_send_stops_scheduler :
  let R := refusing_runtime in
  let tick := at_2024_01_01_10_00 + 6 * US_PER_MINUTE in
  snd (@send_email R tick example_mail example_store) = false
  /\ snd (@send_scheduled_email_once R tick example_mail example_store)
     = Raise (SystemExit STOPPED)
  /\ snd (@run_scheduler R [tick; tick + US_PER_MINUTE] example_store)
     = Raise (SystemExit STOPPED)
  /\ deliveries (fst (@run_scheduler R [tick; tick + US_PER_MINUTE]
                        example_store))
     = [(example_mail, false)].
Proof. vm_compute. repeat split; reflexivity. Qed.

Lemma not_future_is_reported_scheduled_witness :
  exists b',
    @schedule_email_from_ai ascii_runtime example_clock (new_bot (u "a@b.c") 10) 7
      (schedule_email (u "Hello") (u "Body text") (u "za 0 minut")) None
    = (b', u "✅ Email zaplanowany pomyślnie!" ++ [10%N; 10%N]
           ++ u "📧 Temat: Hello" ++ [10%N]
           ++ u "📧 Odbiorca: a@b.c" ++ [10%N]
           ++ u "📅 Data wysyłki: " ++ @strftime ascii_runtime at_2024_01_01_10_00
           ++ [10%N]
           ++ u "📝 Treść: Body text")
    /\ jobs (email_scheduler b') = []
    /\ scheduler_threads b' = 1%nat.
Proof.
  destruct (@not_future_is_reported_scheduled ascii_runtime example_clock
              (new_bot (u "a@b.c") 10) 7 (u "Hello") (u "Body text") (u "za 0 minut")
              None example_mail at_2024_01_01_10_00)
    as [_ (b' & reply & E & R & _ & S & T & _)].
  - vm_compute. discriminate.
  - vm_compute. reflexivity.
  - exists b'. split; [rewrite E, R; vm_compute; reflexivity|].
    rewrite S, T. split; reflexivity.
Defined.

(** ** Conversation memory and attachments *)

Section Conversation.
Context `{PyRuntime}.

Lemma slice_from_last {A} (k : Z) (l : list A) :
  0 < k < Z.of_nat (length l) ->
  slice_from (- k) l = drop (length l - Z.to_nat k) l.
Proof.
  intros Hk. unfold slice_from.
  replace (- k <? 0) with true by (symmetry; apply Z.ltb_lt; lia).
  f_equal. lia.
Qed.

Lemma history_add_to_memory (b : bot) (user_id : Z) (role content : str) :
  history (add_to_memory b user_id role content) user_id
  = let msgs := history b user_id
                ++ [{| role := role; content := content; name := None |}] in
    if cap b <? Z.of_nat (length msgs) then slice_from (- cap b) msgs else msgs.
Proof.
  unfold history, add_to_memory, get_user_memory, cap.
  destruct (conversation_memory b !! user_id) as [mem|] eqn:E; simpl;
    rewrite lookup_insert_eq; reflexivity.
Qed.

(** With a cap of at least one turn, the history after an append is the
    old history with the appended turn, cut at the front to the cap: it
    holds as many turns as the cap allows, never fewer, they are the
    newest ones, and the appended turn is the last. *)
Lemma add_to_memory_capped (b : bot) (user_id : Z) (role content : str) :
  1 <= cap b ->
  let new := {| role := role; content := content; name := None |} in
  let after := history (add_to_memory b user_id role content) user_id in
  Z.of_nat (length after)
  = Z.min (cap b) (Z.of_nat (length (history b user_id)) + 1)
  /\ (exists dropped, history b user_id ++ [new] = dropped ++ after)
  /\ last after = Some new.
Proof.
  intros Hc new after. unfold after. rewrite history_add_to_memory. cbv zeta.
  fold new. set (msgs := history b user_id ++ [new]).
  assert (Hl : Z.of_nat (length msgs) = Z.of_nat (length (history b user_id)) + 1).
  { unfold msgs. rewrite length_app. cbn [length]. lia. }
  destruct (cap b <? Z.of_nat (length msgs)) eqn:E.
  - apply Z.ltb_lt in E. rewrite slice_from_last by lia. split; [|split].
    + rewrite length_drop. lia.
    + exists (take (length msgs - Z.to_nat (cap b)) msgs).
      symmetry. apply take_drop.
    + unfold msgs. rewrite drop_app_le by (rewrite length_app in *; cbn [length] in *; lia).
      apply last_snoc.
  - apply Z.ltb_ge in E. split; [lia|]. split; [exists []; reflexivity|].
    apply last_snoc.
Qed.

(** The context sent to the service is built after the new message of the
    user is stored: it is the system prompt followed by the stored
    history, empty turns left out. *)
Lemma request_context_after_append (b : bot) (user_id : Z) (message_text : str) :
  let b' := add_to_memory b user_id (u "user") message_text in
  snd (request_context b user_id message_text)
  = filter (fun m => nonempty (content m))
      ({| role := u "system"; content := system_prompt (get_user_email b' user_id);
          name := None |} :: history b' user_id).
Proof.
  cbv zeta. unfold request_context, get_conversation_context, history.
  destruct (get_user_memory (add_to_memory b user_id (u "user") message_text) user_id)
    as [b1 mem] eqn:E.
  simpl. do 3 f_equal.
  unfold get_user_memory in E.
  destruct (conversation_memory _ !! user_id); inversion E; subst; reflexivity.
Qed.

(** C8: a file from a user for whom no attachment is awaited is answered
    with the fixed refusal, and the bot is left as it was: job store,
    histories, planning state and saved files. *)
Theorem unexpected_attachment_rejected (c : clock) (b : bot) (user_id : Z)
    (file_name : str) (downloaded : bool) :
  email_planning_state b !! user_id = None ->
  handle_document c b user_id file_name downloaded = (b, [NOT_EXPECTED]).
Proof.
  intros Hw. unfold handle_document. rewrite Hw. reflexivity.
Qed.

Lemma get_user_memory_with_file (b : bot) (path : str) (user_id : Z) :
  snd (get_user_memory (with_file b path) user_id) = snd (get_user_memory b user_id)
  /\ email_scheduler (fst (get_user_memory (with_file b path) user_id))
     = email_scheduler b
  /\ email_planning_state (fst (get_user_memory (with_file b path) user_id))
     = email_planning_state b
  /\ saved_files (fst (get_user_memory (with_file b path) user_id))
     = saved_files b ++ [path]
  /\ user_emails (fst (get_user_memory (with_file b path) user_id)) = user_emails b
  /\ default_recipient (fst (get_user_memory (with_file b path) user_id))
     = default_recipient b.
Proof.
  unfold get_user_memory. simpl.
  destruct (conversation_memory b !! user_id); simpl; auto 10.
Qed.






End Conversation.

(** *** A user who was asked for an attachment *)

Example example_path_is :
  @attachment_path_of ascii_runtime 7 at_2024_01_01_10_00 (u "raport.pdf")
  = example_path.
Proof. vm_compute. reflexivity. Qed.

Lemma unexpected_attachment_rejected_witness :
  @handle_document ascii_runtime example_clock (new_bot (u "a@b.c") 10) 7
    (u "raport.pdf") true
  = (new_bot (u "a@b.c") 10, [NOT_EXPECTED]).
Proof.
  apply (@unexpected_attachment_rejected ascii_runtime). reflexivity.
Defined.



(** C9 on the code: with [max_conversation_history] set to 0 nothing is
    ever dropped ([messages[-0:]] is the whole list), and the history
    grows beyond the cap. *)
Theorem history_exceeds_cap_zero :
  let b0 := new_bot (u "a@b.c") 0 in
  let b1 := add_to_memory b0 7 (u "user") (u "pierwsza") in
  let b2 := add_to_memory b1 7 (u "user") (u "druga") in
  cap b0 = 0
  /\ history b1 7 = [turn (u "user") (u "pierwsza")]
  /\ history b2 7 = [turn (u "user") (u "pierwsza"); turn (u "user") (u "druga")]
  /\ cap b2 < Z.of_nat (length (history b2 7)).
Proof. vm_compute. repeat split; reflexivity. Qed.

(** ** Further instances *)

Lemma add_to_memory_capped_witness :
  let b := add_to_memory (new_bot (u "a@b.c") 1) 7 (u "user") (u "pierwsza") in
  let new := {| role := u "user"; content := u "druga"; name := None |} in
  let after := history (add_to_memory b 7 (u "user") (u "druga")) 7 in
  Z.of_nat (length after) = Z.min (cap b) (Z.of_nat (length (history b 7)) + 1)
  /\ (exists dropped, history b 7 ++ [new] = dropped ++ after)
  /\ last after = Some new.
Proof.
  apply (add_to_memory_capped
           (add_to_memory (new_bot (u "a@b.c") 1) 7 (u "user") (u "pierwsza")) 7
           (u "user") (u "druga")).
  vm_compute. discriminate.
Defined.

Lemma one_shot_job_survives_witness :
  exists st',
    @run_job ascii_runtime (at_2024_01_01_10_00 + 6 * US_PER_MINUTE) example_job
      example_store
    = (st', Raise (SystemExit STOPPED))
    /\ example_job ∈ jobs st'
    /\ deliveries st'
       = deliveries example_store
         ++ [(example_mail,
              @smtp_accepts ascii_runtime (at_2024_01_01_10_00 + 6 * US_PER_MINUTE)
                example_mail)].
Proof.
  apply (@one_shot_job_survives ascii_runtime
           (at_2024_01_01_10_00 + 6 * US_PER_MINUTE) example_mail
           (at_2024_01_01_10_00 + 5 * US_PER_MINUTE) example_job example_store).
  - reflexivity.
  - vm_compute. reflexivity.
  - change (jobs example_store) with [example_job]. constructor.
Defined.

Lemma falls_back_only_if_witness :
  selects_none (u "jutro 09:00") \/ @malformed ascii_runtime (u "jutro 09:00").
Proof.
  apply (@falls_back_only_if ascii_runtime (u "jutro 09:00") at_2024_01_01_10_00).
  left. vm_compute. reflexivity.
Defined.

Lemma recurring_job_stays_witness :
  let st := {| jobs := [daily_job]; next_job_id := 1; deliveries := [] |} in
  map job_id (jobs (fst (@run_job ascii_runtime at_2024_01_01_10_00 daily_job st)))
  = map job_id (jobs st).
Proof.
  intros st.
  apply (@recurring_job_stays ascii_runtime at_2024_01_01_10_00 daily_job example_mail
           st _ (snd (@run_job ascii_runtime at_2024_01_01_10_00 daily_job st))).
  - reflexivity.
  - apply surjective_pairing.
Defined.

(** * Further properties *)

(** ** Trimming *)

Lemma lstrip_blank (a s : str) : blank a -> lstrip (a ++ s) = lstrip s.
Proof.
  unfold blank. induction a as [|c r IH]; intros Ha; [reflexivity|].
  simpl in Ha. apply andb_true_iff in Ha as [Hc Hr]. simpl. rewrite Hc. auto.
Qed.

(** What [lstrip] drops is white space, and it drops all of it. *)
Lemma lstrip_split (s : str) :
  exists a, blank a /\ s = a ++ lstrip s
            /\ match lstrip s with [] => True | c :: _ => isspace c = false end.
Proof.
  induction s as [|c r (a & Ha & Hs & Hl)].
  - exists []. repeat split.
  - simpl. destruct (isspace c) eqn:E.
    + exists (c :: a). repeat split; [|simpl; congruence|exact Hl].
      unfold blank. simpl. rewrite E. exact Ha.
    + exists []. repeat split. exact E.
Qed.

Lemma lstrip_idem (s : str) : lstrip (lstrip s) = lstrip s.
Proof.
  destruct (lstrip_split s) as (a & _ & _ & Hl).
  destruct (lstrip s) as [|c r]; [reflexivity|]. simpl. rewrite Hl. reflexivity.
Qed.

Lemma lstrip_app (s b : str) :
  lstrip (s ++ b) = match lstrip s with [] => lstrip b | _ => lstrip s ++ b end.
Proof.
  induction s as [|c r IH]; simpl.
  - destruct (lstrip b); reflexivity.
  - destruct (isspace c); [exact IH|reflexivity].
Qed.

Lemma rstrip_blank (s b : str) : blank b -> rstrip (s ++ b) = rstrip s.
Proof.
  intros Hb. unfold rstrip. rewrite rev_app_distr, lstrip_blank; [reflexivity|].
  unfold blank in *. apply forallb_rev_true. exact Hb.
Qed.

Lemma rstrip_split (s : str) : exists b, blank b /\ s = rstrip s ++ b.
Proof.
  destruct (lstrip_split (rev s)) as (a & Ha & Hs & _).
  exists (rev a). split.
  - unfold blank in *. apply forallb_rev_true. exact Ha.
  - unfold rstrip. rewrite <- rev_app_distr, <- Hs, rev_involutive. reflexivity.
Qed.

Lemma lstrip_blank_nil (a : str) : blank a -> lstrip a = [].
Proof.
  intros Ha. rewrite <- (app_nil_r a), lstrip_blank by exact Ha. reflexivity.
Qed.

(** White space around a text does not change what [strip] returns. *)
Lemma strip_blank (a s b : str) : blank a -> blank b -> strip (a ++ s ++ b) = strip s.
Proof.
  intros Ha Hb. unfold strip. rewrite lstrip_blank by exact Ha.
  rewrite lstrip_app. destruct (lstrip s) eqn:E.
  - rewrite lstrip_blank_nil by exact Hb. reflexivity.
  - rewrite rstrip_blank by exact Hb. reflexivity.
Qed.

Lemma strip_trimmed (s : str) : trimmed (strip s).
Proof.
  unfold trimmed, strip.
  destruct (lstrip_split s) as (a & _ & _ & Hl).
  set (x := lstrip s) in *.
  destruct (rstrip_split x) as (b & Hb & Hx).
  assert (L : lstrip (rstrip x) = rstrip x).
  { destruct x as [|c r] eqn:Ex; [reflexivity|].
    destruct (rstrip (c :: r)) as [|c' r'] eqn:Er; [reflexivity|].
    simpl in Hx. injection Hx as <- _. simpl. rewrite Hl. reflexivity. }
  rewrite L. unfold rstrip. rewrite rev_involutive, lstrip_idem. reflexivity.
Qed.

(** ** More on the protocol parser *)

Lemma split_pipes (s cur : str) :
  length (split_from (u "|") 0 cur s) = S (pipes s).
Proof.
  revert cur. induction s as [|c r IH]; intros cur; [reflexivity|].
  change (u "|") with [124%N] in *. unfold pipes in *. cbn [split_from startswith].
  rewrite filter_cons. rewrite N.eqb_sym.
  replace (startswith r []) with true by (destruct r; reflexivity).
  destruct (c =? 124)%N eqn:E.
  - rewrite decide_True by reflexivity. cbn [andb length Nat.sub]. rewrite IH.
    reflexivity.
  - rewrite decide_False by discriminate. cbn [andb]. apply IH.
Qed.

(** The parser reaches no [return], and its callers get [None], exactly
    for a response that begins with the ready marker and has fewer than
    two pipes behind it. *)
Theorem parse_ai_response_none_iff (response : str) :
  parse_ai_response response = None
  <-> startswith (strip response) GOTOWE = true
      /\ (pipes (strip (replace (strip response) GOTOWE [])) < 2)%nat.
Proof.
  unfold parse_ai_response, split_sep. rewrite split_pipes.
  destruct (startswith (strip response) GOTOWE).
  - destruct (3 <=? S (pipes _))%nat eqn:E.
    + apply Nat.leb_le in E. split; [discriminate|]. intros [_ L]. lia.
    + apply Nat.leb_gt in E. split; [|reflexivity]. intros _. split; [reflexivity|lia].
  - destruct (startswith (strip response) ZALACZNIK);
      (split; [discriminate|intros [D _]; discriminate D]).
Qed.

(** Whatever the parser returns carries no white space at its ends:
    subject, body and time expression, the attachment request and the
    plain message are trimmed. *)
Theorem parse_ai_response_trimmed (response : str) :
  match parse_ai_response response with
  | Some (schedule_email subject body send_time) =>
      trimmed subject /\ trimmed body /\ trimmed send_time
  | Some (request_attachment info) => trimmed info
  | Some (text_response message) => trimmed message
  | None => True
  end.
Proof.
  unfold parse_ai_response.
  destruct (startswith (strip response) GOTOWE).
  - destruct (3 <=? _)%nat; [|exact I]. repeat split; apply strip_trimmed.
  - destruct (startswith (strip response) ZALACZNIK); apply strip_trimmed.
Qed.

(** White space before and after a response changes nothing. *)
Theorem parse_ai_response_ignores_margins (a response b : str) :
  blank a -> blank b ->
  parse_ai_response (a ++ response ++ b) = parse_ai_response response.
Proof.
  intros Ha Hb. unfold parse_ai_response. rewrite strip_blank by assumption.
  reflexivity.
Qed.

Lemma parse_ai_response_ignores_margins_witness :
  parse_ai_response (u "  " ++ u "GOTOWE: a|b|c" ++ u " ")
  = parse_ai_response (u "GOTOWE: a|b|c").
Proof.
  apply parse_ai_response_ignores_margins; reflexivity.
Defined.

(** ** More on the time-expression parser *)

Section WrittenTimes.
Context `{PyRuntime}.

Lemma to_ascii_digits (ds : str) : forallb is_digit ds = true -> map to_ascii ds = ds.
Proof.
  induction ds as [|c r IH]; intros Hd; [reflexivity|].
  simpl in Hd. apply andb_true_iff in Hd as [Hc Hr]. simpl. rewrite IH by exact Hr.
  apply is_digit_bounds in Hc. unfold to_ascii, is_ascii.
  destruct (c <? 128)%N eqn:E; [reflexivity|]. apply N.ltb_ge in E. lia.
Qed.

Lemma c_lstrip_digits (ds : str) : forallb is_digit ds = true -> c_lstrip ds = ds.
Proof.
  destruct ds as [|c r]; [reflexivity|]. simpl. intros Hd.
  apply andb_true_iff in Hd as [Hc _]. apply is_digit_bounds in Hc.
  unfold c_isspace.
  destruct (9 <=? c)%N eqn:E1, (c <=? 13)%N eqn:E2, (c =? 32)%N eqn:E3;
    try reflexivity; exfalso;
    try apply N.leb_le in E2; try apply N.eqb_eq in E3; lia.
Qed.

(** [int] on a run of ASCII digits that is not too long. *)
Lemma int_digits (ds : str) :
  forallb is_digit ds = true -> ds <> [] -> (length ds <= 640)%nat ->
  int ds = Ok (digits_value 0 ds).
Proof.
  intros Hd Hne Hl. unfold int.
  rewrite (to_ascii_digits ds Hd), (c_lstrip_digits ds Hd).
  rewrite (c_lstrip_digits (rev ds)) by (apply forallb_rev_true; exact Hd).
  rewrite rev_involutive.
  destruct ds as [|c r]; [congruence|].
  assert (Hc : (48 <= c <= 57)%N).
  { simpl in Hd. apply andb_true_iff in Hd as [Hc _]. apply is_digit_bounds. exact Hc. }
  assert (Hsign : match c :: r with
                  | 43%N :: r0 => (false, r0)
                  | 45%N :: r0 => (true, r0)
                  | _ => (false, c :: r)
                  end = (false, c :: r)).
  { destruct c as [|p]; [lia|].
    do 6 (destruct p as [p|p|]; try reflexivity; try lia). }
  rewrite Hsign. rewrite digits_from_digits by (auto; left; discriminate).
  replace (640 <? 0 + length (c :: r))%nat with false; [reflexivity|].
  symmetry. apply Nat.ltb_ge. lia.
Qed.

Lemma pad2_digits (n : Z) :
  0 <= n < 100 -> pad2 n = [Z.to_N (48 + n / 10); Z.to_N (48 + n mod 10)].
Proof.
  intros Hn. unfold pad2, decimal. destruct (n <? 10) eqn:E.
  - apply Z.ltb_lt in E. simpl. rewrite (proj2 (Z.ltb_lt n 10) E).
    rewrite Z.div_small, Z.mod_small by lia. reflexivity.
  - apply Z.ltb_ge in E.
    assert (L : 3 <= Z.log2 n).
    { change 3 with (Z.log2 10). apply Z.log2_le_mono. exact E. }
    destruct (Z.to_nat (Z.log2 n)) as [|k] eqn:K; [lia|].
    simpl. rewrite (proj2 (Z.ltb_ge n 10) E).
    assert (Q : n / 10 < 10) by (apply Z.div_lt_upper_bound; lia).
    rewrite (proj2 (Z.ltb_lt (n / 10) 10) Q). reflexivity.
Qed.

Lemma digit_char (v : Z) : 0 <= v < 10 -> is_digit (Z.to_N (48 + v)) = true.
Proof.
  intros Hv. unfold is_digit. apply andb_true_iff. split; apply N.leb_le; lia.
Qed.

Lemma pad2_word (n : Z) :
  0 <= n < 100 ->
  forallb is_digit (pad2 n) = true /\ length (pad2 n) = 2%nat
  /\ digits_value 0 (pad2 n) = n.
Proof.
  intros Hn. rewrite (pad2_digits n Hn).
  pose proof (Z.mod_pos_bound n 10 ltac:(lia)) as M.
  assert (Q : 0 <= n / 10 < 10).
  { split; [apply Z.div_pos; lia|apply Z.div_lt_upper_bound; lia]. }
  split; [|split; [reflexivity|]].
  - simpl. rewrite !digit_char by lia. reflexivity.
  - unfold digits_value. simpl. pose proof (Z.div_mod n 10 ltac:(lia)). lia.
Qed.

Lemma int_pad2 (n : Z) : 0 <= n < 100 -> int (pad2 n) = Ok n.
Proof.
  intros Hn. destruct (pad2_word n Hn) as (Hd & Hl & Hv).
  rewrite int_digits; [rewrite Hv; reflexivity|exact Hd| |lia].
  intros E. rewrite E in Hl. discriminate Hl.
Qed.

Lemma decimal_word (n : Z) :
  0 <= n -> forallb is_digit (decimal n) = true /\ decimal n <> [].
Proof.
  intros Hn. split.
  - apply decimal_fuel_digits. exact Hn.
  - apply decimal_fuel_nonempty.
Qed.

(** A separator of one character that does not occur in a word. *)
Lemma split_char_word (c : N) (w cur rest : str) :
  forallb (fun x => negb (c =? x)%N) w = true ->
  split_from [c] 0 cur (w ++ rest) = split_from [c] 0 (rev w ++ cur) rest.
Proof.
  revert cur. induction w as [|x r IH]; intros cur Hw; [reflexivity|].
  simpl in Hw. apply andb_true_iff in Hw as [Hx Hr].
  cbn [app split_from startswith]. apply negb_true_iff in Hx. rewrite Hx.
  cbn [andb]. rewrite IH by exact Hr. cbn [rev]. rewrite <- app_assoc. reflexivity.
Qed.

Lemma split_char_sep (c : N) (cur rest : str) :
  split_from [c] 0 cur (c :: rest) = rev cur :: split_from [c] 0 [] rest.
Proof.
  cbn [split_from startswith]. rewrite N.eqb_refl.
  replace (startswith rest []) with true by (destruct rest; reflexivity).
  reflexivity.
Qed.

Lemma split_char_end (c : N) (w cur : str) :
  forallb (fun x => negb (c =? x)%N) w = true ->
  split_from [c] 0 cur w = [rev cur ++ w].
Proof.
  intros Hw. rewrite <- (app_nil_r w) at 1. rewrite split_char_word by exact Hw.
  cbn [split_from]. rewrite rev_app_distr, rev_involutive. reflexivity.
Qed.

Lemma digits_without (c : N) (ds : str) :
  is_digit c = false -> forallb is_digit ds = true ->
  forallb (fun x => negb (c =? x)%N) ds = true.
Proof.
  intros Hc Hd. rewrite forallb_forall in *. intros x Hx. specialize (Hd x Hx).
  apply negb_true_iff. apply N.eqb_neq. intros <-. congruence.
Qed.

Lemma contains_char (c : N) (s : str) :
  contains [c] s = existsb (fun x => (c =? x)%N) s.
Proof.
  induction s as [|x r IH]; [reflexivity|].
  cbn [contains startswith existsb]. rewrite IH.
  replace (startswith r []) with true by (destruct r; reflexivity).
  rewrite andb_true_r. reflexivity.
Qed.

Lemma digits_exclude (c : N) (ds : str) :
  is_digit c = false -> forallb is_digit ds = true ->
  existsb (fun x => (c =? x)%N) ds = false.
Proof.
  intros Hc Hd. apply not_true_is_false. intros E.
  apply existsb_exists in E as (x & Hx & E). apply N.eqb_eq in E. subst x.
  rewrite forallb_forall in Hd. specialize (Hd c Hx). congruence.
Qed.

Lemma digits_plain (ds : str) : forallb is_digit ds = true -> forallb plain ds = true.
Proof.
  rewrite !forallb_forall. intros Hd c Hc. apply plain_digit. auto.
Qed.

Lemma plain_is_ascii (w : str) : forallb plain w = true -> forallb is_ascii w = true.
Proof.
  apply plain_forall. intros c Hc. unfold plain in Hc. destruct (is_ascii c); auto.
Qed.

(** One or two words of lower-case ASCII text, a blank between them, are
    in normal form already. *)
Lemma two_words_normal (w1 w2 : str) :
  forallb plain w1 = true -> forallb plain w2 = true -> w1 <> [] -> w2 <> [] ->
  lower (strip (w1 ++ [32%N] ++ w2)) = w1 ++ [32%N] ++ w2.
Proof.
  intros H1 H2 N1 N2.
  assert (Hs : strip (w1 ++ [32%N] ++ w2) = w1 ++ [32%N] ++ w2).
  { unfold strip. rewrite lstrip_app.
    assert (L : lstrip w1 = w1).
    { destruct w1 as [|c r]; [congruence|]. simpl in *.
      apply andb_true_iff in H1 as [Hc _]. unfold plain in Hc.
      destruct (isspace c); [rewrite andb_false_r in Hc; discriminate|reflexivity]. }
    rewrite L. destruct w1 as [|c r]; [congruence|].
    rewrite app_assoc. apply rstrip_plain_end; assumption. }
  rewrite Hs. unfold lower. rewrite !forallb_app.
  rewrite (plain_is_ascii w1 H1), (plain_is_ascii w2 H2). cbn [forallb is_ascii andb].
  change (32 <? 128)%N with true. cbn [andb].
  rewrite !map_app, (map_lower_plain w1 H1), (map_lower_plain w2 H2). reflexivity.
Qed.

Lemma one_word_normal (w : str) :
  forallb plain w = true -> w <> [] -> lower (strip w) = w.
Proof.
  intros Hw Hn.
  assert (Hs : strip w = w).
  { unfold strip.
    assert (L : lstrip w = w).
    { destruct w as [|c r]; [congruence|]. simpl in *.
      apply andb_true_iff in Hw as [Hc _]. unfold plain in Hc.
      destruct (isspace c); [rewrite andb_false_r in Hc; discriminate|reflexivity]. }
    rewrite L. apply (rstrip_plain_end [] w); assumption. }
  rewrite Hs. unfold lower. rewrite (plain_is_ascii w Hw). apply map_lower_plain.
  exact Hw.
Qed.

Lemma split_two_words (w1 w2 : str) :
  forallb plain w1 = true -> forallb plain w2 = true -> w1 <> [] -> w2 <> [] ->
  split (w1 ++ [32%N] ++ w2) = [w1; w2].
Proof.
  intros H1 H2 N1 N2. unfold split.
  rewrite (split_ws_word w1) by exact H1. rewrite app_nil_r. cbn [app split_ws_from].
  change (isspace 32) with true. cbn iota.
  destruct (rev w1) as [|c r] eqn:E1.
  { apply (f_equal (@rev N)) in E1. rewrite rev_involutive in E1. simpl in E1.
    congruence. }
  rewrite <- E1, rev_involutive.
  rewrite <- (app_nil_r w2) at 1. rewrite (split_ws_word w2) by exact H2.
  rewrite app_nil_r. cbn [split_ws_from].
  destruct (rev w2) as [|c' r'] eqn:E2.
  { apply (f_equal (@rev N)) in E2. rewrite rev_involutive in E2. simpl in E2.
    congruence. }
  rewrite <- E2, rev_involutive. reflexivity.
Qed.

Lemma not_za (c : N) (s : str) : is_digit c = true -> startswith (c :: s) (u "za ") = false.
Proof.
  intros Hc. apply is_digit_bounds in Hc. change (u "za ") with [122%N; 97%N; 32%N].
  cbn [startswith]. destruct (122 =? c)%N eqn:E; [|reflexivity].
  apply N.eqb_eq in E. lia.
Qed.

Lemma pad2_shape (n : Z) :
  0 <= n < 100 ->
  exists a b, pad2 n = [a; b] /\ is_digit a = true /\ is_digit b = true.
Proof.
  intros Hn. destruct (pad2_word n Hn) as (Hd & _ & _).
  rewrite (pad2_digits n Hn) in *. eexists _, _. split; [reflexivity|].
  simpl in Hd. rewrite andb_true_r in Hd. apply andb_true_iff in Hd. exact Hd.
Qed.

Lemma clock_fields (hour minute : Z) :
  0 <= hour < 100 -> 0 <= minute < 100 ->
  unpack_ints 2 (split_sep (written_clock hour minute) (u ":")) = Ok [hour; minute].
Proof.
  intros Hh Hm. unfold written_clock, split_sep. change (u ":") with [58%N].
  destruct (pad2_word hour Hh) as (Dh & _ & _).
  destruct (pad2_word minute Hm) as (Dm & _ & _).
  rewrite split_char_word by (apply digits_without; [reflexivity|exact Dh]).
  cbn [app]. rewrite split_char_sep.
  rewrite split_char_end by (apply digits_without; [reflexivity|exact Dm]).
  rewrite app_nil_r, rev_involutive. cbn [rev app].
  unfold unpack_ints. cbn [take ints].
  rewrite (int_pad2 hour Hh), (int_pad2 minute Hm). reflexivity.
Qed.

Lemma clock_plain (hour minute : Z) :
  0 <= hour < 100 -> 0 <= minute < 100 ->
  forallb plain (written_clock hour minute) = true
  /\ written_clock hour minute <> []
  /\ length (written_clock hour minute) = 5%nat
  /\ contains (u ".") (written_clock hour minute) = false
  /\ contains (u ":") (written_clock hour minute) = true
  /\ startswith (written_clock hour minute) (u "za ") = false.
Proof.
  intros Hh Hm. unfold written_clock.
  destruct (pad2_word hour Hh) as (Dh & Lh & _).
  destruct (pad2_word minute Hm) as (Dm & Lm & _).
  change (u ":") with [58%N]. change (u ".") with [46%N].
  assert (E46 : forall ds, forallb is_digit ds = true ->
                           existsb (fun x => (46 =? x)%N) ds = false).
  { intros ds Hd. apply digits_exclude; [reflexivity|exact Hd]. }
  assert (E58 : forall ds, forallb is_digit ds = true ->
                           existsb (fun x => (58 =? x)%N) ds = false).
  { intros ds Hd. apply digits_exclude; [reflexivity|exact Hd]. }
  split; [|split; [|split; [|split; [|split]]]].
  - rewrite !forallb_app, (digits_plain _ Dh), (digits_plain _ Dm). reflexivity.
  - destruct (pad2 hour); discriminate.
  - rewrite !length_app, Lh, Lm. reflexivity.
  - rewrite contains_char, !existsb_app, (E46 _ Dh), (E46 _ Dm). reflexivity.
  - rewrite contains_char, !existsb_app, (E58 _ Dh). reflexivity.
  - destruct (pad2 hour) as [|c r]; [discriminate Lh|].
    apply not_za. simpl in Dh. apply andb_true_iff in Dh. tauto.
Qed.

Lemma next_occurrence_bounds (now hour minute : Z) :
  0 <= hour <= 23 -> 0 <= minute <= 59 ->
  now < next_occurrence now hour minute <= now + US_PER_DAY
  /\ next_occurrence now hour minute mod US_PER_DAY
     = hour * US_PER_HOUR + minute * US_PER_MINUTE.
Proof.
  intros Hh Hm. unfold next_occurrence.
  assert (D : US_PER_DAY = 86400000000) by reflexivity.
  assert (Hr : US_PER_HOUR = 3600000000) by reflexivity.
  assert (Mi : US_PER_MINUTE = 60000000) by reflexivity.
  pose proof (Z.mod_pos_bound now US_PER_DAY ltac:(lia)) as B.
  pose proof (Z.div_mod now US_PER_DAY ltac:(lia)) as Q.
  set (x := hour * US_PER_HOUR + minute * US_PER_MINUTE).
  assert (X : 0 <= x < US_PER_DAY) by (unfold x; lia).
  replace (now / US_PER_DAY * US_PER_DAY + hour * US_PER_HOUR + minute * US_PER_MINUTE)
    with (now / US_PER_DAY * US_PER_DAY + x) by (unfold x; lia).
  cbv zeta. destruct (_ <=? now) eqn:L.
  - apply Z.leb_le in L. split; [lia|].
    symmetry. apply (Z.mod_unique _ _ (now / US_PER_DAY + 1)); [left; exact X|lia].
  - apply Z.leb_gt in L. split; [lia|].
    symmetry. apply (Z.mod_unique _ _ (now / US_PER_DAY)); [left; exact X|lia].
Qed.

(** A time of day written ["HH:MM"] resolves to its next occurrence: the
    instant strictly after [now], and at most a day after it, whose time
    of day is [HH:MM]. *)
Theorem parse_send_time_clock (hour minute now : Z) :
  0 <= hour <= 23 -> 0 <= minute <= 59 ->
  valid_datetime now -> now + US_PER_DAY <= DATETIME_MAX ->
  parse_send_time (written_clock hour minute) now
  = Ok (next_occurrence now hour minute)
  /\ now < next_occurrence now hour minute <= now + US_PER_DAY
  /\ next_occurrence now hour minute mod US_PER_DAY
     = hour * US_PER_HOUR + minute * US_PER_MINUTE.
Proof.
  intros Hh Hm [V0 V1] Vd.
  split; [|apply next_occurrence_bounds; assumption].
  destruct (clock_plain hour minute ltac:(lia) ltac:(lia))
    as (P & Ne & L & C1 & C2 & Z0).
  unfold parse_send_time. rewrite (one_word_normal _ P Ne).
  unfold parse_send_time_try. rewrite Z0, C1, C2, L. cbn [andb Nat.eqb].
  rewrite (clock_fields hour minute) by lia.
  unfold mbind at 1, result_bind at 1. cbv beta iota.
  assert (D : US_PER_DAY = 86400000000) by reflexivity.
  assert (Hr : US_PER_HOUR = 3600000000) by reflexivity.
  assert (Mi : US_PER_MINUTE = 60000000) by reflexivity.
  assert (X : DATETIME_MAX = 315537897599999999) by reflexivity.
  assert (R : replace_hm now hour minute
              = Ok (now / US_PER_DAY * US_PER_DAY + hour * US_PER_HOUR
                    + minute * US_PER_MINUTE)).
  { unfold replace_hm, c_int. cbn [forallb].
    replace (-2147483648 <=? hour) with true by (symmetry; apply Z.leb_le; lia).
    replace (hour <=? 2147483647) with true by (symmetry; apply Z.leb_le; lia).
    replace (-2147483648 <=? minute) with true by (symmetry; apply Z.leb_le; lia).
    replace (minute <=? 2147483647) with true by (symmetry; apply Z.leb_le; lia).
    replace (0 <=? hour) with true by (symmetry; apply Z.leb_le; lia).
    replace (hour <=? 23) with true by (symmetry; apply Z.leb_le; lia).
    replace (0 <=? minute) with true by (symmetry; apply Z.leb_le; lia).
    replace (minute <=? 59) with true by (symmetry; apply Z.leb_le; lia).
    reflexivity. }
  rewrite R. unfold mbind at 1, result_bind at 1. cbv beta iota.
  unfold next_occurrence. cbv zeta.
  set (target := now / US_PER_DAY * US_PER_DAY + hour * US_PER_HOUR
                 + minute * US_PER_MINUTE).
  pose proof (Z.mod_pos_bound now US_PER_DAY ltac:(lia)) as B.
  pose proof (Z.div_mod now US_PER_DAY ltac:(lia)) as Q.
  destruct (target <=? now) eqn:T; [|reflexivity].
  apply Z.leb_le in T.
  change (timedelta_of US_PER_DAY 1) with (@Ok Z US_PER_DAY).
  unfold mbind, result_bind, datetime_add.
  replace (0 <=? target + US_PER_DAY) with true
    by (symmetry; apply Z.leb_le; unfold target; lia).
  replace (target + US_PER_DAY <=? DATETIME_MAX) with true
    by (symmetry; apply Z.leb_le; lia).
  reflexivity.
Qed.

Lemma datetime_new_ok (year month day hour minute t : Z) :
  datetime_new year month day hour minute = Ok t ->
  1 <= year <= 9999 /\ 1 <= month <= 12 /\ 1 <= day <= 31
  /\ 0 <= hour <= 23 /\ 0 <= minute <= 59.
Proof.
  unfold datetime_new.
  destruct (negb (forallb c_int _)); [discriminate|].
  destruct ((1 <=? year) && (year <=? 9999)) eqn:Y; [|discriminate].
  destruct ((1 <=? month) && (month <=? 12)) eqn:M; [|discriminate].
  destruct ((1 <=? day) && (day <=? days_in_month year month)) eqn:D; [|discriminate].
  destruct ((0 <=? hour) && (hour <=? 23)) eqn:Hh; [|discriminate].
  destruct ((0 <=? minute) && (minute <=? 59)) eqn:Mi; [|discriminate].
  intros _. apply andb_true_iff in Y, M, D, Hh, Mi.
  assert (days_in_month year month <= 31).
  { unfold days_in_month.
    destruct (month =? 2); [destruct (is_leap year); lia|].
    destruct (_ || _); lia. }
  lia.
Qed.

(** An instant written ["DD.MM.YYYY HH:MM"] resolves to that instant,
    whatever [now] is: the absolute grammar reads back what the calendar
    accepts. *)
Theorem parse_send_time_absolute (day month year hour minute now t : Z) :
  datetime_new year month day hour minute = Ok t ->
  parse_send_time (written_absolute day month year hour minute) now = Ok t.
Proof.
  intros Hnew. destruct (datetime_new_ok _ _ _ _ _ _ Hnew) as (Hy & Hmo & Hd & Hh & Hmi).
  destruct (pad2_word day ltac:(lia)) as (Dd & Ld & _).
  destruct (pad2_word month ltac:(lia)) as (Dm & Lm & _).
  destruct (decimal_word year ltac:(lia)) as (Dy & Ny).
  destruct (clock_plain hour minute ltac:(lia) ltac:(lia))
    as (Pc & Nc & _ & C1 & C2 & _).
  set (date := pad2 day ++ [46%N] ++ pad2 month ++ [46%N] ++ decimal year).
  assert (E : written_absolute day month year hour minute
              = date ++ [32%N] ++ written_clock hour minute).
  { unfold written_absolute, date. change (u ".") with [46%N]. change (u " ") with [32%N].
    rewrite <- !app_assoc. reflexivity. }
  assert (Pd : forallb plain date = true).
  { unfold date. rewrite !forallb_app.
    rewrite (digits_plain _ Dd), (digits_plain _ Dm), (digits_plain _ Dy). reflexivity. }
  assert (Nd : date <> []).
  { unfold date. destruct (pad2 day); discriminate. }
  assert (Sd : split_sep date (u ".") = [pad2 day; pad2 month; decimal year]).
  { unfold date, split_sep. change (u ".") with [46%N].
    rewrite split_char_word by (apply digits_without; [reflexivity|exact Dd]).
    cbn [app]. rewrite split_char_sep.
    rewrite split_char_word by (apply digits_without; [reflexivity|exact Dm]).
    cbn [app]. rewrite split_char_sep.
    rewrite split_char_end by (apply digits_without; [reflexivity|exact Dy]).
    rewrite !app_nil_r, !rev_involutive. reflexivity. }
  assert (Cd : contains (u ".") date = true).
  { unfold date. change (u ".") with [46%N].
    rewrite contains_char, existsb_app. apply orb_true_iff. right.
    rewrite existsb_app. reflexivity. }
  unfold parse_send_time. rewrite E.
  rewrite (two_words_normal _ _ Pd Pc Nd Nc).
  unfold parse_send_time_try.
  assert (Z0 : startswith (date ++ [32%N] ++ written_clock hour minute) (u "za ")
               = false).
  { unfold date. destruct (pad2 day) as [|c r]; [discriminate Ld|].
    apply not_za. simpl in Dd. apply andb_true_iff in Dd. tauto. }
  rewrite Z0.
  assert (C : contains (u ".") (date ++ [32%N] ++ written_clock hour minute)
              && contains (u ":") (date ++ [32%N] ++ written_clock hour minute)
              = true).
  { change (u ".") with [46%N] in *. change (u ":") with [58%N] in *.
    rewrite !contains_char in *. rewrite !existsb_app, Cd, C2.
    rewrite !orb_true_r. reflexivity. }
  rewrite C. rewrite (split_two_words _ _ Pd Pc Nd Nc). rewrite Sd.
  assert (U : unpack_ints 3 [pad2 day; pad2 month; decimal year]
              = Ok [day; month; year]).
  { unfold unpack_ints. cbn [take ints].
    rewrite (int_pad2 day), (int_pad2 month) by lia.
    assert (Y : year < 2 ^ 600).
    { apply Z.le_lt_trans with 9999; [lia|apply Z.ltb_lt; reflexivity]. }
    rewrite (int_decimal year ltac:(lia) Y). reflexivity. }
  rewrite U, (clock_fields hour minute) by lia.
  unfold mbind, result_bind. rewrite Hnew. reflexivity.
Qed.

End WrittenTimes.

(** ** More on the job store and the scheduler loop *)

Section MoreJobStore.
Context `{PyRuntime}.

Lemma run_pending_idle (now : Z) (st : scheduler) :
  (forall j, j ∈ jobs st -> now < next_run j) -> run_pending now st = (st, Ok tt).
Proof.
  intros Hidle. unfold run_pending.
  assert (E : filter (fun j => should_run now j) (jobs st) = []).
  { induction (jobs st) as [|j r IH]; [reflexivity|].
    rewrite filter_cons. rewrite decide_False.
    - apply IH. intros k Hk. apply Hidle. right. exact Hk.
    - unfold should_run. specialize (Hidle j ltac:(left)).
      apply Z.leb_gt in Hidle. rewrite Hidle. simpl. auto. }
  rewrite E. reflexivity.
Qed.

Lemma run_scheduler_idle (ticks : list Z) (st : scheduler) :
  idle_at ticks st -> run_scheduler ticks st = (st, Ok tt).
Proof.
  unfold idle_at. induction ticks as [|now later IH]; intros Hidle; [reflexivity|].
  simpl. rewrite run_pending_idle.
  - apply IH. intros j t Hj Ht. apply Hidle; [exact Hj|right; exact Ht].
  - intros j Hj. apply Hidle; [exact Hj|left].
Qed.

(** Nothing is sent early. The mail is planned less than [2^32] seconds
    (some 136 years) ahead, the range in which the delay survives its
    way through [total_seconds()] and [timedelta(seconds=...)] to the
    microsecond; the clock does not run backwards between the reading
    of [schedule_email_datetime] and that of the library. Then a loop
    that ticks only before the send instant (and before the next run of
    every job that was there) runs no job, records no send and goes
    on. *)
Theorem one_shot_not_before (now now_do send_datetime : Z) (m : email)
    (ticks : list Z) (st : scheduler) :
  send_datetime - now < 2 ^ 32 * US_PER_SECOND ->
  now <= now_do ->
  idle_at ticks st ->
  (forall t, t ∈ ticks -> t < send_datetime) ->
  let st' := fst (schedule_email_datetime now now_do m send_datetime st) in
  run_scheduler ticks st' = (st', Ok tt).
Proof.
  intros _ Hclock Hidle Hticks st'. apply run_scheduler_idle.
  unfold st', schedule_email_datetime.
  destruct (send_datetime <=? now) eqn:E; [exact Hidle|].
  unfold every_seconds_do_tag, schedule_next_run.
  pose proof (datetime_add_inv now_do (send_datetime - now)) as A.
  destruct (datetime_add now_do (send_datetime - now)) as [t|e]; [|exact Hidle].
  destruct A as [-> _]. simpl. intros j t Hj Ht.
  apply elem_of_app in Hj as [Hj|Hj]; [apply Hidle; assumption|].
  apply list_elem_of_singleton in Hj. subst j. simpl.
  specialize (Hticks t Ht). lia.
Qed.

Lemma update_job_recurring (j : job) (js : list job) :
  recurring_daily j -> Forall recurring_daily js ->
  Forall recurring_daily (update_job j js).
Proof.
  intros Hj Hjs. unfold update_job. apply Forall_map.
  eapply Forall_impl; [exact Hjs|]. intros k Hk. simpl.
  destruct (job_id k =? job_id j)%nat; assumption.
Qed.

Lemma run_job_recurring (now : Z) (j : job) (st : scheduler) :
  recurring_daily j -> Forall recurring_daily (jobs st) ->
  exists st', run_job now j st = (st', Ok tt)
              /\ Forall recurring_daily (jobs st')
              /\ map job_id (jobs st') = map job_id (jobs st).
Proof.
  intros [[m Hf] [hh [mm Hp]]] Hst. unfold run_job. rewrite Hf, Hp. simpl.
  eexists. split; [reflexivity|]. simpl. split.
  - apply update_job_recurring; [|exact Hst].
    split; simpl; eauto.
  - unfold update_job. rewrite map_map. apply map_ext. intros k. simpl.
    destruct (job_id k =? job_id j)%nat eqn:E; [|reflexivity].
    apply Nat.eqb_eq in E. simpl. congruence.
Qed.

Lemma run_jobs_recurring (now : Z) (js : list job) (st : scheduler) :
  Forall recurring_daily js -> Forall recurring_daily (jobs st) ->
  exists st', run_jobs now js st = (st', Ok tt)
              /\ Forall recurring_daily (jobs st')
              /\ map job_id (jobs st') = map job_id (jobs st).
Proof.
  revert st. induction js as [|j r IH]; intros st Hjs Hst.
  - exists st. auto.
  - apply Forall_cons in Hjs as [Hj Hr].
    destruct (run_job_recurring now j st Hj Hst) as (st1 & E1 & R1 & I1).
    destruct (IH st1 Hr R1) as (st2 & E2 & R2 & I2).
    exists st2. simpl. rewrite E1. split; [exact E2|]. split; [exact R2|congruence].
Qed.

Lemma insert_job_Forall (P : job -> Prop) (j : job) (js : list job) :
  P j -> Forall P js -> Forall P (insert_job j js).
Proof.
  intros Hj Hjs. induction Hjs as [|k r Hk Hr IH]; simpl.
  - constructor; [exact Hj|constructor].
  - destruct (next_run j <=? next_run k); repeat constructor; assumption.
Qed.

Lemma sorted_jobs_Forall (P : job -> Prop) (js : list job) :
  Forall P js -> Forall P (sorted_jobs js).
Proof.
  unfold sorted_jobs. induction 1 as [|j r Hj Hr IH]; simpl; [constructor|].
  apply insert_job_Forall; assumption.
Qed.

(** A store of recurring daily jobs never stops the loop: whatever the
    transport answers, every tick returns, and the store holds the same
    jobs, still recurring, afterwards. *)
Theorem recurring_store_keeps_running (ticks : list Z) (st : scheduler) :
  Forall recurring_daily (jobs st) ->
  exists st', run_scheduler ticks st = (st', Ok tt)
              /\ Forall recurring_daily (jobs st')
              /\ map job_id (jobs st') = map job_id (jobs st).
Proof.
  revert st. induction ticks as [|now later IH]; intros st Hst.
  - exists st. auto.
  - simpl. unfold run_pending.
    destruct (run_jobs_recurring now
                (sorted_jobs (filter (fun j => should_run now j) (jobs st))) st)
      as (st1 & E1 & R1 & I1).
    + apply sorted_jobs_Forall. apply Forall_forall. intros j Hj.
      apply list_elem_of_filter in Hj as [_ Hj].
      rewrite Forall_forall in Hst. apply Hst. exact Hj.
    + exact Hst.
    + rewrite E1. destruct (IH st1 R1) as (st2 & E2 & R2 & I2).
      exists st2. split; [exact E2|]. split; [exact R2|congruence].
Qed.

(** Which pending one-shot jobs an action removes: the job made for a
    recipient and a send instant is removed by the action of a job for
    another recipient exactly when that recipient is spelt
    [<recipient>_<timestamp>]; the action never removes a job for its own
    recipient. *)
Theorem one_shot_action_removes (now : Z) (m : email) (to : str) (send_datetime : Z)
    (j : job) (st : scheduler) :
  tags j = [once_tag to send_datetime] -> j ∈ jobs st ->
  (j ∈ jobs (fst (send_scheduled_email_once now m st))
   <-> to_email m <> to ++ u "_" ++ timestamp_str send_datetime).
Proof.
  intros Ht Hj. unfold send_scheduled_email_once, send_email. cbn [fst jobs].
  unfold clear. rewrite list_elem_of_filter, Ht.
  split.
  - intros [Hn _] E. apply Hn. rewrite E. unfold once_tag. left.
  - intros Hn. split; [|exact Hj]. intros Hin.
    apply list_elem_of_singleton in Hin. unfold once_tag in Hin.
    apply app_inv_head in Hin. exact (Hn Hin).
Qed.

End MoreJobStore.

(** ** Instances of the further properties *)

Lemma parse_send_time_clock_witness :
  @parse_send_time ascii_runtime (written_clock 9 5) at_2024_01_01_10_00
  = Ok (next_occurrence at_2024_01_01_10_00 9 5)
  /\ at_2024_01_01_10_00 < next_occurrence at_2024_01_01_10_00 9 5
     <= at_2024_01_01_10_00 + US_PER_DAY
  /\ next_occurrence at_2024_01_01_10_00 9 5 mod US_PER_DAY
     = 9 * US_PER_HOUR + 5 * US_PER_MINUTE.
Proof.
  apply (@parse_send_time_clock ascii_runtime 9 5 at_2024_01_01_10_00).
  - lia.
  - lia.
  - vm_compute. split; discriminate.
  - vm_compute. discriminate.
Defined.

Lemma parse_send_time_absolute_witness :
  @parse_send_time ascii_runtime (written_absolute 29 2 2024 7 30) at_2024_01_01_10_00
  = Ok (at_2024_01_01_10_00 + 59 * US_PER_DAY - 150 * US_PER_MINUTE).
Proof.
  apply (@parse_send_time_absolute ascii_runtime 29 2 2024 7 30 at_2024_01_01_10_00).
  vm_compute. reflexivity.
Defined.

Lemma one_shot_not_before_witness :
  let st' := fst (@schedule_email_datetime ascii_runtime
                    at_2024_01_01_10_00 at_2024_01_01_10_00 example_mail
                    (at_2024_01_01_10_00 + 5 * US_PER_MINUTE) empty_store) in
  @run_scheduler ascii_runtime
    [at_2024_01_01_10_00 + 1; at_2024_01_01_10_00 + 4 * US_PER_MINUTE] st'
  = (st', Ok tt).
Proof.
  apply (@one_shot_not_before ascii_runtime at_2024_01_01_10_00 at_2024_01_01_10_00
           (at_2024_01_01_10_00 + 5 * US_PER_MINUTE) example_mail
           [at_2024_01_01_10_00 + 1; at_2024_01_01_10_00 + 4 * US_PER_MINUTE]
           empty_store).
  - vm_compute. reflexivity.
  - lia.
  - intros j t Hj. inversion Hj.
  - intros t Ht.
    apply elem_of_cons in Ht as [-> | Ht]; [vm_compute; reflexivity |].
    apply list_elem_of_singleton in Ht as ->. vm_compute. reflexivity.
Defined.

Lemma recurring_store_keeps_running_witness :
  exists st',
    @run_scheduler ascii_runtime
      [at_2024_01_01_10_00; at_2024_01_01_10_00 + US_PER_DAY]
      {| jobs := [daily_job]; next_job_id := 1; deliveries := [] |}
    = (st', Ok tt)
    /\ Forall recurring_daily (jobs st')
    /\ map job_id (jobs st') = map job_id [daily_job].
Proof.
  apply (@recurring_store_keeps_running ascii_runtime
           [at_2024_01_01_10_00; at_2024_01_01_10_00 + US_PER_DAY]
           {| jobs := [daily_job]; next_job_id := 1; deliveries := [] |}).
  constructor; [| constructor].
  split; [exists example_mail; reflexivity | exists 9, 0; reflexivity].
Defined.

Lemma one_shot_action_removes_witness :
  example_job ∈ jobs (fst (@send_scheduled_email_once ascii_runtime
                             (at_2024_01_01_10_00 + 5 * US_PER_MINUTE)
                             example_mail example_store))
  <-> to_email example_mail
      <> u "a@b.c" ++ u "_"
         ++ @timestamp_str ascii_runtime (at_2024_01_01_10_00 + 5 * US_PER_MINUTE).
Proof.
  apply (@one_shot_action_removes ascii_runtime
           (at_2024_01_01_10_00 + 5 * US_PER_MINUTE) example_mail (u "a@b.c")
           (at_2024_01_01_10_00 + 5 * US_PER_MINUTE) example_job example_store).
  - vm_compute. reflexivity.
  - change (jobs example_store) with [example_job]. constructor.
Defined.

(** ** More on the conversation *)

Section MoreConversation.
Context `{PyRuntime}.

Lemma get_user_memory_add (b : bot) (user_id : Z) (role content : str) :
  fst (get_user_memory (add_to_memory b user_id role content) user_id)
  = add_to_memory b user_id role content.
Proof.
  unfold get_user_memory at 1.
  assert (L : exists m, conversation_memory (add_to_memory b user_id role content)
                        !! user_id = Some m).
  { unfold add_to_memory. destruct (get_user_memory b user_id) as [b0 mem].
    eexists. simpl. apply lookup_insert_eq. }
  destruct L as [m ->]. reflexivity.
Qed.

Lemma add_to_memory_shape (b : bot) (user_id : Z) (role content : str) :
  exists mem,
    add_to_memory b user_id role content = with_memory b mem
    /\ forall other, other <> user_id -> mem !! other = conversation_memory b !! other.
Proof.
  unfold add_to_memory, get_user_memory.
  destruct (conversation_memory b !! user_id) as [m|] eqn:E.
  - eexists. split; [reflexivity|]. intros other Ho.
    apply lookup_insert_ne. congruence.
  - eexists. split; [reflexivity|]. intros other Ho. simpl.
    rewrite !lookup_insert_ne by congruence. reflexivity.
Qed.

Lemma with_memory_twice (b : bot) (m1 m2 : gmap Z memory) :
  with_memory (with_memory b m1) m2 = with_memory b m2.
Proof. reflexivity. Qed.

Lemma system_prompt_nonempty (e : str) : nonempty (system_prompt e) = true.
Proof. reflexivity. Qed.

Lemma request_context_shape (b : bot) (user_id : Z) (message_text : str) :
  exists first rest,
    request_context b user_id message_text
    = (add_to_memory b user_id (u "user") message_text, first :: rest).
Proof.
  unfold request_context, get_conversation_context.
  pose proof (get_user_memory_add b user_id (u "user") message_text) as G.
  destruct (get_user_memory (add_to_memory b user_id (u "user") message_text) user_id)
    as [b1 mem].
  simpl in G. subst b1.
  rewrite filter_cons_True
    by (apply Is_true_true; apply (system_prompt_nonempty (get_user_email _ user_id))).
  eexists _, _. reflexivity.
Qed.

(** The outcomes of [analyze_message_with_ai]. *)
Lemma analyze_cases (now : Z) (b : bot) (user_id : Z) (message_text : str) :
  let r := analyze_message_with_ai now b user_id message_text in
  let b1 := add_to_memory b user_id (u "user") message_text in
  (nonempty (strip message_text) = false /\ r = (b, NO_MESSAGE))
  \/ (nonempty (strip message_text) = true
      /\ (r = (b1, AI_FAILED) \/ r = (b1, NO_AI_RESPONSE)
          \/ exists a, nonempty a = true
                       /\ r = (add_to_memory b1 user_id (u "assistant") a, a))).
Proof.
  cbv zeta. unfold analyze_message_with_ai.
  destruct (nonempty (strip message_text)) eqn:E; [right|left; split; reflexivity].
  split; [reflexivity|]. simpl negb. cbv iota.
  destruct (request_context_shape b user_id message_text) as (first & rest & ->).
  match goal with
  | |- context [match ?x with None => _ | Some _ => _ end] => destruct x as [[a|]|]
  end.
  - destruct (nonempty a) eqn:Ea.
    + right. right. exists a. split; [exact Ea|reflexivity].
    + right. left. reflexivity.
  - right. left. reflexivity.
  - left. reflexivity.
Qed.

Lemma analyze_shape (now : Z) (b : bot) (user_id : Z) (message_text : str) :
  exists mem,
    fst (analyze_message_with_ai now b user_id message_text) = with_memory b mem
    /\ forall other, other <> user_id -> mem !! other = conversation_memory b !! other.
Proof.
  destruct (add_to_memory_shape b user_id (u "user") message_text) as (m1 & E1 & F1).
  destruct (analyze_cases now b user_id message_text)
    as [[_ ->] | [_ [-> | [-> | (a & _ & ->)]]]]; cbn [fst].
  - exists (conversation_memory b). split; [destruct b; reflexivity|]. reflexivity.
  - exists m1. split; assumption.
  - exists m1. split; assumption.
  - destruct (add_to_memory_shape
                (add_to_memory b user_id (u "user") message_text) user_id
                (u "assistant") a) as (m2 & E2 & F2).
    exists m2. split.
    + rewrite E2, E1. reflexivity.
    + intros other Ho. rewrite F2 by exact Ho. rewrite E1. apply F1, Ho.
Qed.

Lemma schedule_email_datetime_cases (now now_do : Z) (m : email) (send_datetime : Z)
    (st : scheduler) :
  let r := schedule_email_datetime now now_do m send_datetime st in
  fst r = st
  \/ exists j,
       fst r = {| jobs := jobs st ++ [j]; next_job_id := S (next_job_id st);
                  deliveries := deliveries st |}
       /\ snd r = Ok tt
       /\ func j = call_send_scheduled_email_once m.
Proof.
  cbv zeta. unfold schedule_email_datetime.
  destruct (send_datetime <=? now); [left; reflexivity|].
  unfold every_seconds_do_tag.
  destruct (schedule_next_run now_do (every_seconds (send_datetime - now)));
    [right|left; reflexivity].
  eexists. split; [reflexivity|]. split; reflexivity.
Qed.

(** What [schedule_email_from_ai] may change: the planning state of the
    user, the job store and the threads. *)
Lemma schedule_email_from_ai_shape (c : clock) (b : bot) (user_id : Z)
    (email_data : action) (attachment_path : option str) :
  let b' := fst (schedule_email_from_ai c b user_id email_data attachment_path) in
  conversation_memory b' = conversation_memory b
  /\ user_emails b' = user_emails b
  /\ default_recipient b' = default_recipient b
  /\ max_conversation_history b' = max_conversation_history b
  /\ saved_files b' = saved_files b
  /\ (forall other, other <> user_id ->
        email_planning_state b' !! other = email_planning_state b !! other)
  /\ (jobs (email_scheduler b') = jobs (email_scheduler b)
      \/ exists j,
           jobs (email_scheduler b') = jobs (email_scheduler b) ++ [j]
           /\ to_email (mail_of j) = get_user_email b user_id
           /\ attachments (mail_of j)
              = match attachment_path with
                | Some (ch :: path) => Some [ch :: path]
                | _ => None
                end).
Proof.
  cbv zeta. unfold schedule_email_from_ai.
  destruct email_data as [subject body send_time| |]; cbn [fst]; [|auto 10..].
  destruct (parse_send_time send_time (now_parse c)) as [t|e]; cbn [fst]; [|auto 10].
  match goal with
  | |- context [schedule_email_datetime ?n ?d ?m ?t ?st] =>
      pose proof (schedule_email_datetime_cases n d m t st) as C;
      destruct (schedule_email_datetime n d m t st) as [st' r]
  end.
  cbv zeta in C. cbn [fst snd] in C.
  assert (P : forall other, other <> user_id ->
                delete user_id (email_planning_state b) !! other
                = email_planning_state b !! other).
  { intros other Ho. apply lookup_delete_ne. congruence. }
  destruct C as [-> | (j & -> & -> & Fj)].
  - destruct r; cbn; auto 10.
  - cbn. repeat (split; [reflexivity || exact P|]).
    right. exists j. split; [reflexivity|].
    unfold mail_of. rewrite Fj. split; reflexivity.
Qed.

Lemma user_view_with_memory (b : bot) (mem : gmap Z memory) (other : Z) :
  mem !! other = conversation_memory b !! other ->
  user_view (with_memory b mem) other = user_view b other.
Proof. intros E. unfold user_view. cbn. rewrite E. reflexivity. Qed.

Lemma get_user_email_with_memory (b : bot) (mem : gmap Z memory) (user_id : Z) :
  get_user_email (with_memory b mem) user_id = get_user_email b user_id.
Proof. reflexivity. Qed.

(** The voice path handles a transcript as the text path handles the
    same text; the missing result of the parser becomes a reply. *)
Lemma process_as_text (c : clock) (b : bot) (user_id : Z) (transcribed_text : str) :
  nonempty (strip transcribed_text) = true ->
  process_transcribed_message c b user_id transcribed_text
  = (fst (handle_text_message c b user_id transcribed_text),
     match snd (handle_text_message c b user_id transcribed_text) with
     | Ok replies => replies
     | Raise _ => [TRANSCRIPT_FAILED]
     end).
Proof.
  intros E. unfold process_transcribed_message, handle_text_message.
  rewrite E. cbn [negb].
  destruct (analyze_message_with_ai (now_parse c) b user_id transcribed_text)
    as [b1 a].
  destruct (parse_ai_response a) as [[subject body send_time|info|message]|];
    try reflexivity.
  destruct (schedule_email_from_ai c b1 user_id
              (schedule_email subject body send_time) None); reflexivity.
Qed.

Lemma handle_text_message_shape (c : clock) (b : bot) (user_id : Z)
    (message_text : str) :
  let b' := fst (handle_text_message c b user_id message_text) in
  (forall other, other <> user_id -> user_view b' other = user_view b other)
  /\ (jobs (email_scheduler b') = jobs (email_scheduler b)
      \/ exists j,
           jobs (email_scheduler b') = jobs (email_scheduler b) ++ [j]
           /\ to_email (mail_of j) = get_user_email b user_id
           /\ attachments (mail_of j) = None).
Proof.
  cbv zeta. unfold handle_text_message.
  destruct (negb (nonempty (strip message_text))); [cbn [fst]; auto|].
  destruct (analyze_shape (now_parse c) b user_id message_text) as (mem & E & F).
  destruct (analyze_message_with_ai (now_parse c) b user_id message_text) as [b1 a].
  cbn [fst] in E. subst b1.
  destruct (parse_ai_response a) as [[subject body send_time|info|message]|];
    cbn [fst].
  - pose proof (schedule_email_from_ai_shape c (with_memory b mem) user_id
                  (schedule_email subject body send_time) None) as S.
    cbv zeta in S.
    destruct (schedule_email_from_ai c (with_memory b mem) user_id
                (schedule_email subject body send_time) None) as [b2 msg].
    cbn [fst] in *. destruct S as (M & U & D & X & _ & P & J).
    split; [|exact J].
    intros other Ho. unfold user_view.
    rewrite M, U, D, X, (P other Ho). cbn. rewrite (F other Ho). reflexivity.
  - split; [|left; reflexivity].
    intros other Ho. unfold user_view. cbn.
    rewrite (F other Ho), lookup_insert_ne by congruence. reflexivity.
  - split; [|left; reflexivity].
    intros other Ho. apply user_view_with_memory, F, Ho.
  - split; [|left; reflexivity].
    intros other Ho. apply user_view_with_memory, F, Ho.
Qed.

Lemma get_user_memory_shape (b : bot) (user_id : Z) :
  exists mem,
    fst (get_user_memory b user_id) = with_memory b mem
    /\ forall other, other <> user_id -> mem !! other = conversation_memory b !! other.
Proof.
  unfold get_user_memory. destruct (conversation_memory b !! user_id).
  - exists (conversation_memory b). split; [destruct b; reflexivity|reflexivity].
  - eexists. split; [reflexivity|]. intros other Ho.
    apply lookup_insert_ne. congruence.
Qed.

Lemma handle_voice_message_fst (c : clock) (b : bot) (user_id : Z)
    (downloaded : bool) (transcribed_text : str) :
  fst (handle_voice_message c b user_id downloaded transcribed_text) = b
  \/ fst (handle_voice_message c b user_id downloaded transcribed_text)
     = fst (handle_text_message c b user_id transcribed_text).
Proof.
  unfold handle_voice_message.
  destruct downloaded; [|left; reflexivity]. cbn [negb].
  destruct (nonempty transcribed_text && nonempty (strip transcribed_text)) eqn:E;
    [|left; reflexivity].
  apply andb_true_iff in E as [_ E]. rewrite (process_as_text _ _ _ _ E).
  right. reflexivity.
Qed.

Lemma handle_document_view (c : clock) (b : bot) (user_id : Z) (file_name : str)
    (downloaded : bool) (other : Z) :
  other <> user_id ->
  user_view (fst (handle_document c b user_id file_name downloaded)) other
  = user_view b other.
Proof.
  intros Ho. unfold handle_document.
  destruct (email_planning_state b !! user_id); [|reflexivity].
  destruct downloaded; [|reflexivity]. cbn [negb].
  set (path := attachment_path_of user_id (now_file c) file_name).
  destruct (get_user_memory_shape (with_file b path) user_id) as (mem & E & F).
  destruct (get_user_memory (with_file b path) user_id) as [b1 m].
  cbn [fst] in E. subst b1.
  assert (V : user_view (with_memory (with_file b path) mem) other = user_view b other).
  { unfold user_view. cbn. rewrite (F other Ho). reflexivity. }
  destruct (last_assistant_message (messages m)) as [last|]; [|exact V].
  destruct (nonempty last && startswith last GOTOWE); [|exact V].
  destruct (parse_ai_response last) as [email_data|]; [|exact V].
  pose proof (schedule_email_from_ai_shape c (with_memory (with_file b path) mem)
                user_id email_data (Some path)) as S.
  cbv zeta in S.
  destruct (schedule_email_from_ai c (with_memory (with_file b path) mem) user_id
              email_data (Some path)) as [b2 msg].
  cbn [fst] in *. destruct S as (M & U & D & X & _ & P & _).
  rewrite <- V. unfold user_view. rewrite M, U, D, X, (P other Ho). reflexivity.
Qed.

(** Each handler changes, of what the bot holds about its users, only
    the part of the user it serves: the history, the awaited attachment
    and the address of every other user stay as they were, and so do the
    two shared settings. *)
Theorem handlers_isolate_users (c : clock) (b : bot) (user_id other : Z)
    (text file_name : str) (downloaded : bool) (args : list str) :
  other <> user_id ->
  user_view (fst (handle_text_message c b user_id text)) other = user_view b other
  /\ user_view (fst (handle_voice_message c b user_id downloaded text)) other
     = user_view b other
  /\ user_view (fst (handle_document c b user_id file_name downloaded)) other
     = user_view b other
  /\ user_view (fst (set_command b user_id args)) other = user_view b other.
Proof.
  intros Ho.
  pose proof (proj1 (handle_text_message_shape c b user_id text) other Ho) as T.
  split; [exact T|]. split; [|split].
  - destruct (handle_voice_message_fst c b user_id downloaded text) as [-> | ->];
      [reflexivity|exact T].
  - apply handle_document_view, Ho.
  - unfold set_command. destruct args as [|arg rest]; [reflexivity|].
    destruct (looks_like_email (strip arg)); [|reflexivity].
    unfold user_view. cbn. rewrite lookup_insert_ne by congruence. reflexivity.
Qed.

(** A mail planned from a text or a voice message goes to the address
    the user had when the message came in, and never carries a file: the
    handler adds no job or one job, the last of the store, without
    attachments. *)
Theorem messages_never_attach (c : clock) (b : bot) (user_id : Z) (text : str)
    (downloaded : bool) :
  let added b' :=
    jobs (email_scheduler b') = jobs (email_scheduler b)
    \/ exists j,
         jobs (email_scheduler b') = jobs (email_scheduler b) ++ [j]
         /\ to_email (mail_of j) = get_user_email b user_id
         /\ attachments (mail_of j) = None in
  added (fst (handle_text_message c b user_id text))
  /\ added (fst (handle_voice_message c b user_id downloaded text)).
Proof.
  cbv zeta.
  pose proof (proj2 (handle_text_message_shape c b user_id text)) as T.
  split; [exact T|].
  destruct (handle_voice_message_fst c b user_id downloaded text) as [-> | ->];
    [left; reflexivity|exact T].
Qed.

(** A voice message whose recording was fetched: an empty or blank
    transcript is answered with the fixed reply and changes nothing; any
    other is echoed and then handled as the same text sent as a text
    message, except that where the text handler is left by the
    exception of the missing parser result, the voice handler replies
    with its failure text. *)
Theorem voice_message_as_text (c : clock) (b : bot) (user_id : Z)
    (transcribed_text : str) :
  handle_voice_message c b user_id true transcribed_text
  = if nonempty (strip transcribed_text) then
      let '(b', r) := handle_text_message c b user_id transcribed_text in
      (b', TRANSCRIPT transcribed_text
           :: match r with Ok replies => replies | Raise _ => [TRANSCRIPT_FAILED] end)
    else (b, [VOICE_EMPTY]).
Proof.
  unfold handle_voice_message. cbn [negb].
  destruct (nonempty (strip transcribed_text)) eqn:E.
  - replace (nonempty transcribed_text) with true
      by (destruct transcribed_text; [discriminate|reflexivity]).
    cbn [andb]. rewrite (process_as_text _ _ _ _ E).
    destruct (handle_text_message c b user_id transcribed_text). reflexivity.
  - rewrite andb_false_r. reflexivity.
Qed.

Lemma fixed_replies_parse :
  parse_ai_response NO_MESSAGE = Some (text_response NO_MESSAGE)
  /\ parse_ai_response AI_FAILED = Some (text_response AI_FAILED)
  /\ parse_ai_response NO_AI_RESPONSE = Some (text_response NO_AI_RESPONSE).
Proof. vm_compute. repeat split; reflexivity. Qed.

(** An answer that parses to something else than plain text came from
    the service and was stored as the newest turn. *)
Lemma analyze_answer_stored (now : Z) (b : bot) (user_id : Z) (message_text a : str) :
  snd (analyze_message_with_ai now b user_id message_text) = a ->
  (forall msg, parse_ai_response a <> Some (text_response msg)) ->
  nonempty (strip message_text) = true
  /\ nonempty a = true
  /\ analyze_message_with_ai now b user_id message_text
     = (add_to_memory (add_to_memory b user_id (u "user") message_text) user_id
          (u "assistant") a, a).
Proof.
  intros Ha Hp. destruct fixed_replies_parse as (P1 & P2 & P3).
  pose proof (analyze_cases now b user_id message_text) as C. cbv zeta in C.
  destruct (analyze_message_with_ai now b user_id message_text) as [b' a'].
  cbn [snd] in Ha. subst a'.
  destruct C as [[_ E] | [Hn [E | [E | (a' & Hne & E)]]]];
    injection E as E1 E2; subst b' a.
  - exfalso. exact (Hp NO_MESSAGE P1).
  - exfalso. exact (Hp AI_FAILED P2).
  - exfalso. exact (Hp NO_AI_RESPONSE P3).
  - split; [exact Hn|]. split; [exact Hne|reflexivity].
Qed.

(** When the completion service fails on the request, the user is told
    so; the message of the user stays in the history, and nothing else
    of the bot changes. *)
Theorem service_failure_reported (c : clock) (b : bot) (user_id : Z) (text : str) :
  nonempty (strip text) = true ->
  chat_completion (snd (request_context b user_id text)) true = api_error ->
  handle_text_message c b user_id text
  = (add_to_memory b user_id (u "user") text, Ok [AI_FAILED]).
Proof.
  intros E F. unfold handle_text_message, analyze_message_with_ai.
  rewrite E. cbn [negb].
  destruct (request_context_shape b user_id text) as (first & rest & R).
  rewrite R in F |- *. cbn [snd] in F. rewrite F.
  rewrite (proj1 (proj2 fixed_replies_parse)). reflexivity.
Qed.

(** Once a plan from a text message is scheduled, the bot awaits no
    attachment from the user: a file sent next is refused and changes
    nothing. *)
Theorem file_after_plan_refused (c c' : clock) (b : bot) (user_id : Z)
    (text subject body send_time file_name : str) (send_datetime : Z)
    (downloaded : bool) :
  parse_ai_response (snd (analyze_message_with_ai (now_parse c) b user_id text))
  = Some (schedule_email subject body send_time) ->
  parse_send_time send_time (now_parse c) = Ok send_datetime ->
  send_datetime <= now_schedule c
  \/ valid_datetime (now_do c + (send_datetime - now_schedule c)) ->
  let b1 := fst (handle_text_message c b user_id text) in
  snd (handle_text_message c b user_id text)
  = Ok [scheduled_message subject (get_user_email b user_id) send_datetime body]
  /\ handle_document c' b1 user_id file_name downloaded = (b1, [NOT_EXPECTED]).
Proof.
  intros Hp Ht Hv.
  destruct (analyze_answer_stored (now_parse c) b user_id text _ eq_refl)
    as (Hn & _ & E).
  { intros msg. rewrite Hp. discriminate. }
  cbv zeta. unfold handle_text_message. rewrite Hn. cbn [negb].
  rewrite E in Hp |- *. cbn [snd] in Hp. rewrite Hp.
  destruct (add_to_memory_shape b user_id (u "user") text) as (m1 & E1 & _).
  destruct (add_to_memory_shape (add_to_memory b user_id (u "user") text) user_id
              (u "assistant")
              (snd (analyze_message_with_ai (now_parse c) b user_id text)))
    as (m2 & E2 & _).
  rewrite E in E2. cbn [snd] in E2. rewrite E2, E1, with_memory_twice.
  unfold schedule_email_from_ai. rewrite Ht, get_user_email_with_memory.
  assert (S : exists st,
             schedule_email_datetime (now_schedule c) (now_do c)
               {| to_email := get_user_email b user_id; subject := subject;
                  body := body; html_body := None; attachments := None |}
               send_datetime (email_scheduler (with_memory b m2))
             = (st, Ok tt)).
  { destruct (Z_le_gt_dec send_datetime (now_schedule c)) as [L|G].
    - unfold schedule_email_datetime.
      replace (send_datetime <=? now_schedule c) with true
        by (symmetry; apply Z.leb_le; exact L).
      eexists. reflexivity.
    - destruct Hv as [L|V]; [lia|].
      rewrite schedule_email_datetime_registers by (assumption || lia).
      eexists. reflexivity. }
  destruct S as [st ->]. cbn [fst snd]. split; [reflexivity|].
  unfold handle_document. cbn [email_planning_state with_planning_state
    start_scheduler_background with_thread with_scheduler].
  rewrite lookup_delete_eq. reflexivity.
Qed.

Lemma startswith_split (s p : str) :
  startswith s p = true -> exists r, s = p ++ r.
Proof.
  revert s. induction p as [|a p IH]; intros s E; [exists s; reflexivity|].
  destruct s as [|x s]; [discriminate|]. simpl in E.
  apply andb_true_iff in E as [Ea E]. apply N.eqb_eq in Ea as ->.
  destruct (IH s E) as [r ->]. exists r. reflexivity.
Qed.

(** A prefix without white space is still a prefix of the stripped text. *)
Lemma startswith_strip (s p : str) :
  forallb (fun x => negb (isspace x)) p = true ->
  startswith s p = true -> startswith (strip s) p = true.
Proof.
  intros Hp E. destruct p as [|a p]; [destruct (strip s); reflexivity|].
  destruct (startswith_split _ _ E) as [r ->].
  cbn [forallb] in Hp. apply andb_true_iff in Hp as [Ha Hp].
  apply negb_true_iff in Ha.
  unfold strip. cbn [app lstrip]. rewrite Ha.
  change (a :: p ++ r) with ((a :: p) ++ r).
  destruct (rstrip_split ((a :: p) ++ r)) as (bl & Hb & Hs).
  symmetry in Hs. apply app_eq_inv in Hs as [(k & E1 & E2) | (k & E1 & E2)].
  - rewrite E1. apply startswith_app.
  - (* the prefix would end in white space of the margin *)
    destruct k as [|x k].
    { rewrite app_nil_r in E1. rewrite <- E1.
      pose proof (startswith_app (a :: p) []) as S. rewrite app_nil_r in S. exact S. }
    exfalso.
    assert (Hx : isspace x = true).
    { unfold blank in Hb. rewrite E2 in Hb. cbn [app forallb] in Hb.
      apply andb_true_iff in Hb as [Hx _]. exact Hx. }
    assert (Hin : forallb (fun y => negb (isspace y)) (a :: p) = true).
    { cbn [forallb]. rewrite Ha. exact Hp. }
    rewrite E1, forallb_app in Hin. apply andb_true_iff in Hin as [_ Hin].
    cbn [forallb] in Hin. rewrite Hx in Hin. discriminate.
Qed.

Lemma history_ends_with_new (b : bot) (user_id : Z) (role content : str) :
  1 <= cap b ->
  exists older,
    history (add_to_memory b user_id role content) user_id
    = older ++ [{| role := role; content := content; name := None |}].
Proof.
  intros Hc. rewrite history_add_to_memory. cbv zeta.
  set (new := {| role := role; content := content; name := None |}).
  destruct (cap b <? Z.of_nat (length (history b user_id ++ [new]))) eqn:E.
  - apply Z.ltb_lt in E. rewrite slice_from_last by lia.
    rewrite length_app in *. cbn [length] in *.
    rewrite drop_app_le by lia. eexists. reflexivity.
  - eexists. reflexivity.
Qed.

Lemma last_assistant_message_new (older : list message) (a : str) :
  last_assistant_message
    (older ++ [{| role := u "assistant"; content := a; name := None |}]) = Some a.
Proof.
  unfold last_assistant_message. rewrite rev_app_distr. cbn [rev app first_assistant].
  rewrite bool_decide_eq_true_2 by reflexivity. reflexivity.
Qed.

(** The attachment flow as the handlers run it: when the service asks
    for a file, the user is prompted and awaited; the file sent next is
    stored and acknowledged, but no mail is planned with it: the job
    store stays as it was and the bot still awaits an attachment. *)
Theorem attachment_request_then_file (c c' : clock) (b : bot) (user_id : Z)
    (text info file_name : str) :
  1 <= cap b ->
  parse_ai_response (snd (analyze_message_with_ai (now_parse c) b user_id text))
  = Some (request_attachment info) ->
  let b1 := fst (handle_text_message c b user_id text) in
  let path := attachment_path_of user_id (now_file c') file_name in
  snd (handle_text_message c b user_id text) = Ok [attachment_prompt info]
  /\ exists b2,
       handle_document c' b1 user_id file_name true = (b2, [ATTACHMENT_RECEIVED])
       /\ email_scheduler b2 = email_scheduler b
       /\ email_planning_state b2 !! user_id = Some info
       /\ saved_files b2 = saved_files b ++ [path].
Proof.
  intros Hc Hp. cbv zeta.
  remember (snd (analyze_message_with_ai (now_parse c) b user_id text)) as a eqn:Ha.
  destruct (analyze_answer_stored (now_parse c) b user_id text a (eq_sym Ha))
    as (Hn & _ & E).
  { intros msg. rewrite Hp. discriminate. }
  unfold handle_text_message. rewrite Hn, E, Hp. cbn [negb fst snd].
  split; [reflexivity|].
  destruct (add_to_memory_shape b user_id (u "user") text) as (m1 & E1 & _).
  set (b0 := add_to_memory b user_id (u "user") text) in *.
  destruct (add_to_memory_shape b0 user_id (u "assistant") a) as (m2 & E2 & _).
  destruct (history_ends_with_new b0 user_id (u "assistant") a) as (older & Hh).
  { rewrite E1. exact Hc. }
  set (b1 := with_planning_state (add_to_memory b0 user_id (u "assistant") a)
               (<[user_id := info]>
                  (email_planning_state (add_to_memory b0 user_id (u "assistant") a)))).
  set (path := attachment_path_of user_id (now_file c') file_name).
  assert (Hs : startswith a GOTOWE = false).
  { destruct (startswith a GOTOWE) eqn:S; [exfalso|reflexivity].
    apply startswith_strip in S; [|reflexivity].
    unfold parse_ai_response in Hp. rewrite S in Hp.
    destruct (3 <=? length _)%nat in Hp; discriminate. }
  destruct (get_user_memory_with_file b1 path user_id) as (M & S & P & F & _).
  unfold handle_document.
  replace (email_planning_state b1 !! user_id) with (Some info)
    by (symmetry; apply lookup_insert_eq).
  cbn [negb]. fold path.
  destruct (get_user_memory (with_file b1 path) user_id) as [b2 mem].
  cbn [fst snd] in M, S, P, F.
  replace (messages mem) with (older ++ [{| role := u "assistant"; content := a;
                                            name := None |}])
    by (rewrite M, <- Hh; unfold history, get_user_memory;
        change (conversation_memory b1)
          with (conversation_memory (add_to_memory b0 user_id (u "assistant") a));
        destruct (conversation_memory _ !! user_id); reflexivity).
  rewrite last_assistant_message_new, Hs, andb_false_r.
  exists b2. split; [reflexivity|]. rewrite S, P, F. split; [|split].
  - unfold b1. rewrite E2. cbn [email_scheduler with_planning_state with_memory].
    rewrite E1. reflexivity.
  - apply lookup_insert_eq.
  - unfold b1. rewrite E2. cbn [saved_files with_planning_state with_memory].
    rewrite E1. reflexivity.
Qed.

Lemma forallb_negb_existsb {A} (f : A -> bool) (l : list A) :
  forallb (fun x => negb (f x)) l = negb (existsb f l).
Proof.
  induction l as [|x l IH]; [reflexivity|].
  cbn [forallb existsb]. rewrite IH, negb_orb. reflexivity.
Qed.

(** A text up to the first occurrence of a character. *)
Lemma span_char (c : N) (s : str) :
  exists w rest,
    s = w ++ rest
    /\ forallb (fun x => negb (c =? x)%N) w = true
    /\ (rest = [] \/ exists t, rest = c :: t).
Proof.
  induction s as [|x s (w & rest & E & Hw & Hr)].
  - exists [], []. split; [reflexivity|]. split; [reflexivity|left; reflexivity].
  - destruct (c =? x)%N eqn:Ex.
    + apply N.eqb_eq in Ex as <-. exists [], (c :: s).
      split; [reflexivity|]. split; [reflexivity|right; exists s; reflexivity].
    + exists (x :: w), rest. split; [rewrite E; reflexivity|]. split; [|exact Hr].
      cbn [forallb]. rewrite Ex. exact Hw.
Qed.

Lemma split_char_second (c : N) (w1 w2 rest : str) :
  forallb (fun x => negb (c =? x)%N) w1 = true ->
  forallb (fun x => negb (c =? x)%N) w2 = true ->
  rest = [] \/ (exists t, rest = c :: t) ->
  nth 1 (split_sep (w1 ++ c :: w2 ++ rest) [c]) [] = w2.
Proof.
  intros H1 H2 Hr. unfold split_sep.
  rewrite split_char_word by exact H1. rewrite split_char_sep.
  rewrite split_char_word by exact H2. cbn [nth].
  rewrite app_nil_r.
  destruct Hr as [-> | (t & ->)]; [|rewrite split_char_sep];
    cbn [split_from nth]; apply rev_involutive.
Qed.

(** What [set_command] takes for an address: a text with an [@] whose
    part between the first [@] and the next one (or the end) holds a
    dot. Nothing is asked of the part before the first [@], which may be
    empty, or of what follows a second [@]. *)
Theorem looks_like_email_iff (email : str) :
  looks_like_email email = true
  <-> exists local domain rest,
        email = local ++ u "@" ++ domain ++ rest
        /\ contains (u "@") local = false
        /\ contains (u "@") domain = false
        /\ contains (u ".") domain = true
        /\ (rest = [] \/ startswith rest (u "@") = true).
Proof.
  change (u "@") with [64%N]. change (u ".") with [46%N].
  unfold looks_like_email. change (u "@") with [64%N]. change (u ".") with [46%N].
  split.
  - intros E. apply andb_true_iff in E as [Ea Ed].
    destruct (span_char 64 email) as (local & rest1 & -> & Hl & [-> | (t & ->)]).
    + exfalso. rewrite contains_char, app_nil_r in Ea.
      rewrite forallb_negb_existsb in Hl. apply negb_true_iff in Hl.
      exact (eq_true_false_abs _ Ea Hl).
    + destruct (span_char 64 t) as (domain & rest & -> & Hd & Hr).
      rewrite (split_char_second 64 local domain rest Hl Hd Hr) in Ed.
      exists local, domain, rest. split; [reflexivity|].
      rewrite !contains_char. rewrite !forallb_negb_existsb in *.
      apply negb_true_iff in Hl, Hd. repeat (split; [assumption|]).
      split; [rewrite <- contains_char; exact Ed|].
      destruct Hr as [-> | (t' & ->)]; [left; reflexivity|right].
      cbn. destruct t'; reflexivity.
  - intros (local & domain & rest & -> & Hl & Hd & Hdot & Hr).
    rewrite contains_char in Hl, Hd.
    assert (Hl' : forallb (fun x => negb (64 =? x)%N) local = true)
      by (rewrite forallb_negb_existsb; apply negb_true_iff; exact Hl).
    assert (Hd' : forallb (fun x => negb (64 =? x)%N) domain = true)
      by (rewrite forallb_negb_existsb; apply negb_true_iff; exact Hd).
    assert (Hr' : rest = [] \/ exists t, rest = 64%N :: t).
    { destruct Hr as [-> | Hr]; [left; reflexivity|right].
      destruct rest as [|x t]; [discriminate|]. cbn [startswith] in Hr.
      apply andb_true_iff in Hr as [Hx _]. apply N.eqb_eq in Hx as <-.
      exists t. reflexivity. }
    apply andb_true_iff. split.
    + rewrite contains_char, existsb_app. cbn [app existsb].
      rewrite orb_true_r. reflexivity.
    + cbn [app]. rewrite (split_char_second 64 local domain rest Hl' Hd' Hr').
      exact Hdot.
Qed.

(** After [/set] with an address the check accepts, the address is the
    user's, trimmed; mails already planned keep theirs; and a mail
    planned from the next text message of the user goes to the new
    address. *)
Theorem set_command_redirects (c : clock) (b : bot) (user_id : Z) (arg : str)
    (more : list str) (text : str) :
  looks_like_email (strip arg) = true ->
  let b1 := fst (set_command b user_id (arg :: more)) in
  let b2 := fst (handle_text_message c b1 user_id text) in
  get_user_email b1 user_id = strip arg
  /\ email_scheduler b1 = email_scheduler b
  /\ (jobs (email_scheduler b2) = jobs (email_scheduler b)
      \/ exists j,
           jobs (email_scheduler b2) = jobs (email_scheduler b) ++ [j]
           /\ to_email (mail_of j) = strip arg).
Proof.
  intros E. cbv zeta. unfold set_command. rewrite E. cbn [fst].
  assert (G : get_user_email (set_user_email b user_id (strip arg)) user_id
              = strip arg).
  { unfold get_user_email, set_user_email, with_user_emails.
    cbn [user_emails default_recipient]. rewrite lookup_insert_eq. reflexivity. }
  split; [exact G|]. split; [reflexivity|].
  destruct (proj2 (handle_text_message_shape c
                     (set_user_email b user_id (strip arg)) user_id text))
    as [J | (j & J & T & _)].
  - left. exact J.
  - right. exists j. split; [exact J|]. rewrite T. exact G.
Qed.

Lemma history_length_capped (b : bot) (user_id : Z) (role content : str) :
  1 <= cap b ->
  Z.of_nat (length (history (add_to_memory b user_id role content) user_id)) <= cap b.
Proof.
  intros Hc. rewrite history_add_to_memory. cbv zeta.
  set (msgs := history b user_id ++ _).
  destruct (cap b <? Z.of_nat (length msgs)) eqn:E.
  - apply Z.ltb_lt in E. rewrite slice_from_last by lia. rewrite length_drop. lia.
  - apply Z.ltb_ge in E. exact E.
Qed.

(** What the completion service is sent for a new message of the user,
    the cap being at least one turn: first the system prompt, which
    names the address of the user; last the new message; between them
    the newest turns of the history, so that with the new message there
    are at most cap of them; and no turn without text. *)
Theorem request_context_first_and_last (b : bot) (user_id : Z) (message_text : str) :
  1 <= cap b -> nonempty message_text = true ->
  let context := snd (request_context b user_id message_text) in
  head context
  = Some {| role := u "system";
            content := system_prompt (get_user_email b user_id); name := None |}
  /\ last context
     = Some {| role := u "user"; content := message_text; name := None |}
  /\ Forall (fun m => nonempty (content m) = true) context
  /\ Z.of_nat (length context) <= cap b + 1.
Proof.
  intros Hc Hn. cbv zeta. rewrite request_context_after_append. cbv zeta.
  destruct (add_to_memory_shape b user_id (u "user") message_text) as (mem & E & _).
  pose proof (history_length_capped b user_id (u "user") message_text Hc) as L.
  destruct (history_ends_with_new b user_id (u "user") message_text Hc)
    as (older & Hh).
  rewrite Hh in *. rewrite E, get_user_email_with_memory.
  rewrite filter_cons_True
    by (apply Is_true_true; apply (system_prompt_nonempty (get_user_email b user_id))).
  rewrite filter_app, filter_cons_True by (apply Is_true_true; exact Hn).
  rewrite filter_nil.
  split; [reflexivity|]. split; [|split].
  - rewrite app_comm_cons. apply last_snoc.
  - constructor; [apply (system_prompt_nonempty (get_user_email b user_id))|].
    apply Forall_app. split.
    + apply Forall_forall. intros m Hm. apply list_elem_of_filter in Hm as [Hm _].
      apply Is_true_true in Hm. exact Hm.
    + constructor; [exact Hn|constructor].
  - pose proof (length_filter (fun m : message => nonempty (content m)) older) as Lf.
    rewrite length_app in L. cbn [length] in *. rewrite length_app. cbn [length].
    lia.
Qed.

End MoreConversation.

(** *** Two users, a service that is down, a plan and a file *)

Lemma handlers_isolate_users_witness :
  user_view (fst (@handle_text_message scripted_runtime example_clock
                    (waiting_bot plan_is_last) 8 (u "dolacz plik"))) 7
  = user_view (waiting_bot plan_is_last) 7
  /\ user_view (fst (@handle_voice_message scripted_runtime example_clock
                       (waiting_bot plan_is_last) 8 true (u "dolacz plik"))) 7
     = user_view (waiting_bot plan_is_last) 7
  /\ user_view (fst (@handle_document scripted_runtime example_clock
                       (waiting_bot plan_is_last) 8 (u "raport.pdf") true)) 7
     = user_view (waiting_bot plan_is_last) 7
  /\ user_view (fst (set_command (waiting_bot plan_is_last) 8 [u "x@y.z"])) 7
     = user_view (waiting_bot plan_is_last) 7.
Proof.
  apply (@handlers_isolate_users scripted_runtime example_clock
           (waiting_bot plan_is_last) 8 7 (u "dolacz plik") (u "raport.pdf") true
           [u "x@y.z"]).
  discriminate.
Defined.

Lemma service_failure_reported_witness :
  @handle_text_message failing_runtime example_clock (new_bot (u "a@b.c") 10) 7
    (u "wyslij raport")
  = (add_to_memory (new_bot (u "a@b.c") 10) 7 (u "user") (u "wyslij raport"),
     Ok [AI_FAILED]).
Proof.
  apply (@service_failure_reported failing_runtime example_clock
           (new_bot (u "a@b.c") 10) 7 (u "wyslij raport")).
  - vm_compute. reflexivity.
  - reflexivity.
Defined.

Lemma file_after_plan_refused_witness :
  let b1 := fst (@handle_text_message scripted_runtime example_clock
                   (new_bot (u "a@b.c") 10) 7 (u "wyslij raport za 5 minut")) in
  snd (@handle_text_message scripted_runtime example_clock
         (new_bot (u "a@b.c") 10) 7 (u "wyslij raport za 5 minut"))
  = Ok [@scheduled_message scripted_runtime (u "Raport")
          (get_user_email (new_bot (u "a@b.c") 10) 7)
          (at_2024_01_01_10_00 + 5 * US_PER_MINUTE) (u "W zalaczeniu raport")]
  /\ @handle_document scripted_runtime example_clock b1 7 (u "raport.pdf") true
     = (b1, [NOT_EXPECTED]).
Proof.
  apply (@file_after_plan_refused scripted_runtime example_clock example_clock
           (new_bot (u "a@b.c") 10) 7 (u "wyslij raport za 5 minut")
           (u "Raport") (u "W zalaczeniu raport") (u "za 5 minut") (u "raport.pdf")
           (at_2024_01_01_10_00 + 5 * US_PER_MINUTE) true).
  - vm_compute. reflexivity.
  - vm_compute. reflexivity.
  - right. vm_compute. split; discriminate.
Defined.

Lemma attachment_request_then_file_witness :
  let b1 := fst (@handle_text_message scripted_runtime example_clock
                   (new_bot (u "a@b.c") 10) 7 (u "dolacz plik")) in
  let path := @attachment_path_of scripted_runtime 7 (now_file example_clock)
                (u "raport.pdf") in
  snd (@handle_text_message scripted_runtime example_clock
         (new_bot (u "a@b.c") 10) 7 (u "dolacz plik"))
  = Ok [attachment_prompt (u "Wyslij plik raportu")]
  /\ exists b2,
       @handle_document scripted_runtime example_clock b1 7 (u "raport.pdf") true
       = (b2, [ATTACHMENT_RECEIVED])
       /\ email_scheduler b2 = email_scheduler (new_bot (u "a@b.c") 10)
       /\ email_planning_state b2 !! 7 = Some (u "Wyslij plik raportu")
       /\ saved_files b2 = saved_files (new_bot (u "a@b.c") 10) ++ [path].
Proof.
  apply (@attachment_request_then_file scripted_runtime example_clock example_clock
           (new_bot (u "a@b.c") 10) 7 (u "dolacz plik") (u "Wyslij plik raportu")
           (u "raport.pdf")).
  - vm_compute. discriminate.
  - vm_compute. reflexivity.
Defined.

Lemma set_command_redirects_witness :
  let b1 := fst (set_command (new_bot (u "a@b.c") 10) 7 [u " jan@x.pl "]) in
  let b2 := fst (@handle_text_message scripted_runtime example_clock b1 7
                   (u "wyslij raport za 5 minut")) in
  get_user_email b1 7 = strip (u " jan@x.pl ")
  /\ email_scheduler b1 = email_scheduler (new_bot (u "a@b.c") 10)
  /\ (jobs (email_scheduler b2) = jobs (email_scheduler (new_bot (u "a@b.c") 10))
      \/ exists j,
           jobs (email_scheduler b2)
           = jobs (email_scheduler (new_bot (u "a@b.c") 10)) ++ [j]
           /\ to_email (mail_of j) = strip (u " jan@x.pl ")).
Proof.
  apply (@set_command_redirects scripted_runtime example_clock
           (new_bot (u "a@b.c") 10) 7 (u " jan@x.pl ") [] (u "wyslij raport za 5 minut")).
  vm_compute. reflexivity.
Defined.

(** ** The launcher and the environment file *)

Section Launcher.
Context `{PyRuntime} `{PyFloat}.

Lemma split_max_first (c : N) (key value cur : str) :
  forallb (fun x => negb (c =? x)%N) key = true ->
  split_max_from [c] 1 0 cur (key ++ c :: value) = [rev cur ++ key; value].
Proof.
  revert cur. induction key as [|x key IH]; intros cur Hk.
  - cbn [app split_max_from startswith]. rewrite N.eqb_refl. cbn [andb length Nat.sub].
    rewrite app_nil_r. destruct value; reflexivity.
  - cbn [forallb] in Hk. apply andb_true_iff in Hk as [Hx Hk].
    apply negb_true_iff in Hx.
    cbn [app split_max_from startswith]. rewrite Hx. cbn [andb].
    rewrite (IH (x :: cur) Hk). cbn [rev]. rewrite <- app_assoc. reflexivity.
Qed.

Lemma startswith_char_app (c : N) (s r : str) :
  nonempty s = true ->
  startswith (s ++ r) [c] = startswith s [c].
Proof.
  destruct s as [|x s]; [discriminate|]. intros _.
  cbn [app startswith]. destruct (c =? x)%N; [|reflexivity].
  destruct s, r; reflexivity.
Qed.

(** One line [key=value] of [.env], white space around it. *)
Lemma load_env_line_assigns (env : gmap (list N) (list N)) (a key value b : str) :
  blank a -> blank b ->
  nonempty key = true ->
  contains (u "=") key = false ->
  startswith key (u "#") = false ->
  trimmed (key ++ u "=" ++ value) ->
  storable key -> storable value ->
  load_env_line env (assignment_line a key value b) = Done (<[key := value]> env).
Proof.
  intros Ha Hb Hn He Hc Ht [Fk Nk] [Fv Nv].
  unfold load_env_line, assignment_line.
  replace (a ++ key ++ u "=" ++ value ++ b) with (a ++ (key ++ u "=" ++ value) ++ b)
    by (rewrite <- !app_assoc; reflexivity).
  rewrite strip_blank by assumption. rewrite Ht.
  change (u "=") with [61%N] in *. change (u "#") with [35%N] in *.
  assert (Hk : forallb (fun x => negb (61 =? x)%N) key = true).
  { pose proof He as He'. rewrite contains_char in He'.
    rewrite forallb_negb_existsb. apply negb_true_iff. exact He'. }
  replace (nonempty (key ++ [61%N] ++ value)) with true
    by (destruct key; [discriminate|reflexivity]).
  rewrite startswith_char_app, Hc by exact Hn.
  replace (contains [61%N] (key ++ [61%N] ++ value)) with true.
  2:{ symmetry. rewrite contains_char, existsb_app. cbn [app existsb].
      rewrite N.eqb_refl. cbn [orb]. apply orb_true_r. }
  cbn [andb negb]. unfold split_max. cbn [app].
  rewrite (split_max_first 61 key value [] Hk). cbn [rev app].
  unfold setenv. change (u "=") with [61%N]. rewrite Fk, Fv, Nk, Nv, He, Hn.
  reflexivity.
Qed.

Lemma load_env_lines_app (env : gmap (list N) (list N)) (l1 l2 : list str) :
  load_env_lines env (l1 ++ l2)
  = match load_env_lines env l1 with
    | Done env1 => load_env_lines env1 l2
    | Raised e => Raised e
    | RaisedOSError => RaisedOSError
    end.
Proof.
  revert env. induction l1 as [|line l1 IH]; intros env; [reflexivity|].
  cbn [app load_env_lines]. destruct (load_env_line env line); try reflexivity.
  apply IH.
Qed.

(** Round trip of the environment file: after a file whose last line
    is [key=value], white space around it allowed, the variable [key]
    holds [value], whatever the process environment or the lines before
    gave it. The name is all that stands before the first [=] of the
    line, so the value may hold a [=] itself; the other variables are as
    the lines before left them. *)
Theorem load_env_file_assigns (env env1 : gmap (list N) (list N))
    (lines : list str) (a key value b : str) :
  load_env_lines env lines = Done env1 ->
  blank a -> blank b ->
  nonempty key = true ->
  contains (u "=") key = false ->
  startswith key (u "#") = false ->
  trimmed (key ++ u "=" ++ value) ->
  storable key -> storable value ->
  load_env_file env (Some (lines ++ [assignment_line a key value b]))
  = Done (<[key := value]> env1, [ENV_LOADED]).
Proof.
  intros E Ha Hb Hn He Hc Ht Sk Sv. unfold load_env_file.
  rewrite load_env_lines_app, E. cbn [load_env_lines].
  rewrite load_env_line_assigns by assumption. reflexivity.
Qed.

(** A line whose first character, white space apart, is [=] names no
    variable: the assignment raises, nothing after the line is read, and
    [main] is left by the exception, a [ValueError] when the rest of the
    line cannot be a value and an [OSError] otherwise. *)
Theorem load_env_file_empty_name (env env1 : gmap (list N) (list N))
    (lines later : list str) (line : str) :
  load_env_lines env lines = Done env1 ->
  startswith (strip line) (u "=") = true ->
  run_bot_env_main env (Some (lines ++ line :: later)) = RaisedOSError
  \/ run_bot_env_main env (Some (lines ++ line :: later)) = Raised ValueError.
Proof.
  intros E Hs. unfold run_bot_env_main, load_env_file.
  rewrite load_env_lines_app, E. cbn [load_env_lines].
  assert (L : load_env_line env1 line = RaisedOSError
              \/ load_env_line env1 line = Raised ValueError).
  { unfold load_env_line. change (u "=") with [61%N] in *.
    destruct (startswith_split _ _ Hs) as [value ->].
    change (u "#") with [35%N]. cbn [app nonempty startswith contains].
    rewrite N.eqb_refl. cbn [andb negb orb].
    replace (startswith value []) with true by (destruct value; reflexivity).
    cbn [orb]. unfold split_max.
    pose proof (split_max_first 61 [] value [] eq_refl) as S.
    cbn [rev app] in S. rewrite S.
    unfold setenv. cbn [fsencodable forallb andb has_null existsb orb nonempty].
    change (contains (u "=") []) with false. cbn [negb].
    destruct (fsencodable value); [|right; reflexivity]. cbn [negb].
    destruct (has_null value); [right|left]; reflexivity. }
  destruct L as [-> | ->]; [left|right]; reflexivity.
Qed.

Lemma dict_get_set (d : list (str * json)) (key : str) (value : json) (k : str) :
  dict_get (dict_set d key value) k
  = if bool_decide (k = key) then Some value else dict_get d k.
Proof.
  induction d as [|[k0 v0] d IH]; cbn [dict_set dict_get].
  - destruct (decide (k = key)) as [->|N0].
    + rewrite !bool_decide_eq_true_2 by reflexivity. reflexivity.
    + rewrite !bool_decide_eq_false_2 by congruence. reflexivity.
  - destruct (decide (k0 = key)) as [->|N0].
    + rewrite (bool_decide_eq_true_2 (key = key)) by reflexivity.
      cbn [dict_get]. destruct (decide (k = key)) as [->|N1].
      * rewrite !bool_decide_eq_true_2 by reflexivity. reflexivity.
      * rewrite !bool_decide_eq_false_2 by congruence. reflexivity.
    + rewrite (bool_decide_eq_false_2 (k0 = key)) by exact N0.
      cbn [dict_get]. rewrite IH.
      destruct (decide (k0 = k)) as [->|N1].
      * rewrite (bool_decide_eq_true_2 (k = k)) by reflexivity.
        rewrite (bool_decide_eq_false_2 (k = key)) by exact N0. reflexivity.
      * rewrite (bool_decide_eq_false_2 (k0 = k)) by exact N1. reflexivity.
Qed.

(** A setting of the environment put on the items of a dict. *)
Lemma dict_get_setting (d : list (str * json)) (key : str) (setting : option json)
    (k : str) :
  dict_get (match setting with Some v => dict_set d key v | None => d end) k
  = match (if bool_decide (k = key) then setting else None) with
    | Some v => Some v
    | None => dict_get d k
    end.
Proof.
  destruct setting as [v|].
  - rewrite dict_get_set. destruct (bool_decide (k = key)); reflexivity.
  - destruct (bool_decide (k = key)); reflexivity.
Qed.

Lemma has_surrogate_dict_set (d : list (str * json)) (key : str) (value : json) :
  has_surrogate (JDict d) = false -> has_surrogate value = false ->
  has_surrogate (JDict (dict_set d key value)) = false.
Proof.
  intros Hd Hv. induction d as [|[k0 v0] d IH]; cbn [dict_set].
  - cbn. rewrite Hv. reflexivity.
  - cbn in Hd. apply orb_false_iff in Hd as [H0' Hd].
    destruct (bool_decide (k0 = key)).
    + cbn. rewrite Hv. exact Hd.
    + cbn. rewrite H0'. apply IH. exact Hd.
Qed.

Lemma has_surrogate_setting (d : list (str * json)) (key : str)
    (setting : option json) :
  has_surrogate (JDict d) = false ->
  match setting with Some v => has_surrogate v = false | None => True end ->
  has_surrogate
    (JDict (match setting with Some v => dict_set d key v | None => d end)) = false.
Proof.
  destruct setting as [v|]; intros Hd Hv; [|exact Hd].
  apply has_surrogate_dict_set; assumption.
Qed.

Lemma convert_to_utf8_spec (obj : json) :
  convert_to_utf8 obj = if has_surrogate obj then Raise ValueError else Ok obj.
Proof.
  revert obj. fix IH 1. intros [| b | n | x | s | l | d]; try reflexivity.
  - cbn. unfold utf8_round_trip. destruct (existsb surrogate s); reflexivity.
  - cbn [convert_to_utf8 has_surrogate].
    assert (L : (fix items (l : list json) : result (list json) :=
                   match l with
                   | [] => Ok []
                   | v :: r => v ← convert_to_utf8 v; r ← items r; Ok (v :: r)
                   end) l
                = if (fix items (l : list json) : bool :=
                        match l with
                        | [] => false
                        | v :: r => has_surrogate v || items r
                        end) l
                  then Raise ValueError else Ok l).
    { induction l as [|v r IHl]; [reflexivity|].
      rewrite (IH v). destruct (has_surrogate v); [reflexivity|].
      cbn [orb mbind result_bind]. rewrite IHl.
      match goal with |- context [if ?c then _ else _] => destruct c end;
        reflexivity. }
    rewrite L.
    match goal with |- context [if ?c then _ else _] => destruct c end; reflexivity.
  - cbn [convert_to_utf8 has_surrogate].
    assert (L : (fix values (d : list (str * json)) : result (list (str * json)) :=
                   match d with
                   | [] => Ok []
                   | (k, v) :: r =>
                       v ← convert_to_utf8 v; r ← values r; Ok ((k, v) :: r)
                   end) d
                = if (fix values (d : list (list N * json)) : bool :=
                        match d with
                        | [] => false
                        | (_, v) :: r => has_surrogate v || values r
                        end) d
                  then Raise ValueError else Ok d).
    { induction d as [|[k v] r IHd]; [reflexivity|].
      rewrite (IH v). destruct (has_surrogate v); [reflexivity|].
      cbn [orb mbind result_bind]. rewrite IHd.
      match goal with |- context [if ?c then _ else _] => destruct c end;
        reflexivity. }
    rewrite L.
    match goal with |- context [if ?c then _ else _] => destruct c end; reflexivity.
Qed.

Lemma env_text_dict (env : gmap (list N) (list N)) (name key : str)
    (d : list (str * json)) :
  env_text env name key (JDict d)
  = Ok (JDict (match JStr <$> getenv_true env name with
               | Some v => dict_set d key v
               | None => d
               end)).
Proof. unfold env_text. destruct (getenv_true env name); reflexivity. Qed.

Lemma env_int_dict (env : gmap (list N) (list N)) (name key : str)
    (d : list (str * json)) :
  env_int env name key (JDict d)
  = Ok (JDict (match v ← getenv_true env name;
                     match int v with Ok n => Some (JInt n) | Raise _ => None end
               with
               | Some v => dict_set d key v
               | None => d
               end)).
Proof.
  unfold env_int. destruct (getenv_true env name) as [v|]; [|reflexivity].
  cbn [mbind option_bind]. destruct (int v) as [n|e] eqn:E; [reflexivity|].
  rewrite (int_raises _ _ E). reflexivity.
Qed.

Lemma env_float_dict (env : gmap (list N) (list N)) (name key : str)
    (d : list (str * json)) :
  env_float env name key (JDict d)
  = Ok (JDict (match v ← getenv_true env name; JFloat <$> float v with
               | Some v => dict_set d key v
               | None => d
               end)).
Proof.
  unfold env_float. destruct (getenv_true env name) as [v|]; [|reflexivity].
  cbn [mbind option_bind]. destruct (float v); reflexivity.
Qed.

Lemma getenv_true_lookup (env : gmap (list N) (list N)) (name value : str) :
  getenv_true env name = Some value ->
  env !! name = Some value /\ nonempty value = true.
Proof.
  unfold getenv_true. destruct (env !! name) as [[|c v]|]; try discriminate.
  intros E. injection E as <-. split; reflexivity.
Qed.

Lemma env_text_clean (env : gmap (list N) (list N)) (name : str) :
  clean_env env ->
  match JStr <$> getenv_true env name with
  | Some v => has_surrogate v = false
  | None => True
  end.
Proof.
  intros Hc. destruct (getenv_true env name) as [v|] eqn:E; [|exact I].
  apply getenv_true_lookup in E as [E _]. exact (Hc _ _ E).
Qed.

Lemma env_int_clean (env : gmap (list N) (list N)) (name : str) :
  match v ← getenv_true env name;
        match int v with Ok n => Some (JInt n) | Raise _ => None end
  with
  | Some v => has_surrogate v = false
  | None => True
  end.
Proof.
  destruct (getenv_true env name) as [v|]; [|exact I].
  cbn [mbind option_bind]. destruct (int v); [reflexivity|exact I].
Qed.

Lemma env_float_clean (env : gmap (list N) (list N)) (name : str) :
  match v ← getenv_true env name; JFloat <$> float v with
  | Some v => has_surrogate v = false
  | None => True
  end.
Proof.
  destruct (getenv_true env name) as [v|]; [|exact I].
  cbn [mbind option_bind]. destruct (float v); [reflexivity|exact I].
Qed.

Ltac other_keys :=
  rewrite ?bool_decide_eq_false_2
    by (let E := fresh in intros E; vm_compute in E; discriminate E).

Ltac this_key key K :=
  let N := fresh "N" in
  destruct (decide (key = K)) as [->|N];
  [ rewrite !(bool_decide_eq_true_2 (K = K)) by reflexivity; other_keys;
    reflexivity
  | rewrite !(bool_decide_eq_false_2 _ N) ].

(** [load_from_env] on a dict: each variable that is set and accepted
    takes its key; every other key keeps what the dict held. *)
Lemma load_from_env_dict (env : gmap (list N) (list N)) (d : list (str * json)) :
  exists d',
    load_from_env env (JDict d) = Ok (JDict d')
    /\ (forall key,
          dict_get d' key
          = match env_setting env key with
            | Some v => Some v
            | None => dict_get d key
            end)
    /\ (clean_env env -> has_surrogate (JDict d) = false ->
        has_surrogate (JDict d') = false).
Proof.
  unfold load_from_env.
  rewrite env_text_dict. cbn [mbind result_bind].
  rewrite env_text_dict. cbn [mbind result_bind].
  rewrite env_text_dict. cbn [mbind result_bind].
  rewrite env_text_dict. cbn [mbind result_bind].
  rewrite env_int_dict. cbn [mbind result_bind].
  rewrite env_float_dict. cbn [mbind result_bind].
  rewrite env_int_dict. cbn [mbind result_bind].
  eexists. split; [reflexivity|]. split.
  - intros key. rewrite !dict_get_setting. unfold env_setting.
    this_key key (u "max_conversation_history").
    this_key key (u "temperature").
    this_key key (u "max_tokens").
    this_key key (u "openai_model").
    this_key key (u "default_recipient").
    this_key key (u "openai_api_key").
    this_key key (u "telegram_token").
    reflexivity.
  - intros Hc Hd.
    repeat (apply has_surrogate_setting;
            [|apply env_text_clean, Hc || apply env_int_clean
              || apply env_float_clean]).
    exact Hd.
Qed.

(** The environment comes first: for a configuration file that holds a
    dict, each of the seven variables that is set, not empty and, where a
    number is asked, read by [int] or [float], decides its key; every
    other key has the value of the file. A text with a surrogate anywhere
    in the merged configuration discards all of it for the defaults. A
    missing file counts as an empty dict. *)
Theorem load_config_env_first (env : gmap (list N) (list N))
    (d : list (str * json)) :
  exists d',
    (forall key,
       dict_get d' key
       = match env_setting env key with
         | Some v => Some v
         | None => dict_get d key
         end)
    /\ load_config env (loaded (JDict d))
       = (if has_surrogate (JDict d') then get_default_config else JDict d')
    /\ load_config env no_file = load_config env (loaded (JDict [])).
Proof.
  destruct (load_from_env_dict env d) as (d' & E & L & _).
  exists d'. split; [exact L|]. split; [|reflexivity].
  unfold load_config. cbn [mbind result_bind]. rewrite E. cbn [mbind result_bind].
  unfold ensure_utf8_config. rewrite convert_to_utf8_spec.
  destruct (has_surrogate (JDict d')); reflexivity.
Qed.

Lemma env_setting_text (env : gmap (list N) (list N)) :
  env_setting env (u "telegram_token") = JStr <$> getenv_true env (u "TELEGRAM_TOKEN")
  /\ env_setting env (u "openai_api_key")
     = JStr <$> getenv_true env (u "OPENAI_API_KEY")
  /\ env_setting env (u "default_recipient")
     = JStr <$> getenv_true env (u "DEFAULT_RECIPIENT")
  /\ env_setting env (u "max_conversation_history")
     = (v ← getenv_true env (u "MAX_CONVERSATION_HISTORY");
        match int v with Ok n => Some (JInt n) | Raise _ => None end).
Proof.
  unfold env_setting. repeat split.
  all: other_keys; rewrite bool_decide_eq_true_2 by reflexivity; reflexivity.
Qed.

Lemma missing_vars_nil (env : gmap (list N) (list N)) (var : str) :
  missing_vars env = [] -> var ∈ required_vars ->
  exists value, getenv_true env var = Some value.
Proof.
  intros E Hv. destruct (getenv_true env var) as [value|] eqn:G; [eauto|].
  exfalso. apply (not_elem_of_nil var). rewrite <- E. unfold missing_vars.
  apply list_elem_of_filter. split; [exact G|exact Hv].
Qed.

Lemma run_bot_env_main_constructs (env env1 : gmap (list N) (list N))
    (env_file : option (list str)) (printed : list str) :
  run_bot_env_main env env_file = Done (constructs_bot env1 printed) ->
  missing_vars env1 = [].
Proof.
  unfold run_bot_env_main.
  destruct (load_env_file env env_file) as [[env' out]| |]; try discriminate.
  destruct (missing_vars env') eqn:M; [|discriminate].
  intros E. injection E as <- _. exact M.
Qed.

(** What the check of the launcher is worth. When [main] of
    [run_bot_env.py] goes on to construct the bot, a configuration file
    that cannot be loaded still leaves the bot with the default
    configuration, whose token is empty, so that [run_bot] returns at
    once. With a file that holds a dict, and no surrogate in it or in the
    environment, the configuration holds the token, the API key and the
    recipient of the environment. *)
Theorem launcher_check_and_config (env env1 : gmap (list N) (list N))
    (env_file : option (list str)) (printed : list str) :
  run_bot_env_main env env_file = Done (constructs_bot env1 printed) ->
  has_token (load_config env1 not_loadable) = Some false
  /\ forall d,
       clean_env env1 -> has_surrogate (JDict d) = false ->
       exists d' token api_key recipient,
         load_config env1 (loaded (JDict d)) = JDict d'
         /\ getenv_true env1 (u "TELEGRAM_TOKEN") = Some token
         /\ getenv_true env1 (u "OPENAI_API_KEY") = Some api_key
         /\ getenv_true env1 (u "DEFAULT_RECIPIENT") = Some recipient
         /\ dict_get d' (u "telegram_token") = Some (JStr token)
         /\ dict_get d' (u "openai_api_key") = Some (JStr api_key)
         /\ dict_get d' (u "default_recipient") = Some (JStr recipient)
         /\ has_token (JDict d') = Some true.
Proof.
  intros E. apply run_bot_env_main_constructs in E.
  split; [vm_compute; reflexivity|].
  intros d Hc Hd.
  destruct (missing_vars_nil env1 (u "TELEGRAM_TOKEN") E) as [token T];
    [unfold required_vars; set_solver|].
  destruct (missing_vars_nil env1 (u "OPENAI_API_KEY") E) as [api_key K];
    [unfold required_vars; set_solver|].
  destruct (missing_vars_nil env1 (u "DEFAULT_RECIPIENT") E) as [recipient R];
    [unfold required_vars; set_solver|].
  destruct (load_from_env_dict env1 d) as (d' & L & G & C).
  destruct (env_setting_text env1) as (S1 & S2 & S3 & _).
  exists d', token, api_key, recipient.
  assert (G1 : dict_get d' (u "telegram_token") = Some (JStr token))
    by (rewrite G, S1, T; reflexivity).
  split.
  { unfold load_config. cbn [mbind result_bind]. rewrite L. cbn [mbind result_bind].
    unfold ensure_utf8_config. rewrite convert_to_utf8_spec, (C Hc Hd). reflexivity. }
  repeat (split; [assumption|]).
  split; [rewrite G, S2, K; reflexivity|].
  split; [rewrite G, S3, R; reflexivity|].
  unfold has_token. rewrite G1. cbn [truth].
  apply getenv_true_lookup in T as [_ ->]. reflexivity.
Qed.

Lemma bot_settings_from_env (env : gmap (list N) (list N)) (d : list (str * json))
    (recipient text : str) (n : Z) :
  clean_env env -> has_surrogate (JDict d) = false ->
  getenv_true env (u "DEFAULT_RECIPIENT") = Some recipient ->
  getenv_true env (u "MAX_CONVERSATION_HISTORY") = Some text ->
  int text = Ok n ->
  bot_settings (load_config env (loaded (JDict d))) = Some (Some recipient, Some n).
Proof.
  intros Hc Hd R M I.
  destruct (load_from_env_dict env d) as (d' & L & G & C).
  destruct (env_setting_text env) as (_ & _ & S3 & S4).
  unfold load_config. cbn [mbind result_bind]. rewrite L. cbn [mbind result_bind].
  unfold ensure_utf8_config. rewrite convert_to_utf8_spec, (C Hc Hd).
  unfold bot_settings. rewrite !G, S3, S4, R, M. cbn [mbind option_bind fmap option_fmap option_map].
  rewrite I. reflexivity.
Qed.

(** The environment reaches the handlers: with [DEFAULT_RECIPIENT] set
    and [MAX_CONVERSATION_HISTORY] holding an integer literal, the bot is
    built, with or without a configuration file, with that recipient
    for every user who has set none, and with that integer as the cap of
    the histories, whatever the file says about the two. *)
Theorem env_settings_reach_bot (env : gmap (list N) (list N))
    (d : list (str * json)) (recipient text : str) (n : Z) :
  clean_env env -> has_surrogate (JDict d) = false ->
  getenv_true env (u "DEFAULT_RECIPIENT") = Some recipient ->
  getenv_true env (u "MAX_CONVERSATION_HISTORY") = Some text ->
  int text = Ok n ->
  exists b,
    init_bot (load_config env (loaded (JDict d))) = Some b
    /\ init_bot (load_config env no_file) = Some b
    /\ cap b = n
    /\ forall user_id, get_user_email b user_id = recipient.
Proof.
  intros Hc Hd R M I.
  pose proof (bot_settings_from_env env d recipient text n Hc Hd R M I) as S.
  pose proof (bot_settings_from_env env [] recipient text n Hc eq_refl R M I) as S0.
  unfold init_bot.
  change (load_config env no_file) with (load_config env (loaded (JDict []))).
  rewrite S, S0. eexists. split; [reflexivity|]. split; [reflexivity|].
  split; reflexivity.
Qed.

Lemma clean_env_empty : clean_env ∅.
Proof. intros name value E. rewrite lookup_empty in E. discriminate. Qed.

Lemma clean_env_insert (env : gmap (list N) (list N)) (name value : str) :
  existsb surrogate value = false -> clean_env env ->
  clean_env (<[name := value]> env).
Proof.
  intros Hv Hc name' value' E.
  apply lookup_insert_Some in E as [[_ <-] | [_ E]]; [exact Hv|exact (Hc _ _ E)].
Qed.

End Launcher.

(** *** An environment file *)

Lemma load_env_file_assigns_witness :
  load_env_file ∅
    (Some ([u "# ustawienia" ++ NL] ++ [assignment_line (u " ") (u "A") (u "b=c") NL]))
  = Done (<[u "A" := u "b=c"]> ∅, [ENV_LOADED]).
Proof.
  apply (load_env_file_assigns ∅ ∅ [u "# ustawienia" ++ NL]
           (u " ") (u "A") (u "b=c") NL).
  - reflexivity.
  - reflexivity.
  - reflexivity.
  - reflexivity.
  - reflexivity.
  - reflexivity.
  - vm_compute. reflexivity.
  - split; reflexivity.
  - split; reflexivity.
Defined.

Lemma load_env_file_empty_name_witness :
  run_bot_env_main ∅ (Some ([] ++ u " =x" :: [u "A=b"])) = RaisedOSError
  \/ run_bot_env_main ∅ (Some ([] ++ u " =x" :: [u "A=b"])) = Raised ValueError.
Proof.
  apply (load_env_file_empty_name ∅ ∅ [] [u "A=b"] (u " =x")).
  - reflexivity.
  - reflexivity.
Defined.

Lemma launcher_check_and_config_witness :
  @has_token example_floats (@load_config ascii_runtime example_floats example_env
                               not_loadable) = Some false
  /\ forall d,
       clean_env example_env -> @has_surrogate example_floats (JDict d) = false ->
       exists d' token api_key recipient,
         @load_config ascii_runtime example_floats example_env (loaded (JDict d))
         = JDict d'
         /\ getenv_true example_env (u "TELEGRAM_TOKEN") = Some token
         /\ getenv_true example_env (u "OPENAI_API_KEY") = Some api_key
         /\ getenv_true example_env (u "DEFAULT_RECIPIENT") = Some recipient
         /\ dict_get d' (u "telegram_token") = Some (JStr token)
         /\ dict_get d' (u "openai_api_key") = Some (JStr api_key)
         /\ dict_get d' (u "default_recipient") = Some (JStr recipient)
         /\ has_token (JDict d') = Some true.
Proof.
  apply (@launcher_check_and_config ascii_runtime example_floats ∅ example_env
           (Some example_env_lines) [STARTING; ENV_LOADED]).
  vm_compute. reflexivity.
Defined.

Lemma env_settings_reach_bot_witness :
  exists b,
    @init_bot example_floats
      (@load_config ascii_runtime example_floats example_env
         (loaded (JDict [(u "max_conversation_history", JInt 10)]))) = Some b
    /\ @init_bot example_floats
         (@load_config ascii_runtime example_floats example_env no_file) = Some b
    /\ cap b = 0
    /\ forall user_id, get_user_email b user_id = u "jan@x.pl".
Proof.
  apply (@env_settings_reach_bot ascii_runtime example_floats example_env
           [(u "max_conversation_history", JInt 10)] (u "jan@x.pl") (u "0") 0).
  - repeat (apply clean_env_insert; [reflexivity|]). apply clean_env_empty.
  - reflexivity.
  - vm_compute. reflexivity.
  - vm_compute. reflexivity.
  - vm_compute. reflexivity.
Defined.

(** *** The context of a second message *)

Lemma request_context_first_and_last_witness :
  let b := add_to_memory (new_bot (u "a@b.c") 1) 7 (u "user") (u "pierwsza") in
  let context := snd (request_context b 7 (u "druga")) in
  head context
  = Some {| role := u "system"; content := system_prompt (get_user_email b 7);
            name := None |}
  /\ last context = Some {| role := u "user"; content := u "druga"; name := None |}
  /\ Forall (fun m => nonempty (content m) = true) context
  /\ Z.of_nat (length context) <= cap b + 1.
Proof.
  apply (request_context_first_and_last
           (add_to_memory (new_bot (u "a@b.c") 1) 7 (u "user") (u "pierwsza")) 7
           (u "druga")).
  - vm_compute. discriminate.
  - reflexivity.
Defined.
